(** * ComfyUI automation: selection engine, nested store and catalog index

    A shallow embedding of the Python sources [utils/dict_utils.py],
    [utils/random_utils.py], [utils/type_utils.py], [utils/file_handler.py]
    and of the selection and resolution methods of [ComfyUIAutomation] in
    [main.py], followed by the properties established about them.

    Conventions of the embedding.
    - Python objects are values of the type [value]; a [dict] is an
      association list in insertion order (the order Python iterates in).
    - Python [float]s are idealised as rationals ([Q]).
    - Exceptions are the constructors of [exn]; a function that may raise
      returns a [result].
    - The random number generator is an oracle [rnd : nat -> Q] of draws in
      the unit interval, read through a counter (monad [M]). *)

From Stdlib Require Import List String Ascii ZArith QArith Qround Bool Lia Lqa Permutation.
Import ListNotations.

Set Implicit Arguments.

(* ===================================================================== *)
(** * Python values                                                       *)
(* ===================================================================== *)

Module Py.

(** Hashable scalars used as dictionary keys.  [True]/[False] hash and
    compare as [1]/[0], hence no separate boolean key. *)
Inductive key : Type :=
| KNone
| KStr (s : string)
| KInt (z : Z).

#[warnings="-register-all"]
Inductive value : Type :=
| VNone
| VBool (b : bool)
| VInt (z : Z)
| VFloat (q : Q)
| VStr (s : string)
| VList (l : list value)
| VDict (d : list (key * value)).

Definition dict : Type := list (key * value).

Inductive exn : Type :=
| TypeError | ValueError | KeyError | IndexError | AttributeError | FileNotFoundError.

Inductive result (A : Type) : Type :=
| Ok (a : A)
| Raise (e : exn).
Arguments Ok {A} a.
Arguments Raise {A} e.

Definition bind {A B} (r : result A) (f : A -> result B) : result B :=
  match r with
  | Ok a => f a
  | Raise e => Raise e
  end.

Declare Scope py_scope.
Delimit Scope py_scope with py.
Notation "x <- e ;; k" := (bind e (fun x => k))
  (at level 61, e at next level, right associativity) : py_scope.
Notation "e1 ;;; e2" := (bind e1 (fun _ => e2))
  (at level 61, right associativity) : py_scope.
Open Scope py_scope.

Definition key_eqb (a b : key) : bool :=
  match a, b with
  | KNone, KNone => true
  | KStr s, KStr t => String.eqb s t
  | KInt x, KInt y => Z.eqb x y
  | _, _ => false
  end.

Coercion KStr : string >-> key.

(** [hash(v)]: lists and dicts are unhashable.  Float keys are outside the
    model and are reported as unhashable as well. *)
Definition to_key (v : value) : result key :=
  match v with
  | VNone => Ok KNone
  | VStr s => Ok (KStr s)
  | VInt z => Ok (KInt z)
  | VBool b => Ok (KInt (if b then 1 else 0))
  | VFloat _ | VList _ | VDict _ => Raise TypeError
  end.

Definition of_key (k : key) : value :=
  match k with
  | KNone => VNone
  | KStr s => VStr s
  | KInt z => VInt z
  end.

(** ** Dictionaries in insertion order *)

(** [d.get(k)] / [d[k]] *)
Fixpoint dict_get (d : dict) (k : key) : option value :=
  match d with
  | [] => None
  | (k', v) :: rest => if key_eqb k k' then Some v else dict_get rest k
  end.

(** [k in d] *)
Definition dict_mem (d : dict) (k : key) : bool :=
  match dict_get d k with Some _ => true | None => false end.

(** [d.get(k, default)] *)
Definition dict_get_default (d : dict) (k : key) (default : value) : value :=
  match dict_get d k with Some v => v | None => default end.

(** [d[k] = v]: an existing key keeps its position, a new key goes last. *)
Fixpoint dict_set (k : key) (v : value) (d : dict) : dict :=
  match d with
  | [] => [(k, v)]
  | (k', v') :: rest =>
      if key_eqb k k' then (k', v) :: rest else (k', v') :: dict_set k v rest
  end.

(** [d.pop(k, None)] (the dictionary that remains) *)
Fixpoint dict_pop (k : key) (d : dict) : dict :=
  match d with
  | [] => []
  | (k', v') :: rest =>
      if key_eqb k k' then rest else (k', v') :: dict_pop k rest
  end.

Definition dict_keys (d : dict) : list key := map fst d.
Definition dict_values (d : dict) : list value := map snd d.

(** ** Truthiness, numbers and comparisons *)

Definition Qlt_bool (x y : Q) : bool := negb (Qle_bool y x).
Definition Qis_zero (x : Q) : bool := Qeq_bool x 0.

(** [bool(v)] *)
Definition truthy (v : value) : bool :=
  match v with
  | VNone => false
  | VBool b => b
  | VInt z => negb (Z.eqb z 0)
  | VFloat q => negb (Qis_zero q)
  | VStr s => negb (String.eqb s EmptyString)
  | VList l => match l with [] => false | _ => true end
  | VDict d => match d with [] => false | _ => true end
  end.

(** [isinstance(v, float)], [isinstance(v, int)] ([bool] is a subclass of
    [int]), [isinstance(v, bool)], [isinstance(v, str)]. *)
Definition is_float (v : value) : bool :=
  match v with VFloat _ => true | _ => false end.
Definition is_int (v : value) : bool :=
  match v with VInt _ | VBool _ => true | _ => false end.
Definition is_bool (v : value) : bool :=
  match v with VBool _ => true | _ => false end.
Definition is_str (v : value) : bool :=
  match v with VStr _ => true | _ => false end.

Definition Z_of_bool (b : bool) : Z := if b then 1%Z else 0%Z.

(** The number a numeric value denotes. *)
Definition to_Q (v : value) : option Q :=
  match v with
  | VBool b => Some (inject_Z (Z_of_bool b))
  | VInt z => Some (inject_Z z)
  | VFloat q => Some q
  | _ => None
  end.

(** [operator.index(v)] *)
Definition to_index (v : value) : result Z :=
  match v with
  | VBool b => Ok (Z_of_bool b)
  | VInt z => Ok z
  | _ => Raise TypeError
  end.

(** [a < b].  Numbers compare by value and strings lexicographically; every
    other pair of types raises [TypeError] (the ordering of two lists is
    outside the model and reported the same way). *)
Definition py_lt (a b : value) : result bool :=
  match to_Q a, to_Q b with
  | Some x, Some y => Ok (Qlt_bool x y)
  | _, _ =>
      match a, b with
      | VStr s, VStr t => Ok (String.ltb s t)
      | _, _ => Raise TypeError
      end
  end.

Definition py_gt (a b : value) : result bool := py_lt b a.

(** [a >= b] *)
Definition py_ge (a b : value) : result bool :=
  match to_Q a, to_Q b with
  | Some x, Some y => Ok (Qle_bool y x)
  | _, _ =>
      match a, b with
      | VStr s, VStr t => Ok (String.leb t s)
      | _, _ => Raise TypeError
      end
  end.

(** The builtin [min(a, b)]: [b] only when [b < a]. *)
Definition py_min2 (a b : value) : result value :=
  c <- py_lt b a ;; Ok (if c then b else a).

(** The builtin [max(a, b)]: [b] only when [b > a]. *)
Definition py_max2 (a b : value) : result value :=
  c <- py_gt b a ;; Ok (if c then b else a).

(** The builtin [min(iterable)] / [max(iterable)] *)
Fixpoint py_min_from (cur : value) (l : list value) : result value :=
  match l with
  | [] => Ok cur
  | x :: rest => c <- py_lt x cur ;; py_min_from (if c then x else cur) rest
  end.

Fixpoint py_max_from (cur : value) (l : list value) : result value :=
  match l with
  | [] => Ok cur
  | x :: rest => c <- py_gt x cur ;; py_max_from (if c then x else cur) rest
  end.

Definition py_min (l : list value) : result value :=
  match l with
  | [] => Raise ValueError
  | x :: rest => py_min_from x rest
  end.

Definition py_max (l : list value) : result value :=
  match l with
  | [] => Raise ValueError
  | x :: rest => py_max_from x rest
  end.

Fixpoint repeat_string (n : nat) (s : string) : string :=
  match n with
  | O => EmptyString
  | S n' => String.append s (repeat_string n' s)
  end.

Fixpoint repeat_list (n : nat) (l : list value) : list value :=
  match n with
  | O => []
  | S n' => l ++ repeat_list n' l
  end.

(** [a * b]: product of numbers ([int] unless a [float] takes part),
    repetition of a string or list by an integer. *)
Definition py_mul (a b : value) : result value :=
  match a, b with
  | VFloat x, _ =>
      match to_Q b with Some y => Ok (VFloat (x * y)) | None => Raise TypeError end
  | _, VFloat y =>
      match to_Q a with Some x => Ok (VFloat (x * y)) | None => Raise TypeError end
  | (VInt _ | VBool _), (VInt _ | VBool _) =>
      x <- to_index a ;; y <- to_index b ;; Ok (VInt (x * y))
  | VStr s, (VInt _ | VBool _) => n <- to_index b ;; Ok (VStr (repeat_string (Z.to_nat n) s))
  | (VInt _ | VBool _), VStr s => n <- to_index a ;; Ok (VStr (repeat_string (Z.to_nat n) s))
  | VList l, (VInt _ | VBool _) => n <- to_index b ;; Ok (VList (repeat_list (Z.to_nat n) l))
  | (VInt _ | VBool _), VList l => n <- to_index a ;; Ok (VList (repeat_list (Z.to_nat n) l))
  | _, _ => Raise TypeError
  end.

(** [l[i] = v] on a list, with Python's negative indices. *)
Fixpoint list_set (n : nat) (v : value) (l : list value) : list value :=
  match l, n with
  | [], _ => []
  | _ :: rest, O => v :: rest
  | x :: rest, S n' => x :: list_set n' v rest
  end.

(** [obj[k] = v] *)
Definition py_setitem (obj : value) (k : key) (v : value) : result value :=
  match obj with
  | VDict d => Ok (VDict (dict_set k v d))
  | VList l =>
      match k with
      | KInt i =>
          let n := Z.of_nat (List.length l) in
          if Z.leb 0 i && Z.ltb i n then Ok (VList (list_set (Z.to_nat i) v l))
          else if Z.leb (- n) i && Z.ltb i 0 then Ok (VList (list_set (Z.to_nat (i + n)) v l))
          else Raise IndexError
      | _ => Raise TypeError
      end
  | _ => Raise TypeError
  end.

(** [x in names] for a list of strings [names]: only a string can be equal
    to one of them. *)
Definition str_in (names : list string) (s : string) : bool :=
  existsb (String.eqb s) names.

Definition value_in_names (names : list string) (v : value) : bool :=
  match v with VStr s => str_in names s | _ => false end.

Definition key_in_names (names : list string) (k : key) : bool :=
  match k with KStr s => str_in names s | _ => false end.

End Py.
Import Py.

(* ===================================================================== *)
(** * utils/dict_utils.py                                                 *)
(* ===================================================================== *)

Module DictUtils.

(** [get_nested(d, *keys, default)].  The loop over [keys[:-1]] is the
    recursion on the key path; [current.get(key, default)] hands the
    default itself to the next round when the key is missing. *)
Fixpoint get_nested (current : dict) (keys : list key) (default : value) : value :=
  match keys with
  | [] => default
  | k :: rest =>
      match rest with
      | [] => if dict_mem current k then dict_get_default current k default else default
      | _ :: _ =>
          match dict_get_default current k default with
          | VDict next => get_nested next rest default
          | _ => default
          end
      end
  end.

(** [set_nested(d, value, *keys)] below the root: [temp.setdefault(key, {})]
    on the way down, [temp[keys[-1]] = value] at the end.  The dictionaries
    are updated in place in Python; here the updated object is rebuilt on the
    way back. *)
Fixpoint set_nested_in (temp : value) (v : value) (keys : list key) : result value :=
  match keys with
  | [] => Ok temp
  | k :: rest =>
      match rest with
      | [] => py_setitem temp k v
      | _ :: _ =>
          match temp with
          | VDict d =>
              child <- set_nested_in (dict_get_default d k (VDict [])) v rest ;;
              Ok (VDict (dict_set k child d))
          | _ => Raise AttributeError
          end
      end
  end.

Definition set_nested (d : dict) (v : value) (keys : list key) : result dict :=
  match keys with
  | [] => Ok d
  | _ :: _ =>
      r <- set_nested_in (VDict d) v keys ;;
      match r with
      | VDict d' => Ok d'
      | _ => Raise TypeError
      end
  end.

(** [set_exists(d, value, *keys)]: the updated root when the path was
    present, [None] (no mutation) otherwise. *)
Fixpoint set_exists (current : dict) (v : value) (keys : list key) : option dict :=
  match keys with
  | [] => None
  | k :: rest =>
      match rest with
      | [] => if dict_mem current k then Some (dict_set k v current) else None
      | _ :: _ =>
          match dict_get current k with
          | Some (VDict next) =>
              match set_exists next v rest with
              | Some next' => Some (dict_set k (VDict next') current)
              | None => None
              end
          | _ => None
          end
      end
  end.

(** [update_dict(d, u)]: recursive merge of [u] into [d]. *)
Fixpoint update_dict (u : value) (d : value) {struct u} : result value :=
  match u with
  | VNone => Ok d
  | VDict items =>
      (fix go (its : list (key * value)) (d : value) {struct its} : result value :=
         match its with
         | [] => Ok d
         | (k, v) :: rest =>
             match v with
             | VDict _ =>
                 match d with
                 | VDict dd =>
                     sub <- update_dict v (dict_get_default dd k (VDict [])) ;;
                     d' <- py_setitem d k sub ;;
                     go rest d'
                 | _ => Raise AttributeError
                 end
             | _ => d' <- py_setitem d k v ;; go rest d'
             end
         end) items d
  | _ => Raise AttributeError
  end.

(** [update_dict_key(d, u, key)] *)
Definition update_dict_key (d : dict) (u : dict) (k : key) : result dict :=
  match dict_get u k with
  | Some uk =>
      match dict_get d k with
      | Some dk => dk' <- update_dict uk dk ;; Ok (dict_set k dk' d)
      | None => Ok (dict_set k uk d)
      end
  | None => Ok d
  end.

(** [pop_nested(d, *keys, default)]: the value removed (or the default) and
    the root afterwards.  The walk over [keys[:-2]] stops at the first entry
    that is missing or no dictionary; the entry under [keys[-2]] is asked to
    [pop] whatever it is. *)
Fixpoint pop_nested (current : dict) (keys : list key) (default : value)
  : result (value * dict) :=
  match keys with
  | [] => Ok (default, current)
  | k :: rest =>
      match rest with
      | [] => Ok (default, current)
      | k2 :: rest2 =>
          match rest2 with
          | [] =>
              match dict_get current k with
              | Some (VDict parent) =>
                  Ok (dict_get_default parent k2 default,
                      dict_set k (VDict (dict_pop k2 parent)) current)
              | Some (VList _) => Raise TypeError
              | Some _ => Raise AttributeError
              | None => Ok (default, current)
              end
          | _ :: _ =>
              match dict_get current k with
              | Some (VDict next) =>
                  r <- pop_nested next rest default ;;
                  Ok (fst r, dict_set k (VDict (snd r)) current)
              | _ => Ok (default, current)
              end
          end
      end
  end.

End DictUtils.
Import DictUtils.

(* ===================================================================== *)
(** * Randomness                                                          *)
(* ===================================================================== *)

(** Computations that read the random oracle: the state is the number of
    draws made so far. *)
Module Rand.

Definition M (A : Type) : Type := nat -> result (A * nat).

Definition ret {A} (a : A) : M A := fun n => Ok (a, n).

Definition mbind {A B} (m : M A) (f : A -> M B) : M B :=
  fun n =>
    match m n with
    | Ok (a, n') => f a n'
    | Raise e => Raise e
    end.

Definition lift {A} (r : result A) : M A :=
  fun n => match r with Ok a => Ok (a, n) | Raise e => Raise e end.

Definition raise {A} (e : exn) : M A := fun _ => Raise e.

Declare Scope rand_scope.
Delimit Scope rand_scope with rand.
Notation "x <~ e ;; k" := (mbind e (fun x => k))
  (at level 61, e at next level, right associativity) : rand_scope.
Open Scope rand_scope.

(** A [for] loop threading an accumulator. *)
Fixpoint foldM {A S} (f : S -> A -> M S) (l : list A) (s : S) : M S :=
  match l with
  | [] => ret s
  | x :: rest => s' <~ f s x ;; foldM f rest s'
  end.

(** The same for loops that do not draw. *)
Fixpoint fold_result {A S} (f : S -> A -> result S) (l : list A) (s : S) : result S :=
  match l with
  | [] => Ok s
  | x :: rest => s' <- f s x ;; fold_result f rest s'
  end.

Section Library.

Variable rnd : nat -> Q.

(** [random.random()] *)
Definition random : M Q := fun n => Ok (rnd n, S n).

(** [random.uniform(a, b)]: [a + (b - a) * random()] *)
Definition uniform (a b : value) : M value :=
  match to_Q a, to_Q b with
  | Some x, Some y => r <~ random ;; ret (VFloat (x + (y - x) * r))
  | _, _ => raise TypeError
  end.

(** [random.randint(a, b)]: an integer of the closed range, [ValueError]
    when the range is empty. *)
Definition randint (a b : value) : M value :=
  x <~ lift (to_index a) ;;
  y <~ lift (to_index b) ;;
  if Z.ltb y x then raise ValueError
  else r <~ random ;; ret (VInt (x + Qfloor (r * inject_Z (y - x + 1)))).

(** [random.choice(seq)] *)
Definition choice {A} (l : list A) : M A :=
  match l with
  | [] => raise IndexError
  | _ :: _ =>
      r <~ random ;;
      match nth_error l (Z.to_nat (Qfloor (r * inject_Z (Z.of_nat (List.length l))))) with
      | Some v => ret v
      | None => raise IndexError
      end
  end.

(** [itertools.accumulate(weights)] over numbers *)
Fixpoint accumulate (acc : Q) (weights : list value) : result (list Q) :=
  match weights with
  | [] => Ok []
  | w :: rest =>
      match to_Q w with
      | Some q => tl <- accumulate (acc + q) rest ;; Ok ((acc + q) :: tl)
      | None => Raise TypeError
      end
  end.

(** [bisect(cum_weights, x, 0, hi)]: for cumulative sums of non-negative
    weights, the number of entries among the first [hi] that do not exceed
    [x]. *)
Fixpoint bisect (cum : list Q) (x : Q) (hi : nat) : nat :=
  match hi, cum with
  | S hi', c :: rest => if Qle_bool c x then S (bisect rest x hi') else O
  | _, _ => O
  end.

Fixpoint draw_choices {A} (population : list A) (cum : list Q) (total : Q) (k : nat)
  : M (list A) :=
  match k with
  | O => ret []
  | S k' =>
      r <~ random ;;
      match nth_error population (bisect cum (r * total) (List.length population - 1)) with
      | Some v => tl <~ draw_choices population cum total k' ;; ret (v :: tl)
      | None => raise IndexError
      end
  end.

(** [random.choices(population, weights=weights, k=k)]: [k] draws with
    replacement. *)
Definition choices {A} (population : list A) (weights : list value) (k : value)
  : M (list A) :=
  cum <~ lift (accumulate 0 weights) ;;
  if negb (Nat.eqb (List.length cum) (List.length population)) then raise ValueError
  else
    match rev cum with
    | [] => raise IndexError
    | total :: _ =>
        if Qle_bool total 0 then raise ValueError
        else n <~ lift (to_index k) ;; draw_choices population cum total (Z.to_nat n)
    end.

Fixpoint remove_nth {A} (n : nat) (l : list A) : list A :=
  match l, n with
  | [], _ => []
  | _ :: rest, O => rest
  | x :: rest, S n' => x :: remove_nth n' rest
  end.

Fixpoint draw_sample {A} (pool : list A) (k : nat) : M (list A) :=
  match k with
  | O => ret []
  | S k' =>
      r <~ random ;;
      let j := Z.to_nat (Qfloor (r * inject_Z (Z.of_nat (List.length pool)))) in
      match nth_error pool j with
      | Some v => tl <~ draw_sample (remove_nth j pool) k' ;; ret (v :: tl)
      | None => raise IndexError
      end
  end.

(** [random.sample(population, k)]: [k] entries at distinct positions. *)
Definition sample {A} (population : list A) (k : value) : M (list A) :=
  n <~ lift (to_index k) ;;
  if Z.ltb n 0 || Z.ltb (Z.of_nat (List.length population)) n then raise ValueError
  else draw_sample population (Z.to_nat n).

End Library.

End Rand.
Import Rand.

(* ===================================================================== *)
(** * utils/random_utils.py                                               *)
(* ===================================================================== *)

Module RandomUtils.

Section WithOracle.

Variable rnd : nat -> Q.

Definition is_number (v : value) : bool := is_int v || is_float v.

(** [random_weight_count(d, count, default)] *)
Definition random_weight_count (d : value) (count : value) : M (list key) :=
  match d with
  | VDict items =>
      if forallb is_number (dict_values items)
      then choices rnd (dict_keys items) (dict_values items) count
      else raise TypeError
  | _ => ret []
  end.

(** [random_min_max(v)] *)
Definition random_min_max (v : value) : M value :=
  match v with
  | VList l =>
      if existsb is_float l then
        lo <~ lift (py_min l) ;; hi <~ lift (py_max l) ;; uniform rnd lo hi
      else if forallb is_int l then
        lo <~ lift (py_min l) ;; hi <~ lift (py_max l) ;; randint rnd lo hi
      else raise ValueError
  | _ => ret v
  end.

(** [random_weight(i)] *)
Definition random_weight (i : value) : M value :=
  match i with
  | VStr _ => ret i
  | VList l => choice rnd l
  | VDict items =>
      l <~ choices rnd (dict_keys items) (dict_values items) (VInt 1) ;;
      match l with
      | x :: _ => ret (of_key x)
      | [] => raise IndexError
      end
  | _ => ret i
  end.

(** [weight_key in v] followed, when it holds, by [v[weight_key]] *)
Definition weight_entry (weight_key : string) (v : value) : result (option value) :=
  match v with
  | VDict c => Ok (dict_get c (KStr weight_key))
  | VList l =>
      if existsb (fun x => match x with VStr s => String.eqb s weight_key | _ => false end) l
      then Raise TypeError else Ok None
  | VStr s =>
      match String.index 0 weight_key s with
      | Some _ => Raise TypeError
      | None => Ok None
      end
  | _ => Raise TypeError
  end.

(** The comprehension [{k: v[weight_key] for k, v in d.items() if weight_key in v}] *)
Fixpoint weight_dict (weight_key : string) (items : dict) : result dict :=
  match items with
  | [] => Ok []
  | (k, v) :: rest =>
      w <- weight_entry weight_key v ;;
      tl <- weight_dict weight_key rest ;;
      Ok (match w with Some x => (k, x) :: tl | None => tl end)
  end.

(** [random_dict_weight(d, weight_key, count, default)] *)
Definition random_dict_weight (d : value) (weight_key : string) (count : value)
  : M (list key) :=
  match d with
  | VDict items =>
      wd <~ lift (weight_dict weight_key items) ;;
      match wd with
      | [] => ret []
      | _ :: _ => choices rnd (dict_keys wd) (dict_values wd) count
      end
  | _ => raise AttributeError
  end.

(** [seed_int()] *)
Definition seed_int : M value :=
  randint rnd (VInt 0) (VInt 18446744073709551615).

(** [random_items_count(items, count)] *)
Definition random_items_count (items : value) (count : value) : M (list value) :=
  let as_list :=
    match items with
    | VDict d => Some (map of_key (dict_keys d))
    | VList l => Some l
    | _ => None
    end in
  match as_list with
  | None => raise ValueError
  | Some l =>
      more <~ lift (py_gt (VInt (Z.of_nat (List.length l))) count) ;;
      if more then sample rnd l count else ret l
  end.

End WithOracle.

End RandomUtils.
Import RandomUtils.

(* ===================================================================== *)
(** * utils/type_utils.py                                                 *)
(* ===================================================================== *)

Module TypeUtils.

(** The two type filters [get_type_list] is called with:
    [(int, float)] excluding [(bool,)], and [(str, bool)]. *)
Inductive type_filter : Type :=
| NumbersNotBool
| StrOrBool.

Definition matches (t : type_filter) (v : value) : bool :=
  match t with
  | NumbersNotBool => (is_int v || is_float v) && negb (is_bool v)
  | StrOrBool => is_str v || is_bool v
  end.

(** [get_type_list(dic, type_tuple, exclude_tuple)] *)
Definition get_type_list (dic : value) (t : type_filter) : list key :=
  match dic with
  | VDict items => map fst (filter (fun kv => matches t (snd kv)) items)
  | _ => []
  end.

End TypeUtils.
Import TypeUtils.

(* ===================================================================== *)
(** * utils/file_handler.py                                               *)
(* ===================================================================== *)

Module FileHandler.

Local Open Scope string_scope.

(** A path relative to the configured root, as its components. *)
Definition rel_path : Type := list string.

Fixpoint string_rev_acc (s acc : string) : string :=
  match s with
  | EmptyString => acc
  | String c rest => string_rev_acc rest (String c acc)
  end.

(** Position of the first ["."] of a string. *)
Fixpoint find_dot (s : string) : option nat :=
  match s with
  | EmptyString => None
  | String c rest =>
      if Ascii.eqb c "."%char then Some O
      else match find_dot rest with Some n => Some (S n) | None => None end
  end.

(** [PurePath.stem] of a file name: [name[:i]] for [i = name.rfind('.')]
    when [0 < i < len(name) - 1], the whole name otherwise. *)
Definition stem_of_name (name : string) : string :=
  match find_dot (string_rev_acc name EmptyString) with
  | Some j =>
      let i := (String.length name - 1 - j)%nat in
      if Nat.ltb 0 i && Nat.ltb 0 j then String.substring 0 i name else name
  | None => name
  end.

(** [path.stem]: the stem of the last component. *)
Definition stem (p : rel_path) : string :=
  stem_of_name (List.last p EmptyString).

(** [str(path)] *)
Definition path_str (p : rel_path) : string := String.concat "/" p.

(** [dict(zip(names, paths))] *)
Fixpoint dict_of_zip (names paths : list string) (acc : dict) : dict :=
  match names, paths with
  | n :: ns, p :: ps => dict_of_zip ns ps (dict_set (KStr n) (VStr p) acc)
  | _, _ => acc
  end.

(** [get_file_dict_list(path, base_dir)], given the files [path.rglob]
    finds, each relative to [base_dir]: the name-to-path dictionary, the
    flat path list and the flat name list. *)
Definition get_file_dict_list (files : list rel_path) : dict * list string * list string :=
  let names := map stem files in
  let paths_list := map path_str files in
  (dict_of_zip names paths_list [], paths_list, names).

End FileHandler.
Import FileHandler.

(* ===================================================================== *)
(** * main.py: ComfyUIAutomation                                          *)
(* ===================================================================== *)

Module Main.

Local Open Scope string_scope.

(** The fields of [ComfyUIAutomation] that selection and resolution read
    or write.  A Python [set] of names is a duplicate-free list, iterated in
    the order of first insertion. *)
Record automation : Type := {
  config : dict;
  is_first : bool;
  type_dics : dict;
  checkpoint_type : key;
  checkpoint_name : value;
  checkpoint_path : value;
  char_name : value;
  char_path : value;
  no_char : bool;
  no_lora : bool;
  loras_set : list key;
  tive_weight : dict;
  workflow_api : dict
}.

Definition with_type_dics (st : automation) (td : dict) : automation :=
  {| config := config st; is_first := is_first st; type_dics := td;
     checkpoint_type := checkpoint_type st; checkpoint_name := checkpoint_name st;
     checkpoint_path := checkpoint_path st; char_name := char_name st;
     char_path := char_path st; no_char := no_char st; no_lora := no_lora st;
     loras_set := loras_set st; tive_weight := tive_weight st;
     workflow_api := workflow_api st |}.

Definition with_checkpoint (st : automation) (first : bool) (ty : key) (name path : value)
  : automation :=
  {| config := config st; is_first := first; type_dics := type_dics st;
     checkpoint_type := ty; checkpoint_name := name;
     checkpoint_path := path; char_name := char_name st;
     char_path := char_path st; no_char := no_char st; no_lora := no_lora st;
     loras_set := loras_set st; tive_weight := tive_weight st;
     workflow_api := workflow_api st |}.

Definition with_char (st : automation) (flag : bool) (name path : value) : automation :=
  {| config := config st; is_first := is_first st; type_dics := type_dics st;
     checkpoint_type := checkpoint_type st; checkpoint_name := checkpoint_name st;
     checkpoint_path := checkpoint_path st; char_name := name;
     char_path := path; no_char := flag; no_lora := no_lora st;
     loras_set := loras_set st; tive_weight := tive_weight st;
     workflow_api := workflow_api st |}.

Definition with_lora (st : automation) (flag : bool) (names : list key) (tw : dict)
  : automation :=
  {| config := config st; is_first := is_first st; type_dics := type_dics st;
     checkpoint_type := checkpoint_type st; checkpoint_name := checkpoint_name st;
     checkpoint_path := checkpoint_path st; char_name := char_name st;
     char_path := char_path st; no_char := no_char st; no_lora := flag;
     loras_set := names; tive_weight := tw;
     workflow_api := workflow_api st |}.

Definition with_workflow_api (st : automation) (wf : dict) : automation :=
  {| config := config st; is_first := is_first st; type_dics := type_dics st;
     checkpoint_type := checkpoint_type st; checkpoint_name := checkpoint_name st;
     checkpoint_path := checkpoint_path st; char_name := char_name st;
     char_path := char_path st; no_char := no_char st; no_lora := no_lora st;
     loras_set := loras_set st; tive_weight := tive_weight st;
     workflow_api := wf |}.

(** [self.get_config(key, default)] *)
Definition get_config (st : automation) (k : string) (default : value) : value :=
  dict_get_default (config st) (KStr k) default.

(** [self.get_now(keys..., default)]: under the category currently selected. *)
Definition get_now (st : automation) (keys : list key) (default : value) : value :=
  get_nested (type_dics st) (checkpoint_type st :: keys) default.

(** [self.set_now(value, keys...)] *)
Definition set_now (st : automation) (v : value) (keys : list key) : result automation :=
  td <- set_nested (type_dics st) v (checkpoint_type st :: keys) ;;
  Ok (with_type_dics st td).

(** Entries the code itself builds as lists or dictionaries are read back
    as such; another shape has no [items], [keys] or [append]. *)
Definition as_dict (v : value) : result dict :=
  match v with VDict d => Ok d | _ => Raise AttributeError end.

Definition as_list (v : value) : result (list value) :=
  match v with VList l => Ok l | _ => Raise AttributeError end.

(** [len(v)] *)
Definition py_len (v : value) : result Z :=
  match v with
  | VDict d => Ok (Z.of_nat (List.length d))
  | VList l => Ok (Z.of_nat (List.length l))
  | VStr s => Ok (Z.of_nat (String.length s))
  | _ => Raise TypeError
  end.

(** ** Catalog index: directory scans *)

Inductive asset_kind : Type := Checkpoint | Char | Etc.

Definition dics_key (a : asset_kind) : string :=
  match a with
  | Checkpoint => "CheckpointFileDics"
  | Char => "CharFileDics"
  | Etc => "LoraFileDics"
  end.

Definition lists_key (a : asset_kind) : string :=
  match a with
  | Checkpoint => "CheckpointFileLists"
  | Char => "CharFileLists"
  | Etc => "LoraFileLists"
  end.

Definition names_key (a : asset_kind) : string :=
  match a with
  | Checkpoint => "CheckpointFileNames"
  | Char => "CharFileNames"
  | Etc => "LoraFileNames"
  end.

Definition str_list (l : list string) : value := VList (map VStr l).

(** [_get_safetensors_checkpoint], [_get_safetensors_char] and
    [_get_safetensors_etc]: the scan result stored under the category; only
    the base-model scan refuses an empty result. *)
Definition get_safetensors (a : asset_kind) (files : list rel_path) (ct : key) (td : dict)
  : result dict :=
  let '(file_dict, file_list, file_names) := get_file_dict_list files in
  td <- set_nested td (VDict file_dict) [ct; KStr (dics_key a)] ;;
  td <- set_nested td (str_list file_list) [ct; KStr (lists_key a)] ;;
  td <- set_nested td (str_list file_names) [ct; KStr (names_key a)] ;;
  match a with
  | Checkpoint =>
      if negb (truthy (VDict file_dict)) || negb (truthy (str_list file_list))
         || negb (truthy (str_list file_names))
      then Raise FileNotFoundError else Ok td
  | _ => Ok td
  end.

(** ** Weight tables *)

(** The loop body of [_get_weight_checkpoint] for one asset name. *)
Definition weight_for (cfg : dict) (td : dict) (ct : key) (yml_key default_key : string)
  (weight_yml : dict) (k : key) : value :=
  let weight := get_nested td [ct; KStr yml_key; k; KStr "weight"] VNone in
  if truthy weight then weight
  else if dict_mem weight_yml k then dict_get_default weight_yml k VNone
  else dict_get_default cfg (KStr default_key) (VInt 150).

Fixpoint weight_table (cfg : dict) (td : dict) (ct : key) (yml_key default_key : string)
  (weight_yml : dict) (names : list value) (acc : dict) : result dict :=
  match names with
  | [] => Ok acc
  | n :: rest =>
      k <- to_key n ;;
      weight_table cfg td ct yml_key default_key weight_yml rest
        (dict_set k (weight_for cfg td ct yml_key default_key weight_yml k) acc)
  end.

(** [_get_weight_checkpoint(checkpoint_type)], given the content of the
    category's [WeightCheckpoint.yml] ([{}] when the file is missing or
    empty). *)
Definition _get_weight_checkpoint (cfg : dict) (weight_yml : dict) (ct : key) (td : dict)
  : result dict :=
  names <- as_list (get_nested td [ct; KStr "CheckpointFileNames"] (VList [])) ;;
  wc <- weight_table cfg td ct "dicCheckpointYml" "CheckpointWeightDefault" weight_yml names [] ;;
  set_nested td (VDict wc) [ct; KStr "WeightCheckpoint"].

(** [_get_weight_char(checkpoint_type)] *)
Definition _get_weight_char (cfg : dict) (weight_yml : dict) (ct : key) (td : dict)
  : result dict :=
  names <- as_list (get_nested td [ct; KStr "CharFileNames"] (VList [])) ;;
  wc <- weight_table cfg td ct "dicLoraYml" "CharWeightDefault" weight_yml names [] ;;
  set_nested td (VDict wc) [ct; KStr "WeightChar"].

(** ** Pruning of the auxiliary-overlay weight structure *)

(** What a round of a loop over [list(d.items())] does to the entry it
    visits: [d.pop(k)], [d[k] = v'], nothing ([continue]), or an exception,
    raised after the entry was left as [v']. *)
Inductive verdict : Type :=
| Drop
| Keep (v : value)
| Skip
| Stop (v : value) (e : exn).

(** A loop over the snapshot [list(d.items())] that edits [d] in place; the
    dictionary as it stands is returned also when a round raises. *)
Fixpoint sweep (f : value -> verdict) (snapshot : dict) (d : dict) : dict * option exn :=
  match snapshot with
  | [] => (d, None)
  | (k, v) :: rest =>
      match f v with
      | Drop => sweep f rest (dict_pop k d)
      | Keep v' => sweep f rest (dict_set k v' d)
      | Skip => sweep f rest d
      | Stop v' e => (dict_set k v' d, Some e)
      end
  end.

(** [loras_tmp]: the overlay names of a candidate that are still in the
    auxiliary name list. *)
Definition filter_loras (names : list string) (loras : value) : value :=
  match loras with
  | VDict d => VDict (filter (fun kv => key_in_names names (fst kv)) d)
  | VList l => VList (filter (value_in_names names) l)
  | VStr s => if str_in names s then loras else VNone
  | _ => VNone
  end.

(** The inner loop body of [_clean_weight_lora], for the candidate [v2]. *)
Definition clean_candidate (names : list string) (v2 : value) : verdict :=
  match v2 with
  | VDict c =>
      let weight := dict_get_default c (KStr "weight") VNone in
      let per := dict_get_default c (KStr "per") VNone in
      if negb (truthy weight) && negb (truthy per) then Drop
      else
        let loras_tmp := filter_loras names (dict_get_default c (KStr "loras") (VDict [])) in
        if negb (truthy loras_tmp) then Drop
        else Keep (VDict (dict_set (KStr "loras") loras_tmp c))
  | _ => Stop v2 AttributeError
  end.

(** The outer loop body, for the rule [v1].  [dic] is the object stored
    under ["dic"], so the inner loop's edits are in the rule even when it
    raises. *)
Definition clean_rule (names : list string) (v1 : value) : verdict :=
  match v1 with
  | VDict r =>
      match dict_get r (KStr "dic") with
      | None => Drop
      | Some (VDict dic) =>
          let '(dic', raised) := sweep (clean_candidate names) dic dic in
          match raised with
          | Some e => Stop (VDict (dict_set (KStr "dic") (VDict dic') r)) e
          | None =>
              if truthy (VDict dic') then Keep (VDict (dict_set (KStr "dic") (VDict dic') r))
              else Drop
          end
      | Some _ => Stop v1 AttributeError
      end
  | _ => Skip
  end.

(** The strings of the auxiliary name list. *)
Fixpoint names_of (l : list value) : list string :=
  match l with
  | [] => []
  | VStr s :: rest => s :: names_of rest
  | _ :: rest => names_of rest
  end.

Definition lora_file_names (ct : key) (td : dict) : list string :=
  match get_nested td [ct; KStr "LoraFileNames"] (VList []) with
  | VList l => names_of l
  | _ => []
  end.

(** [_clean_weight_lora(checkpoint_type)]: the store afterwards and the
    exception raised, if any.  [weight_lora] is the object held by the
    store, so its edits are in the store whether or not the pass ends. *)
Definition _clean_weight_lora (ct : key) (td : dict) : dict * option exn :=
  let names := lora_file_names ct td in
  let weight_lora := get_nested td [ct; KStr "WeightLora"] (VDict []) in
  if negb (truthy weight_lora) then (td, None)
  else
    match weight_lora with
    | VDict wl =>
        let '(wl', e) := sweep (clean_rule names) wl wl in
        match set_nested td (VDict wl') [ct; KStr "WeightLora"] with
        | Ok td' => (td', e)
        | Raise e' => (td, Some e')
        end
    | _ => (td, Some AttributeError)
    end.

(** [_get_weight_lora(checkpoint_type, delete)], given the content of
    [WeightLora.yml]. *)
Definition _get_weight_lora (weight_lora : dict) (delete : bool) (ct : key) (td : dict)
  : result dict :=
  td <- set_nested td (VDict weight_lora) [ct; KStr "WeightLora"] ;;
  if delete then
    match _clean_weight_lora ct td with
    | (td', None) => Ok td'
    | (_, Some e) => Raise e
    end
  else Ok td.

(** ** Initialisation *)

(** What [init] reads from disk for one category: the files the three
    scans find, the two setup files (each already merged with its global
    counterpart), the three weight files, the merged attribute records and
    the workflow template. *)
Record disk : Type := {
  checkpoint_files : list rel_path;
  char_files : list rel_path;
  etc_files : list rel_path;
  setup_wildcard_yml : dict;
  setup_workflow_yml : dict;
  weight_checkpoint_yml : dict;
  weight_lora_yml : dict;
  weight_char_yml : dict;
  checkpoint_yml : dict;
  lora_yml : dict;
  workflow_api_file : value
}.

(** The body of the loop of [init] for the category [ct], in the order of
    the source. *)
Definition init_type (cfg : dict) (fs : disk) (delete : bool) (ct : key) (td : dict)
  : result dict :=
  let td := dict_set ct (VDict []) td in
  td <- get_safetensors Checkpoint (checkpoint_files fs) ct td ;;
  td <- get_safetensors Char (char_files fs) ct td ;;
  td <- get_safetensors Etc (etc_files fs) ct td ;;
  td <- set_nested td (VDict (setup_wildcard_yml fs)) [ct; KStr "setupWildcard"] ;;
  td <- set_nested td (VDict (setup_workflow_yml fs)) [ct; KStr "setupWorkflow"] ;;
  td <- _get_weight_checkpoint cfg (weight_checkpoint_yml fs) ct td ;;
  td <- _get_weight_lora (weight_lora_yml fs) delete ct td ;;
  td <- _get_weight_char cfg (weight_char_yml fs) ct td ;;
  td <- set_nested td (VDict (checkpoint_yml fs)) [ct; KStr "dicCheckpointYml"] ;;
  td <- set_nested td (VDict (lora_yml fs)) [ct; KStr "dicLoraYml"] ;;
  if truthy (workflow_api_file fs)
  then set_nested td (workflow_api_file fs) [ct; KStr "workflow_api"]
  else Ok td.

(** ** Catalog index: single-asset updates *)

Inductive event_type : Type := Created | Modified | Deleted | OtherEvent.

Definition removes (e : event_type) : bool :=
  match e with Deleted | Modified => true | _ => false end.

Definition adds (e : event_type) : bool :=
  match e with Created | Modified => true | _ => false end.

Definition is_str_value (s : string) (v : value) : bool :=
  match v with VStr t => String.eqb s t | _ => false end.

(** [s in l] *)
Definition list_mem (s : string) (l : list value) : bool := existsb (is_str_value s) l.

(** [l.remove(s)]: the first occurrence goes. *)
Fixpoint list_remove (s : string) (l : list value) : list value :=
  match l with
  | [] => []
  | x :: rest => if is_str_value s x then rest else x :: list_remove s rest
  end.

(** [if s in l: l.remove(s)] *)
Definition remove_if_in (s : string) (l : list value) : list value :=
  if list_mem s l then list_remove s l else l.

(** [if s not in l: l.append(s)] *)
Definition append_if_absent (s : string) (l : list value) : list value :=
  if list_mem s l then l else List.app l [VStr s].

(** [update_safetensors(path, checkpoint_type, event_type, ...)], for the
    path [rpath] relative to the configured root.  The body does not use
    its parameter [checkpoint_type]: the views are read and written through
    [get_now]/[set_now], that is under the category currently selected.
    The dictionary receives the [Path] object where the scan stores its
    string; the model does not tell the two apart. *)
Definition update_safetensors (rpath : rel_path) (ev : event_type) (a : asset_kind)
  (st : automation) : result automation :=
  let name := stem rpath in
  let spath := path_str rpath in
  file_dics <- as_dict (get_now st [KStr (dics_key a)] (VDict [])) ;;
  file_lists <- as_list (get_now st [KStr (lists_key a)] (VList [])) ;;
  file_names <- as_list (get_now st [KStr (names_key a)] (VList [])) ;;
  let file_dics := if removes ev then dict_pop (KStr name) file_dics else file_dics in
  let file_lists := if removes ev then remove_if_in spath file_lists else file_lists in
  let file_names := if removes ev then remove_if_in name file_names else file_names in
  let file_dics := if adds ev then dict_set (KStr name) (VStr spath) file_dics else file_dics in
  let file_lists := if adds ev then append_if_absent spath file_lists else file_lists in
  let file_names := if adds ev then append_if_absent name file_names else file_names in
  st <- set_now st (VDict file_dics) [KStr (dics_key a)] ;;
  st <- set_now st (VList file_lists) [KStr (lists_key a)] ;;
  set_now st (VList file_names) [KStr (names_key a)].

(** ** Selection engine *)

(** [Path(s).parts] for a string: the non-empty components between
    slashes, without ["."], and the root first for an absolute path. *)
Fixpoint split_slash (s : string) (cur : string) : list string :=
  match s with
  | EmptyString => [string_rev_acc cur EmptyString]
  | String c rest =>
      if Ascii.eqb c "/"%char
      then string_rev_acc cur EmptyString :: split_slash rest EmptyString
      else split_slash rest (String c cur)
  end.

Definition path_parts (s : string) : list string :=
  let comps :=
    filter (fun c => negb (String.eqb c EmptyString) && negb (String.eqb c "."))
           (split_slash s EmptyString) in
  match s with
  | String c _ => if Ascii.eqb c "/"%char then "/" :: comps else comps
  | EmptyString => comps
  end.

(** [x in container] for the containers a configuration can hold. *)
Definition py_in (s : string) (container : value) : result bool :=
  match container with
  | VDict d => Ok (dict_mem d (KStr s))
  | VList l => Ok (list_mem s l)
  | VStr t => Ok (match String.index 0 s t with Some _ => true | None => false end)
  | _ => Raise TypeError
  end.

(** [l[0]] *)
Definition first {A} (l : list A) : result A :=
  match l with
  | x :: _ => Ok x
  | [] => Raise IndexError
  end.

(** The start-asset branch of [checkpoint_change]: the state it returns
    with, or [None] when the method goes on to the random choice. *)
Definition bootstrap (st : automation) (checkpoint_types : value)
  : result (option automation) :=
  if is_first st then
    let safetensors_start := get_config st "safetensorsStart" VNone in
    if truthy safetensors_start then
      match safetensors_start with
      | VStr s =>
          let parts := path_parts s in
          let name := stem parts in
          p0 <- first parts ;;
          let ck := get_nested (type_dics st) [KStr p0; KStr "CheckpointFileDics"; KStr name] VNone in
          if Nat.eqb (List.length parts) 2 then
            known <- py_in p0 checkpoint_types ;;
            if known && truthy ck then
              let st' := with_checkpoint st false (KStr p0) (VStr name) VNone in
              Ok (Some (with_checkpoint st' false (KStr p0) (VStr name)
                          (get_now st' [KStr "CheckpointFileDics"; KStr name] VNone)))
            else Ok None
          else Ok None
      | _ => Raise TypeError
      end
    else Ok None
  else Ok None.

Section Selection.

Variable rnd : nat -> Q.

(** The two-branch policy shared by base-model and character selection:
    by weight when the coin says so, otherwise among the names without a
    weight, or among all names when every name has one. *)
Definition sub_names (names : list value) (weights : value) : result (list value) :=
  fold_result
    (fun acc x =>
       w <- as_dict weights ;;
       k <- to_key x ;;
       Ok (if dict_mem w k then acc else List.app acc [x]))
    names [].

(** [random.choice(names)] on a stored name list *)
Definition choice_of (names : value) : M value :=
  l <~ lift (as_list names) ;; choice rnd l.

(** [checkpoint_change()] *)
Definition checkpoint_change (st : automation) : M automation :=
  let checkpoint_types := get_config st "CheckpointTypes" (VDict []) in
  boot <~ lift (bootstrap st checkpoint_types) ;;
  match boot with
  | Some st' => ret st'
  | None =>
      tys <~ random_weight_count rnd checkpoint_types (VInt 1) ;;
      ty <~ lift (first tys) ;;
      let st := with_checkpoint st false ty (checkpoint_name st) (checkpoint_path st) in
      let checkpoint_weight_per := get_config st "CheckpointWeightPer" (VFloat (1 # 2)) in
      r <~ random rnd ;;
      by_weight <~ lift (py_gt checkpoint_weight_per (VFloat r)) ;;
      let weight_checkpoint := get_now st [KStr "WeightCheckpoint"] (VDict []) in
      let checkpoint_file_names := get_now st [KStr "CheckpointFileNames"] (VList []) in
      if negb (truthy checkpoint_file_names) then raise ValueError
      else
        name <~
          (if by_weight then
             n <~ lift (py_len weight_checkpoint) ;;
             if Z.ltb 0 n then
               l <~ random_weight_count rnd weight_checkpoint (VInt 1) ;;
               k <~ lift (first l) ;; ret (of_key k)
             else choice_of checkpoint_file_names
           else
             names <~ lift (as_list checkpoint_file_names) ;;
             sub_checkpoint <~ lift (sub_names names weight_checkpoint) ;;
             match sub_checkpoint with
             | _ :: _ => choice rnd sub_checkpoint
             | [] => choice_of checkpoint_file_names
             end) ;;
        nk <~ lift (to_key name) ;;
        let path := get_now st [KStr "CheckpointFileDics"; nk] VNone in
        if negb (truthy path) then raise ValueError
        else ret (with_checkpoint st false ty name path)
  end.

(** [random.choice(names) if names else None] *)
Definition choice_or_none (names : value) : M value :=
  if truthy names then choice_of names else ret VNone.

(** [char_change()] *)
Definition char_change (st : automation) : M automation :=
  let no_char_per := get_config st "noCharPer" (VFloat (1 # 2)) in
  r <~ random rnd ;;
  flag <~ lift (py_gt no_char_per (VFloat r)) ;;
  let char_file_names := get_now st [KStr "CharFileNames"] (VList []) in
  let weight_char := get_now st [KStr "WeightChar"] (VDict []) in
  if flag then
    let char_file_lists := get_now st [KStr "CharFileLists"] (VList []) in
    if truthy char_file_lists then
      l <~ lift (as_list char_file_lists) ;;
      p <~ lift (first l) ;;
      ret (with_char st true (VStr "noChar") p)
    else ret (with_char st true (VStr "noChar") VNone)
  else
    let char_weight_per := get_config st "CharWeightPer" (VFloat (1 # 2)) in
    r <~ random rnd ;;
    by_weight <~ lift (py_gt char_weight_per (VFloat r)) ;;
    name <~
      (if by_weight then
         n <~ lift (py_len weight_char) ;;
         if Z.ltb 0 n then
           l <~ random_weight_count rnd weight_char (VInt 1) ;;
           k <~ lift (first l) ;; ret (of_key k)
         else choice_or_none char_file_names
       else
         names <~ lift (as_list char_file_names) ;;
         sub_char <~ lift (sub_names names weight_char) ;;
         match sub_char with
         | _ :: _ => choice rnd sub_char
         | [] => choice_or_none char_file_names
         end) ;;
    nk <~ lift (to_key name) ;;
    ret (with_char st false name (get_now st [KStr "CharFileDics"; nk] VNone)).

(** *** Auxiliary overlays *)

Definition key_mem (k : key) (l : list key) : bool := existsb (key_eqb k) l.

(** [set(l)] and [a.union(b)] on duplicate-free lists. *)
Definition set_add (acc : list key) (k : key) : list key :=
  if key_mem k acc then acc else List.app acc [k].

Definition set_of (l : list key) : list key := fold_left set_add l [].

Definition set_union (a b : list key) : list key := fold_left set_add b a.

(** The loop of the "per" strategy, with its [break]. *)
Fixpoint per_loop (per_firsts per_max : value) (items : dict) (per_cnt : Z)
  (tive_weight_tmp : dict) : M dict :=
  match items with
  | [] => ret tive_weight_tmp
  | (k2, v2) :: rest =>
      full <~ lift (if truthy per_firsts then py_ge (VInt per_cnt) per_max else Ok false) ;;
      if full then ret tive_weight_tmp
      else
        c <~ lift (as_dict v2) ;;
        let per_val := dict_get_default c (KStr "per") (VInt 0) in
        r <~ random rnd ;;
        hit <~ lift (py_gt per_val (VFloat r)) ;;
        if hit then
          lora <~ random_weight rnd (dict_get_default c (KStr "loras") VNone) ;;
          lk <~ lift (to_key lora) ;;
          per_loop per_firsts per_max rest (per_cnt + 1) (dict_set lk v2 tive_weight_tmp)
        else per_loop per_firsts per_max rest per_cnt tive_weight_tmp
  end.

(** The loop body of the "weight" strategy for the drawn candidate [k2]. *)
Definition weight_pick (dic : value) (tive_weight_tmp : dict) (k2 : key) : M dict :=
  d <~ lift (as_dict dic) ;;
  c <~ lift (as_dict (dict_get_default d k2 VNone)) ;;
  lora <~ random_weight rnd (dict_get_default c (KStr "loras") VNone) ;;
  lk <~ lift (to_key lora) ;;
  ret (dict_set lk (VDict c) tive_weight_tmp).

(** [update_dict_key] for both polarities, for the chosen name [k2]. *)
Definition merge_tags (tive_weight_tmp : dict) (tive_weight : dict) (k2 : key) : result dict :=
  match dict_get tive_weight_tmp k2 with
  | Some v2 =>
      u <- as_dict v2 ;;
      tw <- update_dict_key tive_weight u (KStr "positive") ;;
      update_dict_key tw u (KStr "negative")
  | None => Raise KeyError
  end.

Fixpoint keys_of_values (l : list value) : result (list key) :=
  match l with
  | [] => Ok []
  | x :: rest => k <- to_key x ;; tl <- keys_of_values rest ;; Ok (k :: tl)
  end.

(** The body of the loop of [lora_change] over the rules, on the pair
    ([self.tive_weight], [self.loras_set]). *)
Definition lora_rule (acc : dict * list key) (rule : key * value) : M (dict * list key) :=
  let '(tive_weight, loras) := acc in
  let v1 := snd rule in
  _ <~ lift (py_len v1) ;;
  r1 <~ lift (as_dict v1) ;;
  let dic := dict_get_default r1 (KStr "dic") (VDict []) in
  tmp <~
    (if truthy (dict_get_default r1 (KStr "per") (VBool false)) then
       per_max <~ random_min_max rnd (dict_get_default r1 (KStr "perMax") (VInt 0)) ;;
       items <~ lift (as_dict dic) ;;
       per_loop (dict_get_default r1 (KStr "perFirsts") (VBool false)) per_max items 0 []
     else ret []) ;;
  tmp <~
    (if truthy (dict_get_default r1 (KStr "weight") (VBool false)) then
       weight_max <~ random_min_max rnd (dict_get_default r1 (KStr "weightMax") (VInt 0)) ;;
       drawn <~ random_dict_weight rnd dic "weight" weight_max ;;
       foldM (weight_pick dic) (set_of drawn) tmp
     else ret tmp) ;;
  loras_set_tmp <~
    (if truthy (dict_get_default r1 (KStr "total") (VBool false)) then
       total_max <~ random_min_max rnd (dict_get_default r1 (KStr "totalMax") (VInt 0)) ;;
       l <~ random_items_count rnd (VDict tmp) total_max ;;
       ks <~ lift (keys_of_values l) ;;
       ret (set_of ks)
     else ret (set_of (dict_keys tmp))) ;;
  tive_weight <~ lift (fold_result (merge_tags tmp) loras_set_tmp tive_weight) ;;
  ret (tive_weight, set_union loras loras_set_tmp).

(** [lora_change()] *)
Definition lora_change (st : automation) : M automation :=
  let no_lora_per := get_config st "noLoraPer" (VFloat (1 # 2)) in
  r <~ random rnd ;;
  flag <~ lift (py_gt no_lora_per (VFloat r)) ;;
  if flag then ret (with_lora st true [] [])
  else
    rules <~ lift (as_dict (get_now st [KStr "WeightLora"] (VDict []))) ;;
    res <~ foldM lora_rule rules ([], []) ;;
    ret (with_lora st false (snd res) (fst res)).

(** One round of selection: base model, character, auxiliary overlays. *)
Definition select (st : automation) : M automation :=
  st <~ checkpoint_change st ;;
  st <~ char_change st ;;
  lora_change st.

(** ** Parameter resolver *)

(** [get_workflow(node, key)] *)
Definition get_workflow (st : automation) (node k : key) : value :=
  get_nested (workflow_api st) [node; KStr "inputs"; k] VNone.

(** [set_workflow(node, key, value)] *)
Definition set_workflow (st : automation) (node k : key) (v : value) : automation :=
  match set_exists (workflow_api st) v [node; KStr "inputs"; k] with
  | Some wf => with_workflow_api st wf
  | None => st
  end.

(** One of the three post-processors: the setting stored under [table] for
    the node and parameter, range-resolved and applied with [op] when it is
    truthy. *)
Definition post_process (setup_workflow : dict) (table : string) (node k : key)
  (op : value -> value -> result value) (v : value) : M value :=
  let s := get_nested setup_workflow [KStr table; node; k] VNone in
  if truthy s then s' <~ random_min_max rnd s ;; lift (op v s') else ret v.

(** The body of the loop of [set_workflow_func_random2] for the parameter
    [k]. *)
Definition resolve_param (node : key) (random_func : option (value -> M value))
  (func : option (value -> key -> value)) (st : automation) (k : key) : M automation :=
  setup_workflow <~ lift (as_dict (get_now st [KStr "setupWorkflow"] (VDict []))) ;;
  let v := get_workflow st node k in
  let v := get_nested setup_workflow [KStr "workflow"; node; k] v in
  let v := match func with Some f => f v k | None => v end in
  v <~ match random_func with Some rf => rf v | None => ret v end ;;
  v <~ post_process setup_workflow "workflow_scale" node k py_mul v ;;
  v <~ post_process setup_workflow "workflow_min" node k py_max2 v ;;
  v <~ post_process setup_workflow "workflow_max" node k py_min2 v ;;
  ret (set_workflow st node k v).

(** [set_workflow_func_random2(node, key_list, random_func, func)] *)
Definition set_workflow_func_random2 (node : key) (key_list : list key)
  (random_func : option (value -> M value)) (func : option (value -> key -> value))
  (st : automation) : M automation :=
  foldM (resolve_param node random_func func) key_list st.

(** [self.workflow_api.get(k, {}).get("inputs", {})] *)
Definition node_inputs (st : automation) (k : key) : result value :=
  v <- as_dict (dict_get_default (workflow_api st) k (VDict [])) ;;
  Ok (dict_get_default v (KStr "inputs") (VDict [])).

(** The part of [set_setup_workflow_to_workflow_api] for one node [k]: a
    fresh seed, then the numeric parameters, then the string and boolean
    ones.  [inputs] is the node's live mapping, so each key list is taken
    from the values it holds at that point. *)
Definition resolve_node (st : automation) (k : key) : M automation :=
  seed <~ seed_int rnd ;;
  let st := set_workflow st k (KStr "seed") seed in
  inputs <~ lift (node_inputs st k) ;;
  st <~ set_workflow_func_random2 k (get_type_list inputs NumbersNotBool)
          (Some (random_min_max rnd)) None st ;;
  inputs <~ lift (node_inputs st k) ;;
  set_workflow_func_random2 k (get_type_list inputs StrOrBool)
          (Some (random_weight rnd)) None st.

End Selection.

(** ** Writers of the workflow *)

Section Writers.

Variable rnd : nat -> Q.

(** What the loops of [set_workflow_func_random] and
    [set_workflow_func_random3] do with the value [func] returned for the
    parameter [k]: it goes through [random_func], and a falsy result is
    passed over ([continue]). *)
Definition write_resolved (node : key) (random_func : option (value -> M value))
  (st : automation) (k : key) (v : value) : M automation :=
  v <~ match random_func with Some rf => rf v | None => ret v end ;;
  if negb (truthy v) then ret st else ret (set_workflow st node k v).

(** [set_workflow_func_random(node, key_list, func, random_func)]; [func]
    is a method, it reads the object as it is when called. *)
Definition set_workflow_func_random (node : key) (key_list : list key)
  (func : option (automation -> key -> result value))
  (random_func : option (value -> M value)) (st : automation) : M automation :=
  foldM (fun st k =>
           v <~ lift (match func with Some f => f st k | None => Ok VNone end) ;;
           write_resolved node random_func st k v)
        key_list st.

(** [set_workflow_func_random3(node, key_list, func, random_func)]: the
    same, [func] taking the node as well. *)
Definition set_workflow_func_random3 (node : key) (key_list : list key)
  (func : option (automation -> key -> key -> result value))
  (random_func : option (value -> M value)) (st : automation) : M automation :=
  foldM (fun st k =>
           v <~ lift (match func with Some f => f st node k | None => Ok VNone end) ;;
           write_resolved node random_func st k v)
        key_list st.

(** [set_char_sub(k)] *)
Definition set_char_sub (st : automation) (k : key) : result value :=
  ck <- to_key (char_name st) ;;
  Ok (get_now st [KStr "dicLoraYml"; ck; k]
        (get_now st [KStr "setupWorkflow"; KStr "charDefault"; k] VNone)).

(** [set_char()]: the state afterwards and the value left in
    [self.tive_char]. *)
Definition set_char (st : automation) : M (automation * value) :=
  let st := set_workflow st (KStr "LoraLoader") (KStr "lora_name") (char_path st) in
  seed <~ seed_int rnd ;;
  let st := set_workflow st (KStr "LoraLoader") (KStr "seed") seed in
  if no_char st then
    let st := set_workflow st (KStr "LoraLoader") (KStr "strength_model") (VFloat 0) in
    let st := set_workflow st (KStr "LoraLoader") (KStr "strength_clip") (VFloat 0) in
    ret (st, get_config st "noCharWildcard" (VDict []))
  else
    st <~ set_workflow_func_random (KStr "LoraLoader")
            [KStr "strength_model"; KStr "strength_clip"; KStr "A"; KStr "B"]
            (Some set_char_sub) (Some (random_min_max rnd)) st ;;
    st <~ set_workflow_func_random (KStr "LoraLoader")
            [KStr "preset"; KStr "block_vector"]
            (Some set_char_sub) (Some (random_weight rnd)) st ;;
    ck <~ lift (to_key (char_name st)) ;;
    ret (st, get_now st [KStr "dicLoraYml"; ck] (VDict [])).

(** ** Tag composition *)

(** [set_tive(num_name, dic, reset)] on the pair of [self.positive_dics]
    and [self.negative_dics]. *)
Definition set_tive (num_name : key) (dic : value) (reset : bool) (tives : dict * dict)
  : result (dict * dict) :=
  let pos := if reset then dict_pop num_name (fst tives) else fst tives in
  let neg := if reset then dict_pop num_name (snd tives) else snd tives in
  if truthy dic then
    c <- as_dict dic ;;
    s <- update_dict (dict_get_default c (KStr "positive") VNone)
           (dict_get_default pos num_name (VDict [])) ;;
    let pos := dict_set num_name s pos in
    s <- update_dict (dict_get_default c (KStr "negative") VNone)
           (dict_get_default neg num_name (VDict [])) ;;
    Ok (pos, dict_set num_name s neg)
  else Ok (pos, neg).

(** The five calls of [set_tive] at the head of [set_wildcard], on empty
    tables; the tag sources of the base model, the character and the
    overlays are the fields [tive_checkpoint], [tive_char] and
    [tive_lora]. *)
Definition collect_tives (st : automation) (tive_checkpoint tive_char tive_lora : value)
  : result (dict * dict) :=
  t <- set_tive (KStr "setup") (get_now st [KStr "setupWildcard"] (VDict [])) true ([], []) ;;
  t <- set_tive (KStr "Checkpoint") tive_checkpoint true t ;;
  t <- set_tive (KStr "Char") tive_char true t ;;
  t <- set_tive (KStr "Weight") (VDict (tive_weight st)) true t ;;
  set_tive (KStr "Lora") tive_lora true t.

(** Iteration over a configured value. *)
Fixpoint chars (s : string) : list value :=
  match s with
  | EmptyString => []
  | String c rest => VStr (String c EmptyString) :: chars rest
  end.

Definition py_iter (v : value) : result (list value) :=
  match v with
  | VList l => Ok l
  | VDict d => Ok (map of_key (dict_keys d))
  | VStr s => Ok (chars s)
  | _ => Raise TypeError
  end.

(** The loop of [set_wildcard] over the configured order: each stage is
    merged into the running [positive] and [negative]. *)
Definition merge_tives (order : list value) (tives : dict * dict) : result (value * value) :=
  fold_result
    (fun acc k =>
       kk <- to_key k ;;
       p <- update_dict (dict_get_default (fst tives) kk (VDict [])) (fst acc) ;;
       n <- update_dict (dict_get_default (snd tives) kk (VDict [])) (snd acc) ;;
       Ok (p, n))
    order (VDict [], VDict []).

(** [list(d.values())] with the marker inserted in front and appended. *)
Definition marked_values (d : value) : result (list value) :=
  c <- as_dict d ;; Ok (VStr "/**/" :: List.app (dict_values c) [VStr "/**/"]).

(** [",".join(l)] *)
Fixpoint join_comma (l : list value) : result string :=
  match l with
  | [] => Ok EmptyString
  | x :: rest =>
      match x with
      | VStr s =>
          match rest with
          | [] => Ok s
          | _ :: _ => tl <- join_comma rest ;; Ok (String.append s (String.append "," tl))
          end
      | _ => Raise TypeError
      end
  end.

(** [x[i], x[j] = x[j], x[i]] *)
Definition swap (i j : nat) (l : list value) : list value :=
  match nth_error l i, nth_error l j with
  | Some a, Some b => list_set j a (list_set i b l)
  | _, _ => l
  end.

(** [random.shuffle(x)]: for [i] from the last index down to 1, the entry
    at [i] changes places with the one at a drawn index of [0..i]. *)
Fixpoint shuffle_from (i : nat) (l : list value) : M (list value) :=
  match i with
  | O => ret l
  | S i' =>
      r <~ random rnd ;;
      let j := Z.to_nat (Qfloor (r * inject_Z (Z.of_nat (S i)))) in
      shuffle_from i' (swap i j l)
  end.

Definition shuffle (l : list value) : M (list value) :=
  shuffle_from (List.length l - 1) l.

(** The part of [set_wildcard] that composes the two wildcard texts, given
    the tag sources: the merged [positive] and [negative] and the texts
    written to the workflow. *)
Definition compose_wildcards (st : automation) (tive_checkpoint tive_char tive_lora : value)
  : M ((value * value) * (string * string)) :=
  tives <~ lift (collect_tives st tive_checkpoint tive_char tive_lora) ;;
  order <~ lift (py_iter (get_config st "SetWildcardSort"
                            (VList [VStr "setup"; VStr "Checkpoint"; VStr "Char";
                                    VStr "Weight"; VStr "Lora"]))) ;;
  merged <~ lift (merge_tives order tives) ;;
  lpositive <~ lift (marked_values (fst merged)) ;;
  lnegative <~ lift (marked_values (snd merged)) ;;
  coin <~ random_weight rnd (get_config st "shuffleWildcard" (VList [VBool false; VBool true])) ;;
  lists <~
    (if truthy coin then
       lp <~ shuffle lpositive ;; ln <~ shuffle lnegative ;; ret (lp, ln)
     else ret (lpositive, lnegative)) ;;
  positive_wildcard <~ lift (join_comma (fst lists)) ;;
  negative_wildcard <~ lift (join_comma (snd lists)) ;;
  ret (merged, (positive_wildcard, negative_wildcard)).

End Writers.

End Main.
Import Main.

(* ===================================================================== *)
(** * Notions used in the statements                                      *)
(* ===================================================================== *)

Module Notions.

Local Open Scope string_scope.
Local Open Scope list_scope.

(** *** The nested accessors *)

(** The reading of the accessor the specification gives: the value found by
    walking the path through nested mappings of the root, the default in
    every other case. *)
Fixpoint resolve_path (current : dict) (keys : list key) : option value :=
  match keys with
  | [] => None
  | k :: rest =>
      match rest with
      | [] => dict_get current k
      | _ :: _ =>
          match dict_get current k with
          | Some (VDict next) => resolve_path next rest
          | _ => None
          end
      end
  end.

Definition get_nested_spec (d : dict) (keys : list key) (default : value) : value :=
  match resolve_path d keys with
  | Some v => v
  | None => default
  end.

(** Every value already stored at an inner segment of the path is a
    mapping (a missing segment is fine: it will be created). *)
Fixpoint path_clear (d : dict) (keys : list key) : bool :=
  match keys with
  | [] => true
  | k :: rest =>
      match rest with
      | [] => true
      | _ :: _ =>
          match dict_get d k with
          | None => true
          | Some (VDict next) => path_clear next rest
          | Some _ => false
          end
      end
  end.

(** *** Dictionaries and the pruning pass *)

(** The representation invariant of a Python dictionary: no key twice. *)
Fixpoint unique_keys (d : dict) : bool :=
  match d with
  | [] => true
  | (k, _) :: rest => negb (key_mem k (dict_keys rest)) && unique_keys rest
  end.

(** What a [sweep] started on its own snapshot leaves of it, and the
    exception it ends with. *)
Fixpoint swept (f : value -> verdict) (l : dict) : dict :=
  match l with
  | [] => []
  | (k, v) :: rest =>
      match f v with
      | Drop => swept f rest
      | Keep v' => (k, v') :: swept f rest
      | Skip => (k, v) :: swept f rest
      | Stop v' _ => (k, v') :: rest
      end
  end.

Fixpoint sweep_exn (f : value -> verdict) (l : dict) : option exn :=
  match l with
  | [] => None
  | (_, v) :: rest =>
      match f v with
      | Stop _ e => Some e
      | _ => sweep_exn f rest
      end
  end.

(** A second visit of an entry that was kept, skipped or left at an
    exception decides the same and leaves it as it is. *)
Definition stable (f : value -> verdict) (v : value) : Prop :=
  match f v with
  | Drop => True
  | Keep v' => f v' = Keep v'
  | Skip => True
  | Stop v' e => f v' = Stop v' e
  end.

(** The rule table and the candidate table of each rule are dictionaries. *)
Definition rule_wf (v1 : value) : bool :=
  match v1 with
  | VDict r =>
      match dict_get r (KStr "dic") with
      | Some (VDict dic) => unique_keys dic
      | _ => true
      end
  | _ => true
  end.

Definition weight_lora_wf (wl : dict) : bool :=
  unique_keys wl && forallb (fun kv => rule_wf (snd kv)) wl.

Definition store_wf (ct : key) (td : dict) : bool :=
  match get_nested td [ct; KStr "WeightLora"] (VDict []) with
  | VDict wl => weight_lora_wf wl
  | _ => true
  end.

(** *** Numbers and the oracle *)

(** The number a value denotes ([0] for a value that is no number). *)
Definition qv (v : value) : Q :=
  match to_Q v with Some q => q | None => 0 end.

(** Every draw of the oracle lies in the unit interval, as
    [random.random()] promises. *)
Definition unit_oracle (rnd : nat -> Q) : Prop :=
  forall n, 0 <= rnd n /\ rnd n < 1.

(** [lo] and [hi] are a least and a greatest element of the list. *)
Definition extremes (l : list value) (lo hi : value) : Prop :=
  In lo l /\ In hi l /\ forall x, In x l -> qv lo <= qv x /\ qv x <= qv hi.

(** A setting the range picker resolves to a number: a number, or a
    non-empty collection of numbers. *)
Definition numeric_setting (s : value) : bool :=
  match s with
  | VList l => match l with [] => false | _ => forallb is_number l end
  | _ => is_number s
  end.

(** A numeric setting none of whose bounds is below [b]. *)
Definition setting_at_least (b : Q) (s : value) : bool :=
  numeric_setting s &&
  match s with
  | VList l => forallb (fun x => Qle_bool b (qv x)) l
  | _ => Qle_bool b (qv s)
  end.

(** The setting is not configured (or is falsy, which the resolver treats
    alike), or has the property [p]. *)
Definition unset_or (p : value -> bool) (s : value) : bool :=
  negb (truthy s) || p s.

(** The arithmetic of the post-processors: [max(v, m)] and [min(v, m)]. *)
Definition floor_at (m v : Q) : Q := if Qlt_bool v m then m else v.
Definition cap_at (m v : Q) : Q := if Qlt_bool m v then m else v.

(** *** Catalog views *)

(** The mapping held for the category currently selected ([{}] when the
    store has none yet). *)
Definition category (st : automation) : dict :=
  match dict_get (type_dics st) (checkpoint_type st) with
  | Some (VDict c) => c
  | _ => []
  end.

(** The three views of an asset kind, as [update_safetensors] reads them. *)
Definition view_dics (a : asset_kind) (st : automation) : value :=
  get_now st [KStr (dics_key a)] (VDict []).
Definition view_lists (a : asset_kind) (st : automation) : value :=
  get_now st [KStr (lists_key a)] (VList []).
Definition view_names (a : asset_kind) (st : automation) : value :=
  get_now st [KStr (names_key a)] (VList []).

(** The store holds a mapping (or nothing) for the current category, and
    in it a dictionary and two lists (or nothing) for the asset kind. *)
Definition views_typed (a : asset_kind) (st : automation) : bool :=
  match dict_get (type_dics st) (checkpoint_type st) with
  | None => true
  | Some (VDict c) =>
      match dict_get c (KStr (dics_key a)) with
      | None | Some (VDict _) => true
      | _ => false
      end &&
      match dict_get c (KStr (lists_key a)) with
      | None | Some (VList _) => true
      | _ => false
      end &&
      match dict_get c (KStr (names_key a)) with
      | None | Some (VList _) => true
      | _ => false
      end
  | Some _ => false
  end.



(** The store has a mapping, or nothing, for the current category. *)
Definition category_ok (st : automation) : Prop :=
  dict_get (type_dics st) (checkpoint_type st) = None \/
  exists c, dict_get (type_dics st) (checkpoint_type st) = Some (VDict c).

(** The dictionary and the two lists [update_safetensors] starts from. *)
Definition dics_of (a : asset_kind) (c : dict) : dict :=
  match dict_get c (KStr (dics_key a)) with Some (VDict d) => d | _ => [] end.
Definition lists_of (a : asset_kind) (c : dict) : list value :=
  match dict_get c (KStr (lists_key a)) with Some (VList l) => l | _ => [] end.
Definition names_of_view (a : asset_kind) (c : dict) : list value :=
  match dict_get c (KStr (names_key a)) with Some (VList l) => l | _ => [] end.

Definition views_typed_in (a : asset_kind) (c : dict) : Prop :=
  (dict_get c (KStr (dics_key a)) = None \/ exists d, dict_get c (KStr (dics_key a)) = Some (VDict d)) /\
  (dict_get c (KStr (lists_key a)) = None \/ exists l, dict_get c (KStr (lists_key a)) = Some (VList l)) /\
  (dict_get c (KStr (names_key a)) = None \/ exists l, dict_get c (KStr (names_key a)) = Some (VList l)).


(** What an event does to the name-to-path map and to a flat list. *)
Definition updated_dics (ev : event_type) (name spath : string) (D : dict) : dict :=
  let D := if removes ev then dict_pop (KStr name) D else D in
  if adds ev then dict_set (KStr name) (VStr spath) D else D.

Definition updated_list (ev : event_type) (s : string) (l : list value) : list value :=
  let l := if removes ev then remove_if_in s l else l in
  if adds ev then append_if_absent s l else l.

(** The category mapping after an event. *)
Definition event_category (a : asset_kind) (ev : event_type) (name spath : string) (c : dict)
  : dict :=
  dict_set (KStr (names_key a)) (VList (updated_list ev name (names_of_view a c)))
    (dict_set (KStr (lists_key a)) (VList (updated_list ev spath (lists_of a c)))
       (dict_set (KStr (dics_key a)) (VDict (updated_dics ev name spath (dics_of a c))) c)).

(** The name index is consistent: no name twice in the flat name list, and
    the names of the list are the keys of the name-to-path map. *)
Definition index_consistent (D : dict) (N : list value) : Prop :=
  NoDup (dict_keys D) /\ NoDup N /\
  (forall x, In x N -> exists s, x = VStr s) /\
  (forall k, In k (dict_keys D) -> exists s, k = KStr s) /\
  (forall s, In (VStr s) N <-> In (KStr s) (dict_keys D)).

(** *** Scenarios *)

(** One category [X] with the single base model [m1] of weight 1, no
    character assets, no auxiliary assets and no overlay rules. *)
Definition single_model_disk : disk :=
  {| checkpoint_files := [["X"; "m1.safetensors"]];
     char_files := [];
     etc_files := [];
     setup_wildcard_yml := [];
     setup_workflow_yml := [];
     weight_checkpoint_yml := [(KStr "m1", VInt 1)];
     weight_lora_yml := [];
     weight_char_yml := [];
     checkpoint_yml := [];
     lora_yml := [];
     workflow_api_file := VNone |}.

(** The store [init] builds for it. *)
Definition single_model_store : dict :=
  Eval vm_compute in
    match init_type [] single_model_disk true (KStr "X") [] with
    | Ok td => td
    | Raise _ => []
    end.

(** The configuration names the category [X] alone, with a positive
    weight, names no start asset, and its four probabilities (defaults
    included) are numbers. *)
Definition single_model_config (cfg : dict) : Prop :=
  (exists w, dict_get cfg (KStr "CheckpointTypes") = Some (VDict [(KStr "X", w)]) /\
             is_number w = true /\ 0 < qv w) /\
  dict_get cfg (KStr "safetensorsStart") = None /\
  is_number (dict_get_default cfg (KStr "CheckpointWeightPer") (VFloat (1 # 2))) = true /\
  is_number (dict_get_default cfg (KStr "noCharPer") (VFloat (1 # 2))) = true /\
  is_number (dict_get_default cfg (KStr "CharWeightPer") (VFloat (1 # 2))) = true /\
  is_number (dict_get_default cfg (KStr "noLoraPer") (VFloat (1 # 2))) = true.

(** A state of the automation in that scenario, whatever was selected
    before. *)
Definition single_model_state (st : automation) : Prop :=
  single_model_config (config st) /\ type_dics st = single_model_store.

(** The state with the default configuration, before any selection. *)
Definition single_model_start : automation :=
  {| config := [(KStr "CheckpointTypes", VDict [(KStr "X", VInt 1)])];
     is_first := true; type_dics := single_model_store; checkpoint_type := KNone;
     checkpoint_name := VNone; checkpoint_path := VNone; char_name := VNone;
     char_path := VNone; no_char := false; no_lora := false; loras_set := [];
     tive_weight := []; workflow_api := [] |}.

(** The same state in a later round. *)
Definition single_model_later : automation :=
  {| config := [(KStr "CheckpointTypes", VDict [(KStr "X", VInt 1)])];
     is_first := false; type_dics := single_model_store; checkpoint_type := KNone;
     checkpoint_name := VNone; checkpoint_path := VNone; char_name := VNone;
     char_path := VNone; no_char := false; no_lora := false; loras_set := [];
     tive_weight := []; workflow_api := [] |}.

(** The first round with the start asset [X/m1.safetensors] configured. *)
Definition start_asset_state : automation :=
  {| config := [(KStr "CheckpointTypes", VDict [(KStr "X", VInt 1)]);
                (KStr "safetensorsStart", VStr "X/m1.safetensors")];
     is_first := true; type_dics := single_model_store; checkpoint_type := KNone;
     checkpoint_name := VNone; checkpoint_path := VNone; char_name := VNone;
     char_path := VNone; no_char := false; no_lora := false; loras_set := [];
     tive_weight := []; workflow_api := [] |}.

(** The category [X] with the base model [m1], whose attribute record
    sets the weight 5; the weight file of the category is empty. *)
Definition record_weight_disk : disk :=
  {| checkpoint_files := [["X"; "m1.safetensors"]];
     char_files := [];
     etc_files := [];
     setup_wildcard_yml := [];
     setup_workflow_yml := [];
     weight_checkpoint_yml := [];
     weight_lora_yml := [];
     weight_char_yml := [];
     checkpoint_yml := [(KStr "m1", VDict [(KStr "weight", VInt 5)])];
     lora_yml := [];
     workflow_api_file := VNone |}.

(** A store with the two categories [X] and [Y], both without assets. *)
Definition two_category_store : dict :=
  [(KStr "X", VDict []); (KStr "Y", VDict [])].

(** Two character overlays with the same file name, one of them in a
    sub-directory, as the recursive scan finds them. *)
Definition same_stem_files : list rel_path :=
  [["X"; "char"; "foo.safetensors"]; ["X"; "char"; "sub"; "foo.safetensors"]].

(** A later round over that store, the category [X] being configured. *)
Definition no_asset_state : automation :=
  {| config := [(KStr "CheckpointTypes", VDict [(KStr "X", VInt 1)])];
     is_first := false; type_dics := two_category_store; checkpoint_type := KNone;
     checkpoint_name := VNone; checkpoint_path := VNone; char_name := VNone;
     char_path := VNone; no_char := false; no_lora := false; loras_set := [];
     tive_weight := []; workflow_api := [] |}.

(** An overlay rule with [weight: true] and [weightMax: [2, 2]] over three
    candidates of the same weight [w], the candidate [k_i] naming the
    overlay [l_i]. *)
Definition candidate (w : value) (l : string) : value :=
  VDict [(KStr "weight", w); (KStr "loras", VStr l)].

Definition weight_rule (k1 k2 k3 : key) (l1 l2 l3 : string) (w : value) : value :=
  VDict [(KStr "weight", VBool true);
         (KStr "weightMax", VList [VInt 2; VInt 2]);
         (KStr "dic", VDict [(k1, candidate w l1); (k2, candidate w l2);
                             (k3, candidate w l3)])].

(** The position (0, 1 or 2) of the candidate that the draw [r] selects
    among three candidates of weight [qw]. *)
Definition drawn_third (qw r : Q) : nat :=
  bisect [0 + qw; 0 + qw + qw; 0 + qw + qw + qw] (r * (0 + qw + qw + qw)) 2.

(** An oracle whose two weighted draws fall on different candidates. *)
Definition two_names_oracle (n : nat) : Q := if Nat.eqb n 2 then 0 else 3 # 4.

(** The state with the default configuration and one such rule. *)
Definition weight_rule_state : automation :=
  {| config := []; is_first := false;
     type_dics :=
       [(KStr "X",
          VDict [(KStr "WeightLora",
                   VDict [(KStr "style",
                            weight_rule (KStr "a") (KStr "b") (KStr "c") "l1" "l2" "l3"
                              (VInt 1))])])];
     checkpoint_type := KStr "X";
     checkpoint_name := VNone; checkpoint_path := VNone; char_name := VNone;
     char_path := VNone; no_char := false; no_lora := false; loras_set := [];
     tive_weight := []; workflow_api := [] |}.

(** *** Sample data *)

(** A template node whose parameter [strength] is the range [[0.0, 1.0]],
    in a category whose setup configures the minimum [0.5] for it. *)
Definition strength_state : automation :=
  {| config := []; is_first := false;
     type_dics :=
       [(KStr "X",
          VDict [(KStr "setupWorkflow",
                   VDict [(KStr "workflow_min",
                            VDict [(KStr "Node",
                                     VDict [(KStr "strength", VFloat (1 # 2))])])])])];
     checkpoint_type := KStr "X";
     checkpoint_name := VNone; checkpoint_path := VNone; char_name := VNone;
     char_path := VNone; no_char := false; no_lora := false; loras_set := [];
     tive_weight := [];
     workflow_api :=
       [(KStr "Node",
          VDict [(KStr "inputs",
                   VDict [(KStr "strength", VList [VFloat 0; VFloat 1])])])] |}.

(** The setup of that category. *)
Definition strength_setup : dict :=
  [(KStr "workflow_min", VDict [(KStr "Node", VDict [(KStr "strength", VFloat (1 # 2))])])].
(** A store with an auxiliary name list and a rule table whose candidates
    are partly stale: one is kept with a name filtered out, two are dropped,
    and a rule without candidates is dropped. *)
Definition sample_store : dict :=
  [(KStr "X",
     VDict [(KStr "LoraFileNames", VList [VStr "l1"; VStr "l2"]);
            (KStr "WeightLora",
              VDict [(KStr "style",
                       VDict [(KStr "weight", VBool true);
                              (KStr "dic",
                                VDict [(KStr "a", VDict [(KStr "weight", VInt 1);
                                                         (KStr "loras", VList [VStr "l1"; VStr "gone"])]);
                                       (KStr "b", VDict [(KStr "loras", VStr "l2")]);
                                       (KStr "c", VDict [(KStr "per", VFloat (1 # 2));
                                                         (KStr "loras", VStr "gone")])])]);
                     (KStr "empty", VDict [(KStr "dic", VDict [])])])])].

(** A state with the character [c1] selected, whose record sets the
    strength [0] for the model and [0.8] for the text encoder, and a
    template whose loader node has both parameters at [1.0]. *)
Definition char_strength_state : automation :=
  {| config := []; is_first := false;
     type_dics :=
       [(KStr "X",
          VDict [(KStr "dicLoraYml",
                   VDict [(KStr "c1",
                            VDict [(KStr "strength_model", VInt 0);
                                   (KStr "strength_clip", VFloat (4 # 5))])])])];
     checkpoint_type := KStr "X";
     checkpoint_name := VNone; checkpoint_path := VNone; char_name := VStr "c1";
     char_path := VStr "X/char/c1.safetensors"; no_char := false; no_lora := false;
     loras_set := []; tive_weight := [];
     workflow_api :=
       [(KStr "LoraLoader",
          VDict [(KStr "inputs",
                   VDict [(KStr "lora_name", VStr "none");
                          (KStr "strength_model", VFloat 1);
                          (KStr "strength_clip", VFloat 1)])])] |}.

(** A state around a store, with the category [ct] selected. *)
Definition sample_state (td : dict) (ct : key) : automation :=
  {| config := []; is_first := false; type_dics := td; checkpoint_type := ct;
     checkpoint_name := VNone; checkpoint_path := VNone; char_name := VNone;
     char_path := VNone; no_char := false; no_lora := false; loras_set := [];
     tive_weight := []; workflow_api := [] |}.

(** A store whose category [X] holds three characters with their paths and
    a weight table for two of them, and the state that selects it. *)
Definition char_catalog : dict :=
  [(KStr "X",
     VDict [(KStr "CharFileNames", VList [VStr "c1"; VStr "c2"; VStr "c3"]);
            (KStr "CharFileLists",
              VList [VStr "X/char/c1.safetensors"; VStr "X/char/c2.safetensors";
                     VStr "X/char/c3.safetensors"]);
            (KStr "CharFileDics",
              VDict [(KStr "c1", VStr "X/char/c1.safetensors");
                     (KStr "c2", VStr "X/char/c2.safetensors");
                     (KStr "c3", VStr "X/char/c3.safetensors")]);
            (KStr "WeightChar", VDict [(KStr "c1", VInt 150); (KStr "c2", VInt 50)])])].

Definition char_catalog_state : automation := sample_state char_catalog (KStr "X").

(** A generator whose first draw is [3/4] and whose later draws are [1/4]. *)
Definition high_then_low (n : nat) : Q :=
  match n with
  | O => 3 # 4
  | S _ => 1 # 4
  end.

(** *** Paths and merges *)

(** Every dictionary met on the walk along the path has no key twice. *)
Fixpoint unique_along (d : dict) (keys : list key) : bool :=
  unique_keys d &&
  match keys with
  | [] => true
  | k :: rest =>
      match rest with
      | [] => true
      | _ :: _ =>
          match dict_get d k with
          | Some (VDict next) => unique_along next rest
          | _ => true
          end
      end
  end.

Definition is_dict (v : value) : bool :=
  match v with VDict _ => true | _ => false end.

(** *** What the pruning pass keeps *)

(** The overlay names of a candidate are there and all in the name list. *)
Definition loras_within (names : list string) (loras : value) : bool :=
  truthy loras &&
  match loras with
  | VDict d => forallb (fun kv => key_in_names names (fst kv)) d
  | VList l => forallb (value_in_names names) l
  | VStr s => str_in names s
  | _ => false
  end.

(** A candidate with a truthy [weight] or [per] whose overlay names are
    within the name list. *)
Definition candidate_live (names : list string) (v2 : value) : bool :=
  match v2 with
  | VDict c =>
      (truthy (dict_get_default c (KStr "weight") VNone) ||
       truthy (dict_get_default c (KStr "per") VNone)) &&
      loras_within names (dict_get_default c (KStr "loras") (VDict []))
  | _ => false
  end.

(** A rule whose candidate table is not empty and holds live candidates
    only (an entry of the rule table that is no dictionary is not a rule
    and is passed over). *)
Definition rule_live (names : list string) (v1 : value) : bool :=
  match v1 with
  | VDict r =>
      match dict_get r (KStr "dic") with
      | Some (VDict dic) =>
          truthy (VDict dic) && forallb (fun kv => candidate_live names (snd kv)) dic
      | _ => false
      end
  | _ => true
  end.

(** *** Tag sources *)

(** A mapping without sub-mappings. *)
Definition flat (d : dict) : bool := forallb (fun kv => negb (is_dict (snd kv))) d.

(** The payload a stage name stands for in a table of stages ([{}] for a
    name the table does not have). *)
Definition payload (table : dict) (name : value) : dict :=
  match to_key name with
  | Ok kk => match dict_get_default table kk (VDict []) with VDict s => s | _ => [] end
  | Raise _ => []
  end.

(** The stage name can be looked up and its payload is a flat mapping. *)
Definition stage_ok (table : dict) (name : value) : bool :=
  match to_key name with
  | Ok kk =>
      match dict_get_default table kk (VDict []) with
      | VDict s => unique_keys s && flat s
      | _ => false
      end
  | Raise _ => false
  end.

(** The value the last of the stages that defines [k] gives it. *)
Fixpoint last_defined (stages : list dict) (k : key) (cur : option value) : option value :=
  match stages with
  | [] => cur
  | s :: rest =>
      last_defined rest k (match dict_get s k with Some v => Some v | None => cur end)
  end.

(** *** Parameters of the workflow *)

(** The workflow has the parameter: the path to it is all there. *)
Definition has_param (st : automation) (node k : key) : bool :=
  match resolve_path (workflow_api st) [node; KStr "inputs"; k] with
  | Some _ => true
  | None => false
  end.

(** What a method returned, [None] when it raised. *)
Definition returned (r : result value) : value :=
  match r with Ok v => v | Raise _ => VNone end.

(** *** Candidates of the "per" strategy *)

(** Overlay names [random_weight] picks a name from: a string, or a
    non-empty list of strings. *)
Definition loras_pickable (loras : value) : bool :=
  match loras with
  | VStr _ => true
  | VList l => match l with [] => false | _ => forallb is_str l end
  | _ => false
  end.

(** A candidate whose [per] (0 when it has none) is a number and whose
    overlay names can be picked from. *)
Definition per_candidate_ok (v2 : value) : bool :=
  match v2 with
  | VDict c =>
      is_number (dict_get_default c (KStr "per") (VInt 0)) &&
      loras_pickable (dict_get_default c (KStr "loras") VNone)
  | _ => false
  end.

(** *** Weights *)

(** Weights [random.choices] draws from: numbers, none of them negative,
    one of them at least positive. *)
Definition weights_ok (ws : list value) : bool :=
  forallb (fun w => is_number w && Qle_bool 0 (qv w)) ws &&
  existsb (fun w => Qlt_bool 0 (qv w)) ws.

(** *** Categories to select from *)

(** The category [ty] can be selected from: its name list holds the names
    [names], at least one, each with a truthy path in the name-to-path map;
    its weight table [wc] is empty or a table of non-negative weights, one
    of them positive, and the keys of positive weight are names of the
    list. *)
Definition selectable (td : dict) (ty : key) (names : list string) (wc : dict) : Prop :=
  get_nested td [ty; KStr "CheckpointFileNames"] (VList []) = str_list names /\
  names <> [] /\
  (forall s, In s names ->
     truthy (get_nested td [ty; KStr "CheckpointFileDics"; KStr s] VNone) = true) /\
  get_nested td [ty; KStr "WeightCheckpoint"] (VDict []) = VDict wc /\
  (wc = [] \/ weights_ok (dict_values wc) = true) /\
  (forall k w, In (k, w) wc -> 0 < qv w -> exists s, k = KStr s /\ In s names).

End Notions.
Import Notions.

(* ===================================================================== *)
(** * Properties                                                          *)
(* ===================================================================== *)

Unset Implicit Arguments.
Local Open Scope string_scope.
Local Open Scope list_scope.

(** ** Dictionaries *)

Section DictFacts.

Lemma key_eqb_eq (a b : key) : key_eqb a b = true <-> a = b.
Proof.
  destruct a, b; simpl; split; intro H; try discriminate; try reflexivity.
  - apply String.eqb_eq in H. now subst.
  - inversion H. apply String.eqb_refl.
  - apply Z.eqb_eq in H. now subst.
  - inversion H. apply Z.eqb_refl.
Qed.

Lemma key_eqb_refl (a : key) : key_eqb a a = true.
Proof. now apply key_eqb_eq. Qed.

Lemma key_eqb_neq (a b : key) : key_eqb a b = false <-> a <> b.
Proof.
  split.
  - intros H E. apply key_eqb_eq in E. congruence.
  - intro H. destruct (key_eqb a b) eqn:E; [|reflexivity].
    apply key_eqb_eq in E. contradiction.
Qed.

Lemma key_eq_dec (a b : key) : {a = b} + {a <> b}.
Proof.
  destruct (key_eqb a b) eqn:E.
  - left. now apply key_eqb_eq.
  - right. now apply key_eqb_neq.
Qed.

Lemma key_eqb_sym (a b : key) : key_eqb a b = key_eqb b a.
Proof.
  destruct (key_eqb a b) eqn:E.
  - apply key_eqb_eq in E. subst. symmetry. apply key_eqb_refl.
  - symmetry. apply key_eqb_neq. apply key_eqb_neq in E. congruence.
Qed.

Lemma dict_get_set_same (k : key) (v : value) (d : dict) :
  dict_get (dict_set k v d) k = Some v.
Proof.
  induction d as [|[k' v'] d IH]; simpl.
  - now rewrite key_eqb_refl.
  - destruct (key_eqb k k') eqn:E; simpl; rewrite E; [reflexivity | exact IH].
Qed.

Lemma dict_get_set_other (k k' : key) (v : value) (d : dict) :
  key_eqb k' k = false -> dict_get (dict_set k v d) k' = dict_get d k'.
Proof.
  intro N. induction d as [|[k0 v0] d IH]; simpl.
  - now rewrite N.
  - destruct (key_eqb k k0) eqn:E; simpl.
    + apply key_eqb_eq in E. subst k0. now rewrite N.
    + now rewrite IH.
Qed.

Lemma dict_set_idem (k : key) (v : value) (d : dict) :
  dict_set k v (dict_set k v d) = dict_set k v d.
Proof.
  induction d as [|[k' v'] d IH]; simpl.
  - now rewrite key_eqb_refl.
  - destruct (key_eqb k k') eqn:E; simpl; rewrite E; [reflexivity | now rewrite IH].
Qed.

Lemma dict_set_set (k : key) (v w : value) (d : dict) :
  dict_set k w (dict_set k v d) = dict_set k w d.
Proof.
  induction d as [|[k' v'] d IH]; simpl.
  - now rewrite key_eqb_refl.
  - destruct (key_eqb k k') eqn:E; simpl; rewrite E; [reflexivity | now rewrite IH].
Qed.

Lemma dict_mem_set_same (k : key) (v : value) (d : dict) :
  dict_mem (dict_set k v d) k = true.
Proof. unfold dict_mem. now rewrite dict_get_set_same. Qed.

Lemma dict_get_default_set_same (k : key) (v dflt : value) (d : dict) :
  dict_get_default (dict_set k v d) k dflt = v.
Proof. unfold dict_get_default. now rewrite dict_get_set_same. Qed.

Lemma dict_get_default_set_other (k k' : key) (v dflt : value) (d : dict) :
  key_eqb k' k = false ->
  dict_get_default (dict_set k v d) k' dflt = dict_get_default d k' dflt.
Proof. intro N. unfold dict_get_default. now rewrite dict_get_set_other. Qed.


End DictFacts.

(** ** The nested accessors *)

Section NestedStore.

(** When the default is not a mapping, [get_nested] is the accessor of the
    specification: the value at the end of the path, or the default. *)
Lemma get_nested_refines_spec (keys : list key) :
  forall (d : dict) (default : value),
    (forall c, default <> VDict c) ->
    get_nested d keys default = get_nested_spec d keys default.
Proof.
  unfold get_nested_spec.
  induction keys as [|k rest IH]; intros d default ND; [reflexivity|].
  destruct rest as [|k2 rest].
  - simpl. unfold dict_mem, dict_get_default. now destruct (dict_get d k).
  - change (get_nested d (k :: k2 :: rest) default)
      with (match dict_get_default d k default with
            | VDict next => get_nested next (k2 :: rest) default
            | _ => default
            end).
    change (resolve_path d (k :: k2 :: rest))
      with (match dict_get d k with
            | Some (VDict next) => resolve_path next (k2 :: rest)
            | _ => None
            end).
    unfold dict_get_default. destruct (dict_get d k) as [v|].
    + destruct v; try reflexivity. now apply IH.
    + destruct default; try reflexivity. now elim (ND d0).
Qed.

(** C8.  On the root [{}], the path [a, b] and the default [{b: 1}],
    [get_nested] returns [1]: the lookup of the missing key [a] yields the
    default, which is a mapping, and the walk goes on inside it.  The
    result is neither a value of the root nor the supplied default, which
    is what the accessor of the specification returns there. *)
Theorem get_nested_walks_into_default :
  get_nested [] [KStr "a"; KStr "b"] (VDict [(KStr "b", VInt 1)]) = VInt 1 /\
  get_nested_spec [] [KStr "a"; KStr "b"] (VDict [(KStr "b", VInt 1)])
    = VDict [(KStr "b", VInt 1)].
Proof. split; reflexivity. Qed.

Lemma path_clear_nil (keys : list key) : path_clear [] keys = true.
Proof. destruct keys as [|k [|k2 rest]]; reflexivity. Qed.

Lemma set_nested_in_clear (keys : list key) :
  forall (d : dict) (v dflt : value),
    keys <> [] ->
    path_clear d keys = true ->
    exists d',
      set_nested_in (VDict d) v keys = Ok (VDict d') /\
      get_nested d' keys dflt = v /\
      (forall k', key_eqb k' (hd KNone keys) = false -> dict_get d' k' = dict_get d k').
Proof.
  induction keys as [|k rest IH]; intros d v dflt NE PC; [congruence|].
  destruct rest as [|k2 rest].
  - exists (dict_set k v d). simpl. repeat split.
    + now rewrite dict_mem_set_same, dict_get_default_set_same.
    + intros k' N. now apply dict_get_set_other.
  - assert (exists c, dict_get_default d k (VDict []) = VDict c /\
                      path_clear c (k2 :: rest) = true) as [c [Hc PCc]].
    { unfold dict_get_default.
      change (path_clear d (k :: k2 :: rest))
        with (match dict_get d k with
              | None => true
              | Some (VDict next) => path_clear next (k2 :: rest)
              | Some _ => false
              end) in PC.
      destruct (dict_get d k) as [x|].
      - destruct x; try discriminate. now exists d0.
      - exists []. split; [reflexivity | apply path_clear_nil]. }
    destruct (IH c v dflt ltac:(discriminate) PCc) as [c' [Hset [Hget _]]].
    exists (dict_set k (VDict c') d).
    change (set_nested_in (VDict d) v (k :: k2 :: rest))
      with (child <- set_nested_in (dict_get_default d k (VDict [])) v (k2 :: rest) ;;
            Ok (VDict (dict_set k child d))).
    rewrite Hc, Hset. simpl bind. repeat split.
    + change (get_nested (dict_set k (VDict c') d) (k :: k2 :: rest) dflt)
        with (match dict_get_default (dict_set k (VDict c') d) k dflt with
              | VDict next => get_nested next (k2 :: rest) dflt
              | _ => dflt
              end).
      now rewrite dict_get_default_set_same.
    + intros k' N. now apply dict_get_set_other.
Qed.

(** C10, claim as stated, fails: on the root [{a: 5}] the path [a, b]
    meets the integer [5] where a mapping is needed, and the assignment
    into it raises. *)
Lemma set_nested_raises_on_scalar :
  set_nested [(KStr "a", VInt 5)] (VInt 1) [KStr "a"; KStr "b"] = Raise TypeError.
Proof. reflexivity. Qed.

(** C10, amended.  For a root, a value and a non-empty path such that every
    value already stored at an inner segment of the path is a mapping,
    [set_nested] returns the updated root; missing inner mappings have been
    created, the path then resolves to the stored value whatever the
    default, and the other top-level keys are untouched. *)
Theorem set_nested_creates_path (d : dict) (v dflt : value) (keys : list key) :
  keys <> [] ->
  path_clear d keys = true ->
  exists d',
    set_nested d v keys = Ok d' /\
    get_nested d' keys dflt = v /\
    (forall k', key_eqb k' (hd KNone keys) = false -> dict_get d' k' = dict_get d k').
Proof.
  intros NE PC.
  destruct (set_nested_in_clear keys d v dflt NE PC) as [d' [Hset [Hget Hframe]]].
  exists d'. split; [|split; assumption].
  unfold set_nested. destruct keys; [congruence|]. now rewrite Hset.
Qed.

Lemma set_nested_creates_path_witness :
  exists d',
    set_nested [(KStr "x", VInt 0)] (VStr "v") [KStr "a"; KStr "b"] = Ok d' /\
    get_nested d' [KStr "a"; KStr "b"] VNone = VStr "v" /\
    (forall k', key_eqb k' (hd KNone [KStr "a"; KStr "b"]) = false ->
                dict_get d' k' = dict_get [(KStr "x", VInt 0)] k').
Proof.
  apply (set_nested_creates_path [(KStr "x", VInt 0)] (VStr "v") VNone
           [KStr "a"; KStr "b"]).
  - discriminate.
  - reflexivity.
Defined.

End NestedStore.

(** ** Loops that edit the dictionary they iterate over *)

Section Sweep.

Lemma key_mem_In (k : key) (l : list key) : key_mem k l = true <-> In k l.
Proof.
  unfold key_mem. rewrite existsb_exists. split.
  - intros [x [Hin E]]. apply key_eqb_eq in E. now subst.
  - intro Hin. exists k. split; [assumption | apply key_eqb_refl].
Qed.

Lemma unique_keys_NoDup (d : dict) : unique_keys d = true <-> NoDup (dict_keys d).
Proof.
  induction d as [|[k v] d IH]; simpl.
  - split; [constructor | reflexivity].
  - rewrite andb_true_iff, negb_true_iff, IH. split.
    + intros [Hk Hd]. constructor; [|assumption].
      intro Hin. apply key_mem_In in Hin. congruence.
    + intro H. inversion H as [|? ? Hk Hd]; subst. split; [|assumption].
      destruct (key_mem k (dict_keys d)) eqn:E; [|reflexivity].
      apply key_mem_In in E. contradiction.
Qed.

Lemma dict_keys_app (a b : dict) : dict_keys (a ++ b) = (dict_keys a ++ dict_keys b)%list.
Proof. unfold dict_keys. apply map_app. Qed.

Lemma dict_pop_middle (k : key) (v : value) (done rest : dict) :
  ~ In k (dict_keys done) ->
  dict_pop k (done ++ (k, v) :: rest)%list = (done ++ rest)%list.
Proof.
  induction done as [|[k0 v0] done IH]; simpl; intro N.
  - now rewrite key_eqb_refl.
  - destruct (key_eqb k k0) eqn:E.
    + apply key_eqb_eq in E. subst. exfalso. apply N. now left.
    + rewrite IH; [reflexivity|]. intro H. apply N. now right.
Qed.

Lemma dict_set_middle (k : key) (v v' : value) (done rest : dict) :
  ~ In k (dict_keys done) ->
  dict_set k v' (done ++ (k, v) :: rest)%list = (done ++ (k, v') :: rest)%list.
Proof.
  induction done as [|[k0 v0] done IH]; simpl; intro N.
  - now rewrite key_eqb_refl.
  - destruct (key_eqb k k0) eqn:E.
    + apply key_eqb_eq in E. subst. exfalso. apply N. now left.
    + rewrite IH; [reflexivity|]. intro H. apply N. now right.
Qed.

(** On a dictionary without repeated keys, the loop acts entry by entry. *)
Lemma sweep_from (f : value -> verdict) (rest : dict) :
  forall done : dict,
    NoDup (dict_keys (done ++ rest)%list) ->
    sweep f rest (done ++ rest)%list = ((done ++ swept f rest)%list, sweep_exn f rest).
Proof.
  induction rest as [|[k v] rest IH]; intros done ND; simpl.
  - reflexivity.
  - assert (Hk : ~ In k (dict_keys done)).
    { rewrite dict_keys_app in ND. simpl in ND.
      apply NoDup_remove_2 in ND. intro H. apply ND. apply in_or_app. now left. }
    assert (ND' : NoDup (dict_keys (done ++ rest)%list)).
    { rewrite dict_keys_app in *. simpl in ND. now apply NoDup_remove_1 in ND. }
    assert (NDk : forall x, NoDup (dict_keys ((done ++ [(k, x)]) ++ rest)%list)).
    { intro x. rewrite <- app_assoc. simpl. rewrite dict_keys_app in *. exact ND. }
    destruct (f v) as [|v'| |v' e].
    + rewrite dict_pop_middle by assumption. now apply IH.
    + rewrite dict_set_middle by assumption.
      replace (done ++ (k, v') :: rest)%list with ((done ++ [(k, v')]) ++ rest)%list
        by (now rewrite <- app_assoc).
      rewrite IH by apply NDk. now rewrite <- app_assoc.
    + replace (done ++ (k, v) :: rest)%list with ((done ++ [(k, v)]) ++ rest)%list
        by (now rewrite <- app_assoc).
      rewrite IH by apply NDk. now rewrite <- app_assoc.
    + now rewrite dict_set_middle by assumption.
Qed.

Lemma sweep_self (f : value -> verdict) (d : dict) :
  NoDup (dict_keys d) -> sweep f d d = (swept f d, sweep_exn f d).
Proof. intro ND. exact (sweep_from f d [] ND). Qed.

Lemma swept_keys_incl (f : value -> verdict) (l : dict) (k : key) :
  In k (dict_keys (swept f l)) -> In k (dict_keys l).
Proof.
  induction l as [|[k0 v0] l IH]; simpl; [tauto|].
  destruct (f v0); simpl; intuition.
Qed.

Lemma swept_NoDup (f : value -> verdict) (l : dict) :
  NoDup (dict_keys l) -> NoDup (dict_keys (swept f l)).
Proof.
  induction l as [|[k0 v0] l IH]; simpl; intro ND; [constructor|].
  inversion ND as [|? ? Hk Hl]; subst.
  destruct (f v0); simpl.
  - now apply IH.
  - constructor; [|now apply IH]. intro H. apply Hk. eapply swept_keys_incl; eauto.
  - constructor; [|now apply IH]. intro H. apply Hk. eapply swept_keys_incl; eauto.
  - now constructor.
Qed.

(** A second pass over what a pass left changes nothing and ends the same
    way, when every verdict is stable. *)
Lemma swept_idempotent (f : value -> verdict) (l : dict) :
  (forall kv, In kv l -> stable f (snd kv)) ->
  swept f (swept f l) = swept f l /\ sweep_exn f (swept f l) = sweep_exn f l.
Proof.
  induction l as [|[k v] l IH]; intro St; [split; reflexivity|].
  assert (Sv : stable f v) by (apply (St (k, v)); now left).
  assert (Sl : forall kv, In kv l -> stable f (snd kv)) by (intros kv H; apply St; now right).
  destruct (IH Sl) as [IH1 IH2].
  unfold stable in Sv. simpl.
  destruct (f v) as [|v'| |v' e] eqn:E; simpl.
  - now split.
  - rewrite Sv. now rewrite IH1, IH2.
  - rewrite E. now rewrite IH1, IH2.
  - rewrite Sv. now split.
Qed.

Lemma sweep_exn_some_nonempty (f : value -> verdict) (l : dict) (e : exn) :
  sweep_exn f l = Some e -> swept f l <> [].
Proof.
  induction l as [|[k v] l IH]; simpl; [discriminate|].
  destruct (f v); simpl; intro H; try discriminate; auto.
Qed.

End Sweep.

(** ** Pruning of the overlay rules *)

Section Pruning.

Variable names : list string.

Lemma filter_twice {A} (p : A -> bool) (l : list A) : filter p (filter p l) = filter p l.
Proof.
  induction l as [|x l IH]; simpl; [reflexivity|].
  destruct (p x) eqn:E; simpl; [rewrite E; now f_equal | exact IH].
Qed.

Lemma filter_loras_fixed (loras : value) :
  truthy (filter_loras names loras) = true ->
  filter_loras names (filter_loras names loras) = filter_loras names loras.
Proof.
  destruct loras; simpl; try discriminate.
  - destruct (str_in names s) eqn:E; simpl; [now rewrite E | discriminate].
  - intros _. now rewrite filter_twice.
  - intros _. now rewrite filter_twice.
Qed.

Lemma clean_candidate_stable (v : value) : stable (clean_candidate names) v.
Proof.
  unfold stable.
  destruct v as [| | | | |l|c]; simpl; try reflexivity.
  destruct (negb (truthy (dict_get_default c (KStr "weight") VNone)) &&
            negb (truthy (dict_get_default c (KStr "per") VNone))) eqn:W; [exact I|].
  set (lt := filter_loras names (dict_get_default c (KStr "loras") (VDict []))).
  destruct (negb (truthy lt)) eqn:T; [exact I|].
  simpl.
  rewrite !dict_get_default_set_other by reflexivity.
  rewrite W, dict_get_default_set_same.
  apply negb_false_iff in T.
  unfold lt. rewrite filter_loras_fixed by exact T.
  fold lt. rewrite T. simpl. now rewrite dict_set_idem.
Qed.

Lemma clean_candidates_twice (dic : dict) :
  NoDup (dict_keys dic) ->
  let dic' := swept (clean_candidate names) dic in
  sweep (clean_candidate names) dic dic = (dic', sweep_exn (clean_candidate names) dic) /\
  sweep (clean_candidate names) dic' dic' = (dic', sweep_exn (clean_candidate names) dic).
Proof.
  intros ND dic'. split; [now apply sweep_self|].
  rewrite sweep_self by (now apply swept_NoDup).
  destruct (swept_idempotent (clean_candidate names) dic) as [H1 H2].
  { intros kv _. apply clean_candidate_stable. }
  subst dic'. now rewrite H1, H2.
Qed.

Lemma clean_rule_stable (v1 : value) :
  rule_wf v1 = true -> stable (clean_rule names) v1.
Proof.
  unfold stable, rule_wf.
  destruct v1 as [| | | | |l|r]; simpl; try (intros; exact I).
  destruct (dict_get r (KStr "dic")) as [x|] eqn:G; [|intros; exact I].
  destruct x as [| | | | |l|dic]; try (intros _; simpl; now rewrite G).
  intro U. apply unique_keys_NoDup in U.
  destruct (clean_candidates_twice dic U) as [H1 H2].
  rewrite H1.
  destruct (sweep_exn (clean_candidate names) dic) as [e|] eqn:E.
  - simpl. rewrite dict_get_set_same, H2. now rewrite dict_set_idem.
  - destruct (swept (clean_candidate names) dic) as [|kv dic'] eqn:S; [exact I|].
    simpl. rewrite dict_get_set_same, H2. simpl. now rewrite dict_set_idem.
Qed.

Lemma clean_rules_twice (wl : dict) :
  weight_lora_wf wl = true ->
  let wl' := swept (clean_rule names) wl in
  sweep (clean_rule names) wl wl = (wl', sweep_exn (clean_rule names) wl) /\
  sweep (clean_rule names) wl' wl' = (wl', sweep_exn (clean_rule names) wl).
Proof.
  intros WF wl'. unfold weight_lora_wf in WF.
  rewrite andb_true_iff, forallb_forall in WF. destruct WF as [U R].
  apply unique_keys_NoDup in U.
  split; [now apply sweep_self|].
  rewrite sweep_self by (now apply swept_NoDup).
  destruct (swept_idempotent (clean_rule names) wl) as [H1 H2].
  { intros kv Hin. apply clean_rule_stable. now apply R. }
  subst wl'. now rewrite H1, H2.
Qed.

End Pruning.

Section PruningStore.

Lemma get_nested_two (td : dict) (a b : key) (dflt : value) :
  get_nested td [a; b] dflt =
  match dict_get_default td a dflt with
  | VDict next => if dict_mem next b then dict_get_default next b dflt else dflt
  | _ => dflt
  end.
Proof. reflexivity. Qed.

Lemma get_nested_two_found (td : dict) (a b : key) (kv : key * value) (wl : dict) :
  get_nested td [a; b] (VDict []) = VDict (kv :: wl) ->
  exists next, dict_get td a = Some (VDict next) /\
               dict_get next b = Some (VDict (kv :: wl)).
Proof.
  rewrite get_nested_two. unfold dict_get_default, dict_mem.
  destruct (dict_get td a) as [x|]; [|simpl; discriminate].
  destruct x; try discriminate.
  destruct (dict_get d b) as [y|] eqn:G; [|discriminate].
  intro H. subst y. now exists d.
Qed.

Lemma set_nested_two (td next : dict) (a b : key) (v : value) :
  dict_get td a = Some (VDict next) ->
  set_nested td v [a; b] = Ok (dict_set a (VDict (dict_set b v next)) td).
Proof.
  intro G. unfold set_nested. simpl. unfold dict_get_default. now rewrite G.
Qed.

Lemma get_nested_two_set_other (td next : dict) (a b b' : key) (v dflt : value) :
  dict_get td a = Some (VDict next) ->
  key_eqb b' b = false ->
  get_nested (dict_set a (VDict (dict_set b v next)) td) [a; b'] dflt =
  get_nested td [a; b'] dflt.
Proof.
  intros G N. rewrite !get_nested_two.
  rewrite dict_get_default_set_same.
  replace (dict_get_default td a dflt) with (VDict next)
    by (unfold dict_get_default; now rewrite G).
  unfold dict_mem. rewrite dict_get_set_other by exact N.
  now rewrite dict_get_default_set_other by exact N.
Qed.

Lemma get_nested_two_set_same (td next : dict) (a b : key) (v dflt : value) :
  get_nested (dict_set a (VDict (dict_set b v next)) td) [a; b] dflt = v.
Proof.
  rewrite get_nested_two, dict_get_default_set_same, dict_mem_set_same.
  apply dict_get_default_set_same.
Qed.

(** C7.  Running [_clean_weight_lora] on the store it has just produced
    gives the same store and ends the same way (normally or with the same
    exception) as the first run, the auxiliary name list being the one held
    by the store in both runs.  The rule table and the candidate tables are
    Python dictionaries, that is, they hold no key twice. *)
Theorem clean_weight_lora_idempotent (ct : key) (td : dict) :
  store_wf ct td = true ->
  _clean_weight_lora ct (fst (_clean_weight_lora ct td)) = _clean_weight_lora ct td.
Proof.
  intro WF.
  assert (Triv : fst (_clean_weight_lora ct td) = td ->
                 _clean_weight_lora ct (fst (_clean_weight_lora ct td))
                 = _clean_weight_lora ct td) by (intro H; now rewrite H).
  unfold store_wf in WF.
  destruct (get_nested td [ct; KStr "WeightLora"] (VDict [])) as [| | | | |l|wl] eqn:W;
    try (apply Triv; unfold _clean_weight_lora; rewrite W; simpl;
         repeat match goal with |- context [if ?c then _ else _] => destruct c end;
         reflexivity).
  destruct wl as [|kv wl0];
    [apply Triv; unfold _clean_weight_lora; rewrite W; reflexivity|].
  destruct (get_nested_two_found td ct (KStr "WeightLora") kv wl0 W) as [next [Gct Gwl]].
  set (names := lora_file_names ct td).
  destruct (clean_rules_twice names (kv :: wl0) WF) as [H1 H2].
  set (wl' := swept (clean_rule names) (kv :: wl0)) in *.
  set (e := sweep_exn (clean_rule names) (kv :: wl0)) in *.
  assert (First : _clean_weight_lora ct td =
                  (dict_set ct (VDict (dict_set (KStr "WeightLora") (VDict wl') next)) td, e)).
  { unfold _clean_weight_lora. rewrite W. cbn [truthy negb]. fold names.
    rewrite H1. now rewrite (set_nested_two td next) by exact Gct. }
  rewrite First. cbn [fst].
  set (td1 := dict_set ct (VDict (dict_set (KStr "WeightLora") (VDict wl') next)) td).
  assert (N1 : lora_file_names ct td1 = names).
  { unfold lora_file_names, names, td1.
    now rewrite (get_nested_two_set_other td next) by (exact Gct || reflexivity). }
  assert (W1 : get_nested td1 [ct; KStr "WeightLora"] (VDict []) = VDict wl').
  { unfold td1. apply get_nested_two_set_same. }
  unfold _clean_weight_lora. rewrite N1, W1.
  destruct wl' as [|kv' wl''] eqn:Ewl.
  - cbn [truthy negb]. destruct e as [x|] eqn:Ee; [|reflexivity].
    exfalso. eapply sweep_exn_some_nonempty; [exact Ee | exact Ewl].
  - cbn [truthy negb]. rewrite H2.
    rewrite (set_nested_two td1 (dict_set (KStr "WeightLora") (VDict (kv' :: wl'')) next)).
    + unfold td1. now rewrite dict_set_idem, dict_set_set.
    + unfold td1. apply dict_get_set_same.
Qed.

Lemma clean_weight_lora_idempotent_witness :
  _clean_weight_lora (KStr "X") (fst (_clean_weight_lora (KStr "X") sample_store))
  = _clean_weight_lora (KStr "X") sample_store.
Proof.
  apply (clean_weight_lora_idempotent (KStr "X") sample_store).
  reflexivity.
Defined.

End PruningStore.

(** ** Catalog index: single-asset updates *)

Section CatalogUpdates.

Lemma view_keys_distinct (a : asset_kind) :
  key_eqb (KStr (lists_key a)) (KStr (dics_key a)) = false /\
  key_eqb (KStr (names_key a)) (KStr (dics_key a)) = false /\
  key_eqb (KStr (names_key a)) (KStr (lists_key a)) = false /\
  key_eqb (KStr (dics_key a)) (KStr (lists_key a)) = false /\
  key_eqb (KStr (dics_key a)) (KStr (names_key a)) = false /\
  key_eqb (KStr (lists_key a)) (KStr (names_key a)) = false.
Proof. destruct a; repeat split; reflexivity. Qed.

Lemma views_typed_category_ok (a : asset_kind) (st : automation) :
  views_typed a st = true -> category_ok st.
Proof.
  unfold views_typed, category_ok.
  destruct (dict_get (type_dics st) (checkpoint_type st)) as [x|]; [|now left].
  destruct x; try discriminate. intros _. right. now eexists.
Qed.

Lemma get_now_category (st : automation) (k : key) (dflt : value) :
  category_ok st ->
  dflt = VDict [] \/ dflt = VList [] ->
  get_now st [k] dflt =
  if dict_mem (category st) k then dict_get_default (category st) k dflt else dflt.
Proof.
  unfold category_ok, get_now, category. rewrite get_nested_two.
  unfold dict_get_default at 1.
  intros [H|[c H]] Hd; rewrite H.
  - destruct Hd; subst dflt; reflexivity.
  - reflexivity.
Qed.

Lemma set_now_category (st : automation) (k : key) (v : value) :
  category_ok st ->
  set_now st v [k] =
  Ok (with_type_dics st
        (dict_set (checkpoint_type st) (VDict (dict_set k v (category st))) (type_dics st))).
Proof.
  unfold category_ok, set_now, category, set_nested. simpl.
  unfold dict_get_default.
  intros [H|[c H]]; rewrite H; reflexivity.
Qed.

Lemma category_with_type_dics (st : automation) (c : dict) :
  category (with_type_dics st (dict_set (checkpoint_type st) (VDict c) (type_dics st))) = c.
Proof. unfold category. simpl. now rewrite dict_get_set_same. Qed.

Lemma category_ok_with_type_dics (st : automation) (c : dict) :
  category_ok (with_type_dics st (dict_set (checkpoint_type st) (VDict c) (type_dics st))).
Proof. right. exists c. simpl. apply dict_get_set_same. Qed.

Lemma set_now_step (st : automation) (c : dict) (k : key) (v : value) :
  set_now (with_type_dics st (dict_set (checkpoint_type st) (VDict c) (type_dics st))) v [k] =
  Ok (with_type_dics st
        (dict_set (checkpoint_type st) (VDict (dict_set k v c)) (type_dics st))).
Proof.
  unfold set_now, set_nested. simpl.
  rewrite dict_get_default_set_same. simpl. now rewrite dict_set_set.
Qed.

(** Counting entries. *)





Lemma views_typed_in_category (a : asset_kind) (st : automation) :
  views_typed a st = true -> views_typed_in a (category st).
Proof.
  unfold views_typed, views_typed_in, category.
  destruct (dict_get (type_dics st) (checkpoint_type st)) as [x|].
  - destruct x; try discriminate.
    rewrite !andb_true_iff. intros [[H1 H2] H3]. repeat split.
    + destruct (dict_get d (KStr (dics_key a))) as [y|]; [|now left].
      destruct y; try discriminate. right. now eexists.
    + destruct (dict_get d (KStr (lists_key a))) as [y|]; [|now left].
      destruct y; try discriminate. right. now eexists.
    + destruct (dict_get d (KStr (names_key a))) as [y|]; [|now left].
      destruct y; try discriminate. right. now eexists.
  - intros _. repeat split; now left.
Qed.

Lemma views_read (a : asset_kind) (st : automation) :
  category_ok st ->
  views_typed_in a (category st) ->
  view_dics a st = VDict (dics_of a (category st)) /\
  view_lists a st = VList (lists_of a (category st)) /\
  view_names a st = VList (names_of_view a (category st)).
Proof.
  intros CO [H1 [H2 H3]].
  unfold view_dics, view_lists, view_names, dics_of, lists_of, names_of_view.
  rewrite !get_now_category by (assumption || (now left) || (now right)).
  unfold dict_mem, dict_get_default.
  repeat split.
  - destruct H1 as [H|[d H]]; now rewrite H.
  - destruct H2 as [H|[d H]]; now rewrite H.
  - destruct H3 as [H|[d H]]; now rewrite H.
Qed.






End CatalogUpdates.

(** ** The name index under single-asset updates *)

Section NameIndex.

Lemma update_event (rpath : rel_path) (ev : event_type) (a : asset_kind) (st : automation) :
  category_ok st ->
  views_typed_in a (category st) ->
  update_safetensors rpath ev a st =
  Ok (with_type_dics st
        (dict_set (checkpoint_type st)
           (VDict (event_category a ev (stem rpath) (path_str rpath) (category st)))
           (type_dics st))).
Proof.
  intros CO VT.
  destruct (views_read a st CO VT) as [R1 [R2 R3]].
  unfold view_dics, view_lists, view_names in *.
  unfold update_safetensors. rewrite R1, R2, R3.
  cbn [as_dict as_list bind].
  rewrite set_now_category by exact CO. cbn [bind].
  rewrite set_now_step. cbn [bind].
  now rewrite set_now_step.
Qed.

Lemma event_category_views (a : asset_kind) (ev : event_type) (name spath : string) (c : dict) :
  let c1 := event_category a ev name spath c in
  dics_of a c1 = updated_dics ev name spath (dics_of a c) /\
  names_of_view a c1 = updated_list ev name (names_of_view a c).
Proof.
  destruct (view_keys_distinct a) as [K1 [K2 [K3 [K4 [K5 K6]]]]].
  intro c1.
  assert (G3 : dict_get c1 (KStr (names_key a))
               = Some (VList (updated_list ev name (names_of_view a c)))).
  { unfold c1, event_category. apply dict_get_set_same. }
  assert (G1 : dict_get c1 (KStr (dics_key a))
               = Some (VDict (updated_dics ev name spath (dics_of a c)))).
  { unfold c1, event_category.
    rewrite dict_get_set_other by exact K5.
    rewrite dict_get_set_other by exact K4. apply dict_get_set_same. }
  unfold dics_of at 1, names_of_view at 1. now rewrite G1, G3.
Qed.

Lemma dict_keys_pop (k : key) (D : dict) :
  NoDup (dict_keys D) ->
  (forall k', In k' (dict_keys (dict_pop k D)) <-> In k' (dict_keys D) /\ k' <> k) /\
  NoDup (dict_keys (dict_pop k D)).
Proof.
  induction D as [|[k0 v0] D IH]; simpl; intro ND.
  - split; [intro; tauto | constructor].
  - inversion ND as [|? ? Hk HD]; subst.
    destruct (IH HD) as [IH1 IH2].
    destruct (key_eqb k k0) eqn:E.
    + apply key_eqb_eq in E. subst k0. split; [|exact HD].
      intro k'. split.
      * intro H. split; [now right|]. intro; subst. contradiction.
      * intros [[H|H] N]; [congruence | exact H].
    + apply key_eqb_neq in E. simpl. split.
      * intro k'. rewrite IH1. split.
        -- intros [H|[H N]]; [subst; split; [now left | congruence] | split; [now right | exact N]].
        -- intros [[H|H] N]; [now left | right; now split].
      * constructor; [|exact IH2]. intro H. apply IH1 in H. tauto.
Qed.

Lemma dict_keys_set (k : key) (v : value) (D : dict) :
  NoDup (dict_keys D) ->
  (forall k', In k' (dict_keys (dict_set k v D)) <-> In k' (dict_keys D) \/ k' = k) /\
  NoDup (dict_keys (dict_set k v D)).
Proof.
  induction D as [|[k0 v0] D IH]; simpl; intro ND.
  - split; [intro; intuition congruence | repeat constructor; tauto].
  - inversion ND as [|? ? Hk HD]; subst.
    destruct (IH HD) as [IH1 IH2].
    destruct (key_eqb k k0) eqn:E.
    + apply key_eqb_eq in E. subst k0. simpl. split; [intro; intuition congruence | exact ND].
    + simpl. split.
      * intro k'. rewrite IH1. tauto.
      * constructor; [|exact IH2]. intro H. apply IH1 in H.
        apply key_eqb_neq in E. destruct H as [H|H]; [contradiction | congruence].
Qed.

Lemma is_str_value_eq (s : string) (x : value) : is_str_value s x = true <-> x = VStr s.
Proof.
  destruct x; simpl; split; intro H; try discriminate.
  - apply String.eqb_eq in H. now subst.
  - inversion H. apply String.eqb_refl.
Qed.

Lemma list_mem_In (s : string) (l : list value) : list_mem s l = true <-> In (VStr s) l.
Proof.
  unfold list_mem. rewrite existsb_exists. split.
  - intros [x [Hin E]]. apply is_str_value_eq in E. now subst.
  - intro H. exists (VStr s). split; [exact H | now apply is_str_value_eq].
Qed.

Lemma list_remove_In (s : string) (l : list value) :
  NoDup l ->
  (forall x, In x (list_remove s l) <-> In x l /\ x <> VStr s) /\ NoDup (list_remove s l).
Proof.
  induction l as [|y l IH]; simpl; intro ND.
  - split; [intro; tauto | constructor].
  - inversion ND as [|? ? Hy Hl]; subst.
    destruct (IH Hl) as [IH1 IH2].
    destruct (is_str_value s y) eqn:E.
    + apply is_str_value_eq in E. subst y. split; [|exact Hl].
      intro x. split.
      * intro H. split; [now right|]. intro; subst. contradiction.
      * intros [[H|H] N]; [congruence | exact H].
    + assert (Ny : y <> VStr s).
      { intro H. apply is_str_value_eq in H. congruence. }
      simpl. split.
      * intro x. rewrite IH1. split.
        -- intros [H|[H N]]; [subst; split; [now left | exact Ny] | split; [now right | exact N]].
        -- intros [[H|H] N]; [now left | right; now split].
      * constructor; [|exact IH2]. intro H. apply IH1 in H. tauto.
Qed.

Lemma remove_if_in_In (s : string) (l : list value) :
  NoDup l ->
  (forall x, In x (remove_if_in s l) <-> In x l /\ x <> VStr s) /\ NoDup (remove_if_in s l).
Proof.
  intro ND. unfold remove_if_in.
  destruct (list_mem s l) eqn:M; [now apply list_remove_In|].
  split; [|exact ND]. intro x. split; [|tauto].
  intro H. split; [exact H|]. intro; subst.
  apply list_mem_In in H. congruence.
Qed.

Lemma append_if_absent_In (s : string) (l : list value) :
  NoDup l ->
  (forall x, In x (append_if_absent s l) <-> In x l \/ x = VStr s) /\
  NoDup (append_if_absent s l).
Proof.
  intro ND. unfold append_if_absent.
  destruct (list_mem s l) eqn:M.
  - apply list_mem_In in M. split; [|exact ND].
    intro x. split; [tauto|]. intros [H|H]; [exact H | now subst].
  - assert (NI : ~ In (VStr s) l).
    { intro H. apply list_mem_In in H. congruence. }
    split.
    + intro x. rewrite in_app_iff. simpl. intuition congruence.
    + apply NoDup_app; [exact ND | repeat constructor; tauto |].
      intros y Hy [<-|[]]. contradiction.
Qed.

(** Every event keeps a consistent name index consistent. *)
Lemma index_consistent_updated (ev : event_type) (name spath : string) (D : dict)
  (N : list value) :
  index_consistent D N ->
  index_consistent (updated_dics ev name spath D) (updated_list ev name N).
Proof.
  assert (Pop : forall D N, index_consistent D N ->
                index_consistent (dict_pop (KStr name) D) (remove_if_in name N)).
  { clear. intros D N [ND [NN [SN [SK EQ]]]].
    destruct (dict_keys_pop (KStr name) D ND) as [P1 P2].
    destruct (remove_if_in_In name N NN) as [R1 R2].
    split; [exact P2|]. split; [exact R2|]. split; [|split].
    - intros x H. apply R1 in H. now apply SN.
    - intros k H. apply P1 in H. now apply SK.
    - intro s. rewrite R1, P1, EQ.
      split; intros [H1 H2]; (split; [exact H1 | congruence]). }
  assert (Set_ : forall D N, index_consistent D N ->
                index_consistent (dict_set (KStr name) (VStr spath) D)
                                 (append_if_absent name N)).
  { clear. intros D N [ND [NN [SN [SK EQ]]]].
    destruct (dict_keys_set (KStr name) (VStr spath) D ND) as [P1 P2].
    destruct (append_if_absent_In name N NN) as [R1 R2].
    split; [exact P2|]. split; [exact R2|]. split; [|split].
    - intros x H. apply R1 in H.
      destruct H as [H|H]; [now apply SN | now exists name].
    - intros k H. apply P1 in H.
      destruct H as [H|H]; [now apply SK | now exists name].
    - intro s. rewrite R1, P1, EQ.
      split; (intros [H|H]; [now left | right; congruence]). }
  intro IC. unfold updated_dics, updated_list.
  destruct ev; cbn [removes adds]; auto.
Qed.

(** From a state whose name index is consistent, an event of any kind
    succeeds and leaves the name index of the views it touches
    consistent: the update path keeps what the scan can break. *)
Lemma update_keeps_index_consistent (rpath : rel_path) (ev : event_type) (a : asset_kind)
  (st : automation) :
  views_typed a st = true ->
  index_consistent (dics_of a (category st)) (names_of_view a (category st)) ->
  exists st',
    update_safetensors rpath ev a st = Ok st' /\
    index_consistent (dics_of a (category st')) (names_of_view a (category st')).
Proof.
  intros VT IC.
  pose proof (views_typed_category_ok a st VT) as CO.
  pose proof (views_typed_in_category a st VT) as VI.
  eexists. split; [now apply update_event|].
  rewrite category_with_type_dics.
  destruct (event_category_views a ev (stem rpath) (path_str rpath) (category st)) as [E1 E2].
  rewrite E1, E2. now apply index_consistent_updated.
Qed.

Lemma dict_of_zip_keys (ns ps : list string) :
  forall acc,
    List.length ns = List.length ps ->
    NoDup (dict_keys acc) ->
    NoDup (dict_keys (dict_of_zip ns ps acc)) /\
    (forall k, In k (dict_keys (dict_of_zip ns ps acc)) <->
               In k (dict_keys acc) \/ exists s, k = KStr s /\ In s ns).
Proof.
  revert ps. induction ns as [|n ns IH]; intros ps acc HL ND.
  - simpl. split; [exact ND|]. intro k. split; [now left|].
    intros [H|[s [_ []]]]. exact H.
  - destruct ps as [|p ps]; [discriminate|]. simpl in HL. injection HL as HL.
    destruct (dict_keys_set (KStr n) (VStr p) acc ND) as [P1 P2].
    destruct (IH ps (dict_set (KStr n) (VStr p) acc) HL P2) as [I1 I2].
    simpl. split; [exact I1|].
    intro k. rewrite I2, P1. split.
    + intros [[H|H]|[s [E H]]].
      * now left.
      * right. exists n. split; [exact H | now left].
      * right. exists s. split; [exact E | now right].
    + intros [H|[s [E [H|H]]]].
      * left. now left.
      * left. right. congruence.
      * right. exists s. now split.
Qed.

(** The scan gives a consistent name index when no two files found have
    the same stem. *)
Lemma scan_index_consistent (files : list rel_path) :
  NoDup (map stem files) ->
  index_consistent (fst (fst (get_file_dict_list files)))
                   (map VStr (snd (get_file_dict_list files))).
Proof.
  intro ND. unfold get_file_dict_list. cbn [fst snd].
  destruct (dict_of_zip_keys (map stem files) (map path_str files) [])
    as [K1 K2]; [now rewrite !length_map | constructor |].
  split; [exact K1|]. split; [|split; [|split]].
  - clear K1 K2. induction (map stem files) as [|n ns IH]; simpl; [constructor|].
    inversion ND as [|? ? Hn Hns]; subst. constructor; [|now apply IH].
    intro H. apply in_map_iff in H. destruct H as [t [E H]]. inversion E; subst.
    contradiction.
  - intros x H. apply in_map_iff in H. destruct H as [s [<- _]]. now exists s.
  - intros k H. apply K2 in H. destruct H as [[]|[s [-> _]]]. now exists s.
  - intro s. rewrite K2. split.
    + intro H. right. exists s. split; [reflexivity|].
      apply in_map_iff in H. destruct H as [t [E H]]. now inversion E; subst.
    + intros [[]|[t [E H]]]. inversion E; subst. now apply in_map.
Qed.

(** The method ignores its [checkpoint_type] parameter: an event for an
    asset of category [Y], received while category [X] is selected, lands
    in the views of [X] and leaves those of [Y] as they were. *)
Lemma update_lands_in_selected_category :
  exists st,
    update_safetensors ["Y"; "m2.safetensors"] Created Checkpoint
      (sample_state two_category_store (KStr "X")) = Ok st /\
    get_nested (type_dics st) [KStr "X"; KStr "CheckpointFileNames"] (VList [])
      = VList [VStr "m2"] /\
    get_nested (type_dics st) [KStr "Y"; KStr "CheckpointFileNames"] (VList [])
      = VList [].
Proof.
  eexists. split; [vm_compute; reflexivity|]. split; reflexivity.
Qed.

End NameIndex.

(** ** The range picker *)

Section RangePicker.

Lemma Qlt_bool_iff (x y : Q) : Qlt_bool x y = true <-> x < y.
Proof.
  unfold Qlt_bool. rewrite negb_true_iff. split.
  - intro H. apply Qnot_le_lt. intro L. apply Qle_bool_iff in L. congruence.
  - intro H. destruct (Qle_bool y x) eqn:E; [|reflexivity].
    apply Qle_bool_iff in E. lra.
Qed.

Lemma Qlt_bool_false (x y : Q) : Qlt_bool x y = false <-> y <= x.
Proof.
  unfold Qlt_bool. rewrite negb_false_iff. apply Qle_bool_iff.
Qed.

Lemma is_number_to_Q (v : value) : is_number v = true <-> exists q, to_Q v = Some q.
Proof.
  destruct v; simpl; split; intro H; try discriminate; try (now eexists);
    try reflexivity; destruct H as [q H]; discriminate.
Qed.

Lemma is_int_number (v : value) : is_int v = true -> is_number v = true.
Proof. unfold is_number. intro H. now rewrite H. Qed.

Lemma is_float_number (v : value) : is_float v = true -> is_number v = true.
Proof. unfold is_number. intro H. rewrite H. apply orb_true_r. Qed.

Lemma py_lt_numbers (a b : value) :
  is_number a = true -> is_number b = true -> py_lt a b = Ok (Qlt_bool (qv a) (qv b)).
Proof.
  intros Ha Hb. apply is_number_to_Q in Ha, Hb.
  destruct Ha as [x Hx], Hb as [y Hy].
  unfold py_lt, qv. now rewrite Hx, Hy.
Qed.

(** [min] of numbers: an element below all the others. *)
Lemma py_min_from_numbers (l : list value) :
  forall cur,
    is_number cur = true ->
    forallb is_number l = true ->
    exists m, py_min_from cur l = Ok m /\ In m (cur :: l) /\
              forall x, In x (cur :: l) -> qv m <= qv x.
Proof.
  induction l as [|y l IH]; intros cur Hc Hl.
  - exists cur. simpl. repeat split; [now left|].
    intros x [<-|[]]. lra.
  - simpl in Hl. apply andb_true_iff in Hl. destruct Hl as [Hy Hl].
    simpl. rewrite py_lt_numbers by assumption. simpl.
    destruct (Qlt_bool (qv y) (qv cur)) eqn:C.
    + apply Qlt_bool_iff in C.
      destruct (IH y Hy Hl) as [m [Hm [Hin Hle]]].
      exists m. split; [exact Hm|]. split.
      * destruct Hin as [<-|Hin]; [right; now left | right; now right].
      * intros x [<-|[<-|Hx]].
        -- pose proof (Hle y (or_introl eq_refl)). lra.
        -- apply Hle. now left.
        -- apply Hle. now right.
    + apply Qlt_bool_false in C.
      destruct (IH cur Hc Hl) as [m [Hm [Hin Hle]]].
      exists m. split; [exact Hm|]. split.
      * destruct Hin as [<-|Hin]; [now left | right; now right].
      * intros x [<-|[<-|Hx]].
        -- apply Hle. now left.
        -- pose proof (Hle cur (or_introl eq_refl)). lra.
        -- apply Hle. now right.
Qed.

Lemma py_max_from_numbers (l : list value) :
  forall cur,
    is_number cur = true ->
    forallb is_number l = true ->
    exists m, py_max_from cur l = Ok m /\ In m (cur :: l) /\
              forall x, In x (cur :: l) -> qv x <= qv m.
Proof.
  induction l as [|y l IH]; intros cur Hc Hl.
  - exists cur. simpl. repeat split; [now left|].
    intros x [<-|[]]. lra.
  - simpl in Hl. apply andb_true_iff in Hl. destruct Hl as [Hy Hl].
    simpl. unfold py_gt. rewrite py_lt_numbers by assumption. simpl.
    destruct (Qlt_bool (qv cur) (qv y)) eqn:C.
    + apply Qlt_bool_iff in C.
      destruct (IH y Hy Hl) as [m [Hm [Hin Hle]]].
      exists m. split; [exact Hm|]. split.
      * destruct Hin as [<-|Hin]; [right; now left | right; now right].
      * intros x [<-|[<-|Hx]].
        -- pose proof (Hle y (or_introl eq_refl)). lra.
        -- apply Hle. now left.
        -- apply Hle. now right.
    + apply Qlt_bool_false in C.
      destruct (IH cur Hc Hl) as [m [Hm [Hin Hle]]].
      exists m. split; [exact Hm|]. split.
      * destruct Hin as [<-|Hin]; [now left | right; now right].
      * intros x [<-|[<-|Hx]].
        -- apply Hle. now left.
        -- pose proof (Hle cur (or_introl eq_refl)). lra.
        -- apply Hle. now right.
Qed.

Lemma py_min_max_numbers (l : list value) :
  l <> [] ->
  forallb is_number l = true ->
  exists lo hi, py_min l = Ok lo /\ py_max l = Ok hi /\ extremes l lo hi.
Proof.
  destruct l as [|x l]; [congruence|]. intros _ H.
  simpl in H. apply andb_true_iff in H. destruct H as [Hx Hl].
  destruct (py_min_from_numbers l x Hx Hl) as [lo [H1 [I1 L1]]].
  destruct (py_max_from_numbers l x Hx Hl) as [hi [H2 [I2 L2]]].
  exists lo, hi. unfold extremes. simpl py_min. simpl py_max. repeat split; auto.
Qed.

(** [min] over a list that mixes a number with something else raises
    [TypeError] at the first comparison across types. *)
Lemma py_min_from_number_mixed (l : list value) :
  forall cur,
    is_number cur = true ->
    forallb is_number l = false ->
    py_min_from cur l = Raise TypeError.
Proof.
  induction l as [|y l IH]; intros cur Hc Hl; [discriminate|].
  simpl in Hl. simpl.
  destruct (is_number y) eqn:Hy.
  - simpl in Hl. rewrite py_lt_numbers by assumption. simpl.
    destruct (Qlt_bool (qv y) (qv cur)); now apply IH.
  - apply is_number_to_Q in Hc. destruct Hc as [q Hq].
    unfold py_lt. rewrite Hq.
    destruct y; try discriminate; simpl; try reflexivity;
      destruct cur; try discriminate; reflexivity.
Qed.

Lemma py_min_from_string_mixed (l : list value) :
  forall s,
    forallb is_str l = false ->
    py_min_from (VStr s) l = Raise TypeError.
Proof.
  induction l as [|y l IH]; intros s Hl; [discriminate|].
  simpl in Hl. simpl.
  destruct y; simpl in *; try reflexivity.
  destruct (String.ltb s0 s); now apply IH.
Qed.

Lemma py_min_from_other (cur y : value) (l : list value) :
  is_number cur = false -> is_str cur = false ->
  py_min_from cur (y :: l) = Raise TypeError.
Proof.
  intros Hn Hs. simpl. unfold py_lt.
  destruct cur; try discriminate; destruct y; reflexivity.
Qed.

Lemma float_not_str (l : list value) : existsb is_float l = true -> forallb is_str l = false.
Proof.
  induction l as [|x l IH]; simpl; [discriminate|].
  destruct x; simpl; auto.
Qed.

Lemma py_min_mixed (l : list value) :
  existsb is_float l = true ->
  forallb is_number l = false ->
  py_min l = Raise TypeError.
Proof.
  destruct l as [|x l]; [discriminate|]. intros F N. simpl in *.
  destruct (is_number x) eqn:Hx.
  - now apply py_min_from_number_mixed.
  - destruct x; try discriminate.
    + destruct l; [discriminate | now apply py_min_from_other].
    + simpl in F. apply py_min_from_string_mixed. now apply float_not_str.
    + destruct l; [discriminate | now apply py_min_from_other].
    + destruct l; [discriminate | now apply py_min_from_other].
Qed.

Lemma to_index_int (v : value) : is_int v = true -> exists z, to_index v = Ok z /\ qv v == inject_Z z.
Proof.
  destruct v; try discriminate; intros _; eexists; split; try reflexivity.
Qed.

Lemma floor_in_width (r : Q) (w : Z) :
  0 <= r -> r < 1 -> (0 < w)%Z ->
  (0 <= Qfloor (r * inject_Z w) < w)%Z.
Proof.
  intros H0 H1 Hw.
  assert (Wq : 0 < inject_Z w) by (change 0 with (inject_Z 0); now rewrite <- Zlt_Qlt).
  split.
  - rewrite <- (Qfloor_Z 0). apply Qfloor_resp_le. change (inject_Z 0) with 0. nra.
  - rewrite Zlt_Qlt. eapply Qle_lt_trans; [apply Qfloor_le|]. nra.
Qed.

End RangePicker.

Section RangePickerCases.

Variable rnd : nat -> Q.

Lemma ints_have_no_float (l : list value) :
  forallb is_int l = true -> existsb is_float l = false.
Proof.
  induction l as [|x l IH]; simpl; [reflexivity|].
  rewrite andb_true_iff. intros [Hx Hl]. rewrite IH by exact Hl.
  destruct x; try discriminate; reflexivity.
Qed.

Lemma ints_are_numbers (l : list value) :
  forallb is_int l = true -> forallb is_number l = true.
Proof.
  rewrite !forallb_forall. intros H x Hx. apply is_int_number. now apply H.
Qed.

Lemma numbers_without_float (l : list value) :
  forallb is_number l = true -> existsb is_float l = false -> forallb is_int l = true.
Proof.
  induction l as [|x l IH]; simpl; [reflexivity|].
  rewrite andb_true_iff, orb_false_iff. intros [Hx Hl] [Fx Fl].
  rewrite IH by assumption. unfold is_number in Hx. rewrite Fx in Hx.
  rewrite orb_false_r in Hx. now rewrite Hx.
Qed.

Lemma float_list_nonempty (l : list value) : existsb is_float l = true -> l <> [].
Proof. destruct l; [discriminate | discriminate]. Qed.

Lemma qv_to_Q (v : value) : is_number v = true -> to_Q v = Some (qv v).
Proof.
  intro H. apply is_number_to_Q in H. destruct H as [q H]. unfold qv. now rewrite H.
Qed.

(** A collection of numbers with a float in it: [uniform(min, max)]. *)
Lemma random_min_max_floats (l : list value) (n : nat) :
  existsb is_float l = true ->
  forallb is_number l = true ->
  exists lo hi,
    extremes l lo hi /\
    random_min_max rnd (VList l) n
    = Ok (VFloat (qv lo + (qv hi - qv lo) * rnd n), S n).
Proof.
  intros F N.
  destruct (py_min_max_numbers l (float_list_nonempty l F) N) as [lo [hi [Hlo [Hhi E]]]].
  exists lo, hi. split; [exact E|].
  unfold random_min_max. rewrite F.
  unfold mbind, lift. rewrite Hlo, Hhi.
  destruct E as [Ilo [Ihi _]].
  rewrite forallb_forall in N.
  unfold uniform. rewrite (qv_to_Q lo), (qv_to_Q hi) by (now apply N).
  reflexivity.
Qed.

(** A non-empty collection of integers: [randint(min, max)]. *)
Lemma random_min_max_ints (l : list value) (n : nat) :
  l <> [] ->
  forallb is_int l = true ->
  exists lo hi a b,
    extremes l lo hi /\
    qv lo == inject_Z a /\ qv hi == inject_Z b /\ (a <= b)%Z /\
    random_min_max rnd (VList l) n
    = Ok (VInt (a + Qfloor (rnd n * inject_Z (b - a + 1))), S n).
Proof.
  intros NE I.
  destruct (py_min_max_numbers l NE (ints_are_numbers l I)) as [lo [hi [Hlo [Hhi E]]]].
  pose proof E as [Ilo [Ihi Hb]].
  rewrite forallb_forall in I.
  destruct (to_index_int lo (I lo Ilo)) as [a [Ha Qa]].
  destruct (to_index_int hi (I hi Ihi)) as [b [Hb' Qb]].
  assert (Hab : (a <= b)%Z).
  { rewrite Zle_Qle. destruct (Hb lo Ilo) as [_ H]. lra. }
  exists lo, hi, a, b.
  split; [exact E|]. split; [exact Qa|]. split; [exact Qb|]. split; [exact Hab|].
  unfold random_min_max.
  rewrite ints_have_no_float by (now apply forallb_forall).
  replace (forallb is_int l) with true by (symmetry; now apply forallb_forall).
  unfold mbind, lift. rewrite Hlo, Hhi.
  unfold randint, mbind, lift. rewrite Ha, Hb'.
  replace (Z.ltb b a) with false by (symmetry; apply Z.ltb_ge; exact Hab).
  reflexivity.
Qed.

(** A numeric setting resolves, without raising, to a number between its
    bounds. *)
Lemma numeric_setting_resolves (s : value) (n : nat) :
  unit_oracle rnd ->
  numeric_setting s = true ->
  exists x n',
    random_min_max rnd s n = Ok (x, n') /\ is_number x = true /\
    forall b, setting_at_least b s = true -> b <= qv x.
Proof.
  intros U NS.
  destruct s as [| | | | |l|d]; try discriminate;
    try (eexists; eexists; split; [reflexivity|]; split; [exact NS|];
         intros bd H; unfold setting_at_least in H; apply andb_true_iff in H;
         destruct H as [_ H]; now apply Qle_bool_iff in H).
  simpl in NS. destruct l as [|x0 l0] eqn:El; [discriminate|]. rewrite <- El in *.
  assert (NE : l <> []) by (rewrite El; discriminate).
  destruct (existsb is_float l) eqn:F.
  - destruct (random_min_max_floats l n F NS) as [lo [hi [[Ilo [Ihi Hb]] R]]].
    eexists; eexists. split; [exact R|]. split; [reflexivity|].
    intros b H. unfold setting_at_least in H. apply andb_true_iff in H.
    destruct H as [_ H]. rewrite forallb_forall in H.
    pose proof (H lo Ilo) as Hlo. apply Qle_bool_iff in Hlo.
    destruct (Hb lo Ilo) as [_ Hlh]. destruct (U n) as [U0 U1].
    unfold qv at 1. cbn [to_Q]. nra.
  - pose proof (numbers_without_float l NS F) as I.
    destruct (random_min_max_ints l n NE I)
      as [lo [hi [a [b' [[Ilo [Ihi Hb]] [Qa [Qb [Hab R]]]]]]]].
    eexists; eexists. split; [exact R|]. split; [reflexivity|].
    intros b H. unfold setting_at_least in H. apply andb_true_iff in H.
    destruct H as [_ H]. rewrite forallb_forall in H.
    pose proof (H lo Ilo) as Hlo. apply Qle_bool_iff in Hlo.
    destruct (U n) as [U0 U1].
    pose proof (floor_in_width (rnd n) (b' - a + 1) U0 U1 ltac:(lia)) as [W0 _].
    unfold qv at 1. cbn [to_Q]. rewrite inject_Z_plus.
    rewrite Zle_Qle in W0. change (inject_Z 0) with 0 in W0. lra.
Qed.

End RangePickerCases.

Section RangePickerClaim.

(** C9.  The range picker has a [ValueError] of its own for a collection
    that is no range, and a collection of an integer and a string ends in
    it.  A collection of a float and a string never reaches it: the test for
    a float comes first, and the comparison inside [min] raises [TypeError],
    whatever the generator draws. *)
Theorem random_min_max_float_and_string (rnd : nat -> Q) (n : nat) :
  random_min_max rnd (VList [VFloat (3 # 2); VStr "a"]) n = Raise TypeError /\
  random_min_max rnd (VList [VInt 1; VStr "a"]) n = Raise ValueError.
Proof. split; reflexivity. Qed.

(** The range picker case by case.  With [r] the next draw of the
    generator, the range picker
    - returns an argument that is not a collection unchanged, without
      drawing;
    - on a collection of numbers with a float among them, returns the real
      number [lo + (hi - lo) * r], which lies between the least element [lo]
      and the greatest element [hi];
    - on a non-empty collection of integers, returns an integer of the
      closed range from the least to the greatest element;
    - on a collection with an element that is no number, raises instead of
      returning: [ValueError] when no element is a float, [TypeError] (from
      the comparison in [min]) when one is. *)
Theorem random_min_max_behaviour (rnd : nat -> Q) (n : nat) :
  unit_oracle rnd ->
  (forall v, (forall l, v <> VList l) -> random_min_max rnd v n = Ok (v, n)) /\
  (forall l, existsb is_float l = true -> forallb is_number l = true ->
     exists lo hi q,
       extremes l lo hi /\
       random_min_max rnd (VList l) n = Ok (VFloat q, S n) /\
       q == qv lo + (qv hi - qv lo) * rnd n /\
       qv lo <= q /\ q <= qv hi) /\
  (forall l, l <> [] -> forallb is_int l = true ->
     exists lo hi z,
       extremes l lo hi /\
       random_min_max rnd (VList l) n = Ok (VInt z, S n) /\
       qv lo <= inject_Z z /\ inject_Z z <= qv hi) /\
  (forall l, forallb is_number l = false -> existsb is_float l = false ->
     random_min_max rnd (VList l) n = Raise ValueError) /\
  (forall l, forallb is_number l = false -> existsb is_float l = true ->
     random_min_max rnd (VList l) n = Raise TypeError).
Proof.
  intro U. destruct (U n) as [U0 U1].
  split; [|split; [|split; [|split]]].
  - intros v NL. destruct v; try reflexivity. now elim (NL l).
  - intros l F N.
    destruct (random_min_max_floats rnd l n F N) as [lo [hi [E R]]].
    exists lo, hi, (qv lo + (qv hi - qv lo) * rnd n).
    split; [exact E|]. split; [exact R|]. split; [reflexivity|].
    destruct E as [Ilo [_ Hb]]. destruct (Hb lo Ilo) as [_ Hlh]. split; nra.
  - intros l NE I.
    destruct (random_min_max_ints rnd l n NE I) as [lo [hi [a [b [E [Qa [Qb [Hab R]]]]]]]].
    exists lo, hi, (a + Qfloor (rnd n * inject_Z (b - a + 1)))%Z.
    split; [exact E|]. split; [exact R|].
    pose proof (floor_in_width (rnd n) (b - a + 1) U0 U1 ltac:(lia)) as [W0 W1].
    rewrite Qa, Qb, <- !Zle_Qle. lia.
  - intros l N F. unfold random_min_max. rewrite F.
    destruct (forallb is_int l) eqn:I; [|reflexivity].
    apply ints_are_numbers in I. congruence.
  - intros l N F. unfold random_min_max. rewrite F.
    unfold mbind, lift. now rewrite (py_min_mixed l F N).
Qed.

Lemma random_min_max_behaviour_witness :
  (forall v, (forall l, v <> VList l) -> random_min_max (fun _ => 1 # 2) v 0%nat = Ok (v, 0%nat)) /\
  (forall l, existsb is_float l = true -> forallb is_number l = true ->
     exists lo hi q,
       extremes l lo hi /\
       random_min_max (fun _ => 1 # 2) (VList l) 0%nat = Ok (VFloat q, 1%nat) /\
       q == qv lo + (qv hi - qv lo) * (1 # 2) /\
       qv lo <= q /\ q <= qv hi) /\
  (forall l, l <> [] -> forallb is_int l = true ->
     exists lo hi z,
       extremes l lo hi /\
       random_min_max (fun _ => 1 # 2) (VList l) 0%nat = Ok (VInt z, 1%nat) /\
       qv lo <= inject_Z z /\ inject_Z z <= qv hi) /\
  (forall l, forallb is_number l = false -> existsb is_float l = false ->
     random_min_max (fun _ => 1 # 2) (VList l) 0%nat = Raise ValueError) /\
  (forall l, forallb is_number l = false -> existsb is_float l = true ->
     random_min_max (fun _ => 1 # 2) (VList l) 0%nat = Raise TypeError).
Proof.
  apply (random_min_max_behaviour (fun _ => 1 # 2) 0%nat).
  intro n. split; [discriminate | reflexivity].
Defined.

End RangePickerClaim.

(** ** Parameter resolution *)

Section Resolver.

Variable rnd : nat -> Q.

Lemma set_exists_resolved (keys : list key) :
  forall (wf : dict) (v0 x dflt : value),
    resolve_path wf keys = Some v0 ->
    exists wf', set_exists wf x keys = Some wf' /\ get_nested wf' keys dflt = x.
Proof.
  induction keys as [|k rest IH]; intros wf v0 x dflt R; [discriminate|].
  destruct rest as [|k2 rest].
  - simpl in R. exists (dict_set k x wf). simpl. unfold dict_mem. rewrite R.
    split; [reflexivity|].
    rewrite dict_get_set_same. apply dict_get_default_set_same.
  - change (resolve_path wf (k :: k2 :: rest))
      with (match dict_get wf k with
            | Some (VDict next) => resolve_path next (k2 :: rest)
            | _ => None
            end) in R.
    change (set_exists wf x (k :: k2 :: rest))
      with (match dict_get wf k with
            | Some (VDict next) =>
                match set_exists next x (k2 :: rest) with
                | Some next' => Some (dict_set k (VDict next') wf)
                | None => None
                end
            | _ => None
            end).
    destruct (dict_get wf k) as [y|]; [|discriminate].
    destruct y; try discriminate.
    destruct (IH d v0 x dflt R) as [next' [Hs Hg]].
    exists (dict_set k (VDict next') wf). rewrite Hs. split; [reflexivity|].
    change (get_nested (dict_set k (VDict next') wf) (k :: k2 :: rest) dflt)
      with (match dict_get_default (dict_set k (VDict next') wf) k dflt with
            | VDict next => get_nested next (k2 :: rest) dflt
            | _ => dflt
            end).
    now rewrite dict_get_default_set_same.
Qed.

Lemma floor_at_compat (m x y : Q) : x == y -> floor_at m x == floor_at m y.
Proof.
  intro E. unfold floor_at, Qlt_bool. rewrite E.
  destruct (Qle_bool m y); [exact E | reflexivity].
Qed.

Lemma cap_at_compat (m x y : Q) : x == y -> cap_at m x == cap_at m y.
Proof.
  intro E. unfold cap_at, Qlt_bool. rewrite E.
  destruct (Qle_bool y m); [exact E | reflexivity].
Qed.

Lemma floor_at_le (m v : Q) : m <= floor_at m v.
Proof.
  unfold floor_at. destruct (Qlt_bool v m) eqn:E; [lra|].
  now apply Qlt_bool_false in E.
Qed.

Lemma py_max2_numbers (v m : value) :
  is_number v = true -> is_number m = true ->
  exists x, py_max2 v m = Ok x /\ is_number x = true /\ qv x = floor_at (qv m) (qv v).
Proof.
  intros Hv Hm. unfold py_max2, py_gt. rewrite py_lt_numbers by assumption.
  simpl. unfold floor_at.
  destruct (Qlt_bool (qv v) (qv m)); eexists; repeat split; assumption.
Qed.

Lemma py_min2_numbers (v m : value) :
  is_number v = true -> is_number m = true ->
  exists x, py_min2 v m = Ok x /\ is_number x = true /\ qv x = cap_at (qv m) (qv v).
Proof.
  intros Hv Hm. unfold py_min2. rewrite py_lt_numbers by assumption.
  simpl. unfold cap_at.
  destruct (Qlt_bool (qv m) (qv v)); eexists; repeat split; assumption.
Qed.

Lemma py_mul_float (q : Q) (s : value) :
  is_number s = true -> py_mul (VFloat q) s = Ok (VFloat (q * qv s)).
Proof.
  intro H. unfold py_mul. now rewrite (qv_to_Q s H).
Qed.

(** The scale step on a float. *)
Lemma scale_step (sw : dict) (node k : key) (q : Q) (n : nat) :
  unit_oracle rnd ->
  unset_or numeric_setting (get_nested sw [KStr "workflow_scale"; node; k] VNone) = true ->
  exists q2 qs n1,
    post_process rnd sw "workflow_scale" node k py_mul (VFloat q) n = Ok (VFloat q2, n1) /\
    q2 == q * qs /\
    (truthy (get_nested sw [KStr "workflow_scale"; node; k] VNone) = false -> qs == 1) /\
    (truthy (get_nested sw [KStr "workflow_scale"; node; k] VNone) = true ->
       exists s', random_min_max rnd (get_nested sw [KStr "workflow_scale"; node; k] VNone) n
                  = Ok (s', n1) /\ qs == qv s').
Proof.
  intros U H. unfold post_process.
  set (s := get_nested sw [KStr "workflow_scale"; node; k] VNone) in *.
  unfold unset_or in H.
  destruct (truthy s) eqn:T.
  - simpl in H.
    destruct (numeric_setting_resolves rnd s n U H) as [s' [n1 [R [Ns _]]]].
    exists (q * qv s'), (qv s'), n1.
    unfold mbind, lift. rewrite R, (py_mul_float q s' Ns).
    split; [reflexivity|]. split; [reflexivity|]. split; [discriminate|].
    intros _. exists s'. split; reflexivity.
  - exists q, 1, n. split; [reflexivity|]. split; [ring|]. split; [reflexivity|discriminate].
Qed.

(** The cap step on a number that is at least [b], for a cap that is. *)
Lemma cap_step (sw : dict) (node k : key) (b : Q) (v : value) (n : nat) :
  unit_oracle rnd ->
  unset_or (setting_at_least b) (get_nested sw [KStr "workflow_max"; node; k] VNone) = true ->
  is_number v = true -> b <= qv v ->
  exists x n1,
    post_process rnd sw "workflow_max" node k py_min2 v n = Ok (x, n1) /\
    is_number x = true /\ b <= qv x /\
    (truthy (get_nested sw [KStr "workflow_max"; node; k] VNone) = false -> x = v) /\
    (truthy (get_nested sw [KStr "workflow_max"; node; k] VNone) = true ->
       exists m', random_min_max rnd (get_nested sw [KStr "workflow_max"; node; k] VNone) n
                  = Ok (m', n1) /\ qv x = cap_at (qv m') (qv v)).
Proof.
  intros U H Nv Bv. unfold post_process.
  set (s := get_nested sw [KStr "workflow_max"; node; k] VNone) in *.
  unfold unset_or in H.
  destruct (truthy s) eqn:T.
  - simpl in H. pose proof H as H'. unfold setting_at_least in H'.
    apply andb_true_iff in H'. destruct H' as [NS _].
    destruct (numeric_setting_resolves rnd s n U NS) as [m' [n1 [R [Nm Bm]]]].
    destruct (py_min2_numbers v m' Nv Nm) as [x [Hx [Nx Qx]]].
    exists x, n1. unfold mbind, lift. rewrite R, Hx.
    split; [reflexivity|]. split; [exact Nx|]. split.
    + rewrite Qx. unfold cap_at. destruct (Qlt_bool (qv m') (qv v)); [now apply Bm | exact Bv].
    + split; [discriminate|]. intros _. exists m'. now split.
  - exists v, n. split; [reflexivity|]. split; [exact Nv|]. split; [exact Bv|].
    split; [reflexivity | discriminate].
Qed.

(** C4.  Let the value to resolve for a parameter that exists in the
    template (the template's own value, or its category-level override,
    passed through the resolver callback when there is one) be the range
    [[0.0, 1.0]], let the configured minimum be [0.5], the
    configured maximum be unset or a number or range not below [0.5], and
    the scale be unset or numeric.  Then resolution with the range picker
    succeeds and leaves in the workflow a number that is at least [0.5].
    That number is [min(max(r * scale, 0.5), maximum)], where [r] is the
    draw for the range, [scale] the resolved scale (1 when unset) and the
    outer [min] is absent when the maximum is unset: scale is applied
    first, then the minimum, then the maximum. *)
Theorem min_setting_floors_parameter (st : automation) (sw : dict) (node k : key)
  (func : option (value -> key -> value)) (v0 : value) (n : nat) :
  unit_oracle rnd ->
  get_now st [KStr "setupWorkflow"] (VDict []) = VDict sw ->
  resolve_path (workflow_api st) [node; KStr "inputs"; k] = Some v0 ->
  (let v := get_nested sw [KStr "workflow"; node; k] (get_workflow st node k) in
   match func with Some f => f v k | None => v end) = VList [VFloat 0; VFloat 1] ->
  unset_or numeric_setting (get_nested sw [KStr "workflow_scale"; node; k] VNone) = true ->
  get_nested sw [KStr "workflow_min"; node; k] VNone = VFloat (1 # 2) ->
  unset_or (setting_at_least (1 # 2)) (get_nested sw [KStr "workflow_max"; node; k] VNone) = true ->
  exists st' n' x qs,
    set_workflow_func_random2 rnd node [k] (Some (random_min_max rnd)) func st n
    = Ok (st', n') /\
    get_workflow st' node k = x /\
    is_number x = true /\
    1 # 2 <= qv x /\
    (truthy (get_nested sw [KStr "workflow_scale"; node; k] VNone) = false -> qs == 1) /\
    (truthy (get_nested sw [KStr "workflow_scale"; node; k] VNone) = true ->
       exists s' n1,
         random_min_max rnd (get_nested sw [KStr "workflow_scale"; node; k] VNone) (S n)
         = Ok (s', n1) /\ qs == qv s') /\
    (truthy (get_nested sw [KStr "workflow_max"; node; k] VNone) = false ->
       qv x == floor_at (1 # 2) (rnd n * qs)) /\
    (truthy (get_nested sw [KStr "workflow_max"; node; k] VNone) = true ->
       exists m' n1 n2,
         random_min_max rnd (get_nested sw [KStr "workflow_max"; node; k] VNone) n1
         = Ok (m', n2) /\
         qv x == cap_at (qv m') (floor_at (1 # 2) (rnd n * qs))).
Proof.
  intros U Hsw Hex Hv HS Hmin HM.
  destruct (scale_step sw node k (0 + (1 - 0) * rnd n) (S n) U HS)
    as [q2 [qs [n1 [Rs [Eq2 [Qs0 Qs1]]]]]].
  assert (E2 : q2 == rnd n * qs) by (rewrite Eq2; ring).
  destruct (py_max2_numbers (VFloat q2) (VFloat (1 # 2)) eq_refl eq_refl)
    as [v3 [Hv3 [N3 Q3]]].
  change (qv (VFloat (1 # 2))) with (1 # 2) in Q3.
  change (qv (VFloat q2)) with q2 in Q3.
  assert (B3 : 1 # 2 <= qv v3) by (rewrite Q3; apply floor_at_le).
  destruct (cap_step sw node k (1 # 2) v3 n1 U HM N3 B3)
    as [x [n2 [Rm [Nx [Bx [M0 M1]]]]]].
  destruct (set_exists_resolved [node; KStr "inputs"; k] (workflow_api st) v0 x VNone Hex)
    as [wf' [Hset Hget]].
  exists (with_workflow_api st wf'), n2, x, qs.
  split.
  - unfold set_workflow_func_random2. cbn [foldM]. unfold mbind at 1.
    assert (Body : resolve_param rnd node (Some (random_min_max rnd)) func st k n
                   = Ok (with_workflow_api st wf', n2)); [|now rewrite Body].
    unfold resolve_param. unfold mbind at 1. unfold lift at 1.
    rewrite Hsw. cbn [as_dict]. cbv zeta in Hv. rewrite Hv.
    unfold mbind at 1.
    change (random_min_max rnd (VList [VFloat 0; VFloat 1]) n)
      with (Ok (VFloat (0 + (1 - 0) * rnd n), S n)).
    unfold mbind at 1. rewrite Rs.
    unfold mbind at 1.
    assert (Rmin : post_process rnd sw "workflow_min" node k py_max2 (VFloat q2) n1
                   = Ok (v3, n1)).
    { unfold post_process. rewrite Hmin. cbn [truthy Qis_zero Qeq_bool negb].
      unfold mbind, lift. cbn [random_min_max ret]. now rewrite Hv3. }
    rewrite Rmin. unfold mbind. rewrite Rm.
    unfold ret, set_workflow. now rewrite Hset.
  - split; [exact Hget|]. split; [exact Nx|]. split; [exact Bx|].
    split; [exact Qs0|]. split.
    + intro T. destruct (Qs1 T) as [s' [R E]]. now exists s', n1.
    + split.
      * intro T. rewrite (M0 T), Q3. now apply floor_at_compat.
      * intro T. destruct (M1 T) as [m' [R E]]. exists m', n1, n2.
        split; [exact R|]. rewrite E, Q3. apply cap_at_compat. now apply floor_at_compat.
Qed.

End Resolver.

Section ResolverSamples.

Lemma min_setting_floors_parameter_witness :
  exists st' n' x qs,
    set_workflow_func_random2 (fun _ => 1 # 4) (KStr "Node") [KStr "strength"]
      (Some (random_min_max (fun _ => 1 # 4))) None strength_state 0%nat
    = Ok (st', n') /\
    get_workflow st' (KStr "Node") (KStr "strength") = x /\
    is_number x = true /\
    1 # 2 <= qv x /\
    (truthy (get_nested strength_setup
               [KStr "workflow_scale"; KStr "Node"; KStr "strength"] VNone) = false ->
     qs == 1) /\
    (truthy (get_nested strength_setup
               [KStr "workflow_scale"; KStr "Node"; KStr "strength"] VNone) = true ->
       exists s' n1,
         random_min_max (fun _ => 1 # 4)
           (get_nested strength_setup
              [KStr "workflow_scale"; KStr "Node"; KStr "strength"] VNone) 1%nat
         = Ok (s', n1) /\ qs == qv s') /\
    (truthy (get_nested strength_setup
               [KStr "workflow_max"; KStr "Node"; KStr "strength"] VNone) = false ->
       qv x == floor_at (1 # 2) ((1 # 4) * qs)) /\
    (truthy (get_nested strength_setup
               [KStr "workflow_max"; KStr "Node"; KStr "strength"] VNone) = true ->
       exists m' n1 n2,
         random_min_max (fun _ => 1 # 4)
           (get_nested strength_setup
              [KStr "workflow_max"; KStr "Node"; KStr "strength"] VNone) n1
         = Ok (m', n2) /\
         qv x == cap_at (qv m') (floor_at (1 # 2) ((1 # 4) * qs))).
Proof.
  apply (min_setting_floors_parameter (fun _ => 1 # 4) strength_state strength_setup
           (KStr "Node") (KStr "strength") None (VList [VFloat 0; VFloat 1]) 0%nat).
  - intro n. split; [discriminate | reflexivity].
  - reflexivity.
  - reflexivity.
  - reflexivity.
  - reflexivity.
  - reflexivity.
  - reflexivity.
Defined.

(** The callers of [set_workflow_func_random2] build the key list with
    [get_type_list] from the node's own values: a parameter whose template
    value is a list is in neither list, so a pass over the node leaves the
    range in place and draws nothing for it. *)
Lemma template_range_not_listed :
  get_type_list (VDict [(KStr "strength", VList [VFloat 0; VFloat 1])]) NumbersNotBool = [] /\
  get_type_list (VDict [(KStr "strength", VList [VFloat 0; VFloat 1])]) StrOrBool = [] /\
  exists st' n',
    resolve_node (fun _ => 1 # 4) strength_state (KStr "Node") 0%nat = Ok (st', n') /\
    get_workflow st' (KStr "Node") (KStr "strength") = VList [VFloat 0; VFloat 1].
Proof.
  split; [reflexivity|]. split; [reflexivity|].
  eexists. eexists. split; [vm_compute; reflexivity | reflexivity].
Qed.

End ResolverSamples.

(** ** Selection with a single base model *)

Section SingleModel.

Variable rnd : nat -> Q.
Hypothesis U : unit_oracle rnd.

Lemma py_gt_number_float (p : value) (r : Q) :
  is_number p = true -> py_gt p (VFloat r) = Ok (Qlt_bool r (qv p)).
Proof.
  intro H. unfold py_gt. now rewrite py_lt_numbers by (exact H || reflexivity).
Qed.

Lemma choice_single {A} (x : A) (n : nat) : choice rnd [x] n = Ok (x, S n).
Proof.
  destruct (U n) as [U0 U1].
  pose proof (floor_in_width (rnd n) 1 U0 U1 ltac:(lia)) as W.
  unfold choice, mbind, random.
  change (Z.of_nat (List.length [x])) with 1%Z.
  replace (Qfloor (rnd n * inject_Z 1)) with 0%Z by lia.
  reflexivity.
Qed.

(** A weight table with one entry of positive weight: the draw is that
    entry. *)
Lemma random_weight_count_single (k : key) (w : value) (n : nat) :
  is_number w = true -> 0 < qv w ->
  random_weight_count rnd (VDict [(k, w)]) (VInt 1) n = Ok ([k], S n).
Proof.
  intros Nw Pw. unfold random_weight_count.
  cbn [dict_values dict_keys map snd fst forallb]. rewrite Nw. cbn [andb].
  unfold choices, mbind, lift. cbn [accumulate]. rewrite (qv_to_Q w Nw).
  cbn [bind List.length Nat.eqb negb rev app].
  replace (Qle_bool (0 + qv w) 0) with false.
  - reflexivity.
  - symmetry. destruct (Qle_bool (0 + qv w) 0) eqn:E; [|reflexivity].
    apply Qle_bool_iff in E. lra.
Qed.

Lemma bootstrap_without_start (st : automation) (types : value) :
  dict_get (config st) (KStr "safetensorsStart") = None ->
  bootstrap st types = Ok None.
Proof.
  intro H. unfold bootstrap, get_config, dict_get_default. rewrite H.
  now destruct (is_first st).
Qed.

Lemma checkpoint_change_single (st : automation) (n : nat) :
  single_model_state st ->
  exists n',
    checkpoint_change rnd st n
    = Ok (with_checkpoint st false (KStr "X") (VStr "m1") (VStr "X/m1.safetensors"), n').
Proof.
  intros [[[w [Ht [Nw Pw]]] [Hs [Pc _]]] Htd].
  unfold checkpoint_change.
  rewrite bootstrap_without_start by exact Hs.
  unfold get_config at 1. unfold dict_get_default at 1. rewrite Ht.
  unfold mbind at 1. cbn [lift].
  unfold mbind at 1. rewrite (random_weight_count_single (KStr "X") w n Nw Pw).
  unfold mbind at 1. cbn [lift first].
  unfold mbind at 1. cbn [random].
  unfold get_config, mbind at 1.
  cbn [config with_checkpoint].
  rewrite (py_gt_number_float _ (rnd (S n)) Pc). cbn [lift].
  unfold get_now. cbn [type_dics checkpoint_type with_checkpoint]. rewrite Htd.
  destruct (Qlt_bool (rnd (S n)) _).
  - exists (S (S (S n))).
    change (get_nested single_model_store [KStr "X"; KStr "WeightCheckpoint"] (VDict []))
      with (VDict [(KStr "m1", VInt 1)]).
    change (get_nested single_model_store [KStr "X"; KStr "CheckpointFileNames"] (VList []))
      with (VList [VStr "m1"]).
    cbn [truthy negb].
    unfold mbind at 1. unfold mbind at 1. cbn [lift py_len List.length Z.of_nat].
    change (Z.ltb 0 (Z.pos (Pos.of_succ_nat 0))) with true. cbv iota.
    unfold mbind at 1.
    rewrite (random_weight_count_single (KStr "m1") (VInt 1) (S (S n)) eq_refl ltac:(reflexivity)).
    reflexivity.
  - exists (S (S (S n))).
    change (get_nested single_model_store [KStr "X"; KStr "WeightCheckpoint"] (VDict []))
      with (VDict [(KStr "m1", VInt 1)]).
    change (get_nested single_model_store [KStr "X"; KStr "CheckpointFileNames"] (VList []))
      with (VList [VStr "m1"]).
    cbn [truthy negb].
    unfold mbind at 1. unfold mbind at 1. cbn [lift as_list].
    unfold mbind at 1.
    change (sub_names [VStr "m1"] (VDict [(KStr "m1", VInt 1)])) with (@Ok (list value) []).
    cbn [lift]. unfold choice_of, mbind at 1. cbn [lift as_list].
    rewrite choice_single. reflexivity.
Qed.

Lemma char_change_without_chars (st : automation) (n : nat) :
  single_model_state st ->
  checkpoint_type st = KStr "X" ->
  exists n',
    char_change rnd st n
    = Ok (if Qlt_bool (rnd n) (qv (get_config st "noCharPer" (VFloat (1 # 2))))
          then with_char st true (VStr "noChar") VNone
          else with_char st false VNone VNone, n').
Proof.
  intros [[_ [_ [_ [Pn [Pw _]]]]] Htd] Hct.
  unfold char_change.
  unfold mbind at 1. cbn [random].
  unfold mbind at 1. unfold get_config at 1.
  rewrite (py_gt_number_float _ (rnd n) Pn). cbn [lift].
  unfold get_now. rewrite Htd, Hct.
  change (get_nested single_model_store [KStr "X"; KStr "CharFileNames"] (VList []))
    with (VList []).
  change (get_nested single_model_store [KStr "X"; KStr "WeightChar"] (VDict []))
    with (VDict []).
  change (get_nested single_model_store [KStr "X"; KStr "CharFileLists"] (VList []))
    with (VList []).
  unfold get_config.
  destruct (Qlt_bool (rnd n) _).
  - exists (S n). reflexivity.
  - unfold mbind at 1. cbn [random].
    unfold mbind at 1.
    rewrite (py_gt_number_float _ (rnd (S n)) Pw). cbn [lift].
    exists (S (S n)).
    destruct (Qlt_bool (rnd (S n)) _); reflexivity.
Qed.

Lemma lora_change_without_rules (st : automation) (n : nat) :
  single_model_state st ->
  checkpoint_type st = KStr "X" ->
  exists n' flag, lora_change rnd st n = Ok (with_lora st flag [] [], n').
Proof.
  intros [[_ [_ [_ [_ [_ Pl]]]]] Htd] Hct.
  unfold lora_change.
  unfold mbind at 1. cbn [random].
  unfold mbind at 1. unfold get_config at 1.
  rewrite (py_gt_number_float _ (rnd n) Pl). cbn [lift].
  unfold get_now. rewrite Htd, Hct.
  change (get_nested single_model_store [KStr "X"; KStr "WeightLora"] (VDict []))
    with (VDict []).
  destruct (Qlt_bool (rnd n) _).
  - exists (S n), true. reflexivity.
  - exists (S n), false. reflexivity.
Qed.

(** C3, claim as stated, fails: with the default probabilities and every
    draw equal to [1/2], the coin for "no character" comes out false, a
    character is wanted, none exists, and the selected character name is
    [None] with the "no character" flag off, not the sentinel. *)
Lemma selection_without_sentinel :
  exists st' n',
    select (fun _ => 1 # 2) single_model_start 0%nat = Ok (st', n') /\
    checkpoint_name st' = VStr "m1" /\
    loras_set st' = [] /\
    char_name st' = VNone /\
    no_char st' = false.
Proof.
  eexists. eexists. split; [vm_compute; reflexivity|].
  repeat split.
Qed.

(** C3, amended.  In the scenario, every round of selection succeeds and
    yields the base model [m1] of category [X] with its path, an empty
    overlay set and no character path.  The character is the sentinel
    ["noChar"], with the "no character" flag on, exactly when the draw for
    [noCharPer] falls below that probability; otherwise the name is [None]
    and the flag is off. *)
Theorem selection_with_single_model (st : automation) (n : nat) :
  single_model_state st ->
  exists st' n',
    select rnd st n = Ok (st', n') /\
    checkpoint_type st' = KStr "X" /\
    checkpoint_name st' = VStr "m1" /\
    checkpoint_path st' = VStr "X/m1.safetensors" /\
    loras_set st' = [] /\
    char_path st' = VNone /\
    ((no_char st' = true /\ char_name st' = VStr "noChar") \/
     (no_char st' = false /\ char_name st' = VNone)) /\
    (exists m, no_char st'
               = Qlt_bool (rnd m) (qv (get_config st "noCharPer" (VFloat (1 # 2))))).
Proof.
  intro S0.
  destruct (checkpoint_change_single st n S0) as [n1 H1].
  set (st1 := with_checkpoint st false (KStr "X") (VStr "m1") (VStr "X/m1.safetensors")) in *.
  assert (S1 : single_model_state st1) by exact S0.
  destruct (char_change_without_chars st1 n1 S1 eq_refl) as [n2 H2].
  set (st2 := if Qlt_bool (rnd n1) (qv (get_config st1 "noCharPer" (VFloat (1 # 2))))
              then with_char st1 true (VStr "noChar") VNone
              else with_char st1 false VNone VNone) in *.
  assert (S2 : single_model_state st2 /\ checkpoint_type st2 = KStr "X").
  { unfold st2. destruct (Qlt_bool _ _); split; (exact S0 || reflexivity). }
  destruct S2 as [S2 C2].
  destruct (lora_change_without_rules st2 n2 S2 C2) as [n3 [flag H3]].
  exists (with_lora st2 flag [] []), n3.
  split.
  - unfold select, mbind. now rewrite H1, H2, H3.
  - unfold st2. change (get_config st1) with (get_config st).
    destruct (Qlt_bool (rnd n1) (qv (get_config st "noCharPer" (VFloat (1 # 2))))) eqn:E;
      repeat split; try (now left); try (now right); exists n1; now rewrite E.
Qed.

End SingleModel.

Lemma selection_with_single_model_witness :
  exists st' n',
    select (fun _ => 1 # 4) single_model_start 0%nat = Ok (st', n') /\
    checkpoint_type st' = KStr "X" /\
    checkpoint_name st' = VStr "m1" /\
    checkpoint_path st' = VStr "X/m1.safetensors" /\
    loras_set st' = [] /\
    char_path st' = VNone /\
    ((no_char st' = true /\ char_name st' = VStr "noChar") \/
     (no_char st' = false /\ char_name st' = VNone)) /\
    (exists m, no_char st'
               = Qlt_bool ((fun _ : nat => 1 # 4) m)
                   (qv (get_config single_model_start "noCharPer" (VFloat (1 # 2))))).
Proof.
  apply (selection_with_single_model (fun _ => 1 # 4)).
  - intro n. split; [discriminate | reflexivity].
  - split; [|reflexivity].
    split; [exists (VInt 1); repeat split|]; repeat split.
Defined.

(** ** Weight tables and the catalog at initialisation *)

Section Initialisation.

(** Given the store it reads, [_get_weight_checkpoint] succeeds and fills
    the table, for every name of the name list, by the three layers: the
    truthy [weight] of the record held in the store, else the entry of the
    weight file, else the configured default (150 when none is
    configured). *)
Lemma weight_table_entries (cfg td : dict) (ct : key) (yk dk : string) (weight_yml : dict)
  (names : list value) :
  forall acc ks,
    keys_of_values names = Ok ks ->
    exists wc,
      weight_table cfg td ct yk dk weight_yml names acc = Ok wc /\
      (forall k, In k ks ->
                 dict_get wc k = Some (weight_for cfg td ct yk dk weight_yml k)) /\
      (forall k, ~ In k ks -> dict_get wc k = dict_get acc k).
Proof.
  induction names as [|x names IH]; intros acc ks HK.
  - inversion HK; subst. exists acc.
    split; [reflexivity|]. split; [intros k []|reflexivity].
  - simpl in HK. simpl.
    destruct (to_key x) as [k0|] eqn:Ek; [|discriminate]. simpl in *.
    destruct (keys_of_values names) as [ks'|] eqn:Eks; [|discriminate].
    inversion HK; subst ks.
    destruct (IH (dict_set k0 (weight_for cfg td ct yk dk weight_yml k0) acc) ks' eq_refl)
      as [wc [Hwc [Hin Hout]]].
    exists wc. split; [exact Hwc|]. split.
    + intros k [<-|Hk].
      * destruct (in_dec key_eq_dec k0 ks') as [I|NI].
        -- now apply Hin.
        -- rewrite (Hout k0 NI). apply dict_get_set_same.
      * now apply Hin.
    + intros k NI. rewrite Hout by (intro H; apply NI; now right).
      apply dict_get_set_other. apply key_eqb_neq. intro E. apply NI. now left.
Qed.

(** The layers of the base-model weight table, for the store as it is when
    the table is built: [_get_weight_checkpoint] succeeds, and the entry of
    each name of the name list is the [weight] of its record in the store
    when that is truthy, else its entry in the weight file when it has one,
    else the configured default (150 without one); a falsy record weight,
    [0] for one, is passed over. *)
Lemma weight_checkpoint_layers (cfg td c : dict) (ct : key) (weight_yml : dict)
  (names : list value) (ks : list key) :
  dict_get td ct = Some (VDict c) ->
  dict_get c (KStr "CheckpointFileNames") = Some (VList names) ->
  keys_of_values names = Ok ks ->
  exists td',
    _get_weight_checkpoint cfg weight_yml ct td = Ok td' /\
    forall k, In k ks ->
      let record_weight := get_nested td [ct; KStr "dicCheckpointYml"; k; KStr "weight"] VNone in
      let entry := get_nested td' [ct; KStr "WeightCheckpoint"; k] VNone in
      (truthy record_weight = true -> entry = record_weight) /\
      (truthy record_weight = false ->
       forall w, dict_get weight_yml k = Some w -> entry = w) /\
      (truthy record_weight = false -> dict_get weight_yml k = None ->
       entry = dict_get_default cfg (KStr "CheckpointWeightDefault") (VInt 150)).
Proof.
  intros Hct Hn HK.
  destruct (weight_table_entries cfg td ct "dicCheckpointYml" "CheckpointWeightDefault"
              weight_yml names [] ks HK) as [wc [Hwc [Hin _]]].
  exists (dict_set ct (VDict (dict_set (KStr "WeightCheckpoint") (VDict wc) c)) td).
  split.
  - unfold _get_weight_checkpoint. rewrite get_nested_two.
    unfold dict_get_default at 1. rewrite Hct. unfold dict_mem, dict_get_default.
    rewrite Hn. cbn [as_list bind]. rewrite Hwc. cbn [bind].
    now apply set_nested_two.
  - intros k Hk record_weight entry.
    assert (E : entry = weight_for cfg td ct "dicCheckpointYml" "CheckpointWeightDefault"
                          weight_yml k).
    { unfold entry.
      change (get_nested ?d [ct; KStr "WeightCheckpoint"; k] VNone)
        with (match dict_get_default d ct VNone with
              | VDict next => get_nested next [KStr "WeightCheckpoint"; k] VNone
              | _ => VNone
              end).
      rewrite dict_get_default_set_same, get_nested_two, dict_get_default_set_same.
      unfold dict_mem, dict_get_default. now rewrite (Hin k Hk). }
    rewrite E. unfold weight_for. fold record_weight.
    unfold dict_mem, dict_get_default.
    repeat split.
    + intro T. now rewrite T.
    + intros T w Hw. now rewrite T, Hw.
    + intros T Hw. now rewrite T, Hw.
Qed.

(** C2.  [init] builds the weight table of a category before it loads the
    attribute records: for the base model [m1] whose record sets
    [weight: 5], with an empty weight file and no configured default, the
    table built at initialisation holds 150 for [m1], although the record
    with its weight is in the store once [init] is over. *)
Theorem init_builds_table_before_records :
  exists td,
    init_type [] record_weight_disk true (KStr "X") [] = Ok td /\
    get_nested td [KStr "X"; KStr "dicCheckpointYml"; KStr "m1"; KStr "weight"] VNone = VInt 5 /\
    get_nested td [KStr "X"; KStr "WeightCheckpoint"; KStr "m1"] VNone = VInt 150.
Proof.
  eexists. split; [vm_compute; reflexivity|]. split; reflexivity.
Qed.

(** A record weight that is present but falsy is passed over as well. *)
Lemma zero_record_weight_passed_over :
  weight_for [] [(KStr "X", VDict [(KStr "dicCheckpointYml",
                                     VDict [(KStr "m1", VDict [(KStr "weight", VInt 0)])])])]
    (KStr "X") "dicCheckpointYml" "CheckpointWeightDefault" [(KStr "m1", VInt 7)] (KStr "m1")
  = VInt 7.
Proof. reflexivity. Qed.

(** C6.  The recursive scan lists one name per file: two files with the
    same name in different directories put that name twice in the flat name
    list, against one key in the name-to-path map.  After a "deleted" event
    for one of the files the name is still in the flat name list and no
    longer a key of the map. *)
Theorem scan_lists_a_name_twice :
  get_file_dict_list same_stem_files
  = ([(KStr "foo", VStr "X/char/sub/foo.safetensors")],
     ["X/char/foo.safetensors"; "X/char/sub/foo.safetensors"],
     ["foo"; "foo"]) /\
  exists td st,
    get_safetensors Char same_stem_files (KStr "X") [(KStr "X", VDict [])] = Ok td /\
    update_safetensors ["X"; "char"; "foo.safetensors"] Deleted Char
      (sample_state td (KStr "X")) = Ok st /\
    view_names Char st = VList [VStr "foo"] /\
    view_dics Char st = VDict [].
Proof.
  split; [reflexivity|].
  eexists. eexists. split; [vm_compute; reflexivity|].
  split; [vm_compute; reflexivity|]. split; reflexivity.
Qed.

End Initialisation.

(** ** Auxiliary overlays drawn by weight *)

Section WeightRule.

Variable rnd : nat -> Q.
Hypothesis U : unit_oracle rnd.

Variables k1 k2 k3 : key.
Variables l1 l2 l3 : string.
Variable w : value.

Hypothesis Nw : is_number w = true.
Hypothesis Pw : 0 < qv w.
Hypothesis K12 : k1 <> k2.
Hypothesis K13 : k1 <> k3.
Hypothesis K23 : k2 <> k3.
Hypothesis L12 : l1 <> l2.
Hypothesis L13 : l1 <> l3.
Hypothesis L23 : l2 <> l3.

Lemma bisect_le (cum : list Q) (x : Q) (hi : nat) : (bisect cum x hi <= hi)%nat.
Proof.
  revert cum. induction hi as [|hi IH]; intro cum; destruct cum as [|c cum]; simpl; try lia.
  destruct (Qle_bool c x); [|lia]. specialize (IH cum). lia.
Qed.

Lemma drawn_third_le (r : Q) : (drawn_third (qv w) r <= 2)%nat.
Proof. apply bisect_le. Qed.

Lemma randint_two (m : nat) :
  random_min_max rnd (VList [VInt 2; VInt 2]) m = Ok (VInt 2, S m).
Proof.
  destruct (U m) as [U0 U1].
  pose proof (floor_in_width (rnd m) 1 U0 U1 ltac:(lia)) as W.
  unfold random_min_max. cbn [existsb is_float orb forallb is_int andb].
  unfold mbind, lift. cbn [py_min py_max py_min_from py_max_from].
  change (py_lt (VInt 2) (VInt 2)) with (@Ok bool false).
  change (py_gt (VInt 2) (VInt 2)) with (@Ok bool false).
  cbn [bind py_min_from py_max_from].
  unfold randint, mbind, lift, random. cbn [to_index].
  change (Z.ltb 2 2) with false. cbv iota.
  change (2 - 2 + 1)%Z with 1%Z. cbv beta.
  replace (Qfloor (rnd m * inject_Z 1)) with 0%Z by lia.
  reflexivity.
Qed.

Lemma draw_choices_step {A} (population : list A) (cum : list Q) (total : Q) (k m : nat) :
  draw_choices rnd population cum total (S k) m =
  match nth_error population (bisect cum (rnd m * total) (List.length population - 1)) with
  | Some v =>
      match draw_choices rnd population cum total k (S m) with
      | Ok (tl, n') => Ok (v :: tl, n')
      | Raise e => Raise e
      end
  | None => Raise IndexError
  end.
Proof.
  cbn [draw_choices]. unfold mbind, random.
  destruct (nth_error population _); reflexivity.
Qed.

(** The two draws of the "weight" strategy, with replacement. *)
Lemma choices_of_three (m : nat) :
  choices rnd [k1; k2; k3] [w; w; w] (VInt 2) m
  = Ok ([nth (drawn_third (qv w) (rnd m)) [k1; k2; k3] k1;
         nth (drawn_third (qv w) (rnd (S m))) [k1; k2; k3] k1], S (S m)).
Proof.
  unfold choices, mbind, lift. cbn [accumulate]. rewrite (qv_to_Q w Nw).
  cbn [bind List.length Nat.eqb negb rev app].
  replace (Qle_bool (0 + qv w + qv w + qv w) 0) with false.
  2:{ symmetry. destruct (Qle_bool (0 + qv w + qv w + qv w) 0) eqn:E; [|reflexivity].
      apply Qle_bool_iff in E. lra. }
  cbn [to_index]. change (Z.to_nat 2) with 2%nat.
  rewrite !draw_choices_step. cbn [List.length Nat.sub draw_choices ret].
  fold (drawn_third (qv w) (rnd m)). fold (drawn_third (qv w) (rnd (S m))).
  pose proof (drawn_third_le (rnd m)) as B1.
  pose proof (drawn_third_le (rnd (S m))) as B2.
  destruct (drawn_third (qv w) (rnd m)) as [|[|[|i]]]; [| | |lia];
    destruct (drawn_third (qv w) (rnd (S m))) as [|[|[|j]]]; try lia; reflexivity.
Qed.

Lemma weight_dict_of_three :
  weight_dict "weight" [(k1, candidate w l1); (k2, candidate w l2); (k3, candidate w l3)]
  = Ok [(k1, w); (k2, w); (k3, w)].
Proof. reflexivity. Qed.

Lemma keys_apart :
  key_eqb k1 k2 = false /\ key_eqb k2 k1 = false /\
  key_eqb k1 k3 = false /\ key_eqb k3 k1 = false /\
  key_eqb k2 k3 = false /\ key_eqb k3 k2 = false.
Proof. repeat split; apply key_eqb_neq; congruence. Qed.

Lemma names_apart :
  String.eqb l1 l2 = false /\ String.eqb l2 l1 = false /\
  String.eqb l1 l3 = false /\ String.eqb l3 l1 = false /\
  String.eqb l2 l3 = false /\ String.eqb l3 l2 = false.
Proof. repeat split; apply String.eqb_neq; congruence. Qed.

Lemma weight_pick_candidate (tmp : dict) (i : nat) (n : nat) :
  (i <= 2)%nat ->
  weight_pick rnd
    (VDict [(k1, candidate w l1); (k2, candidate w l2); (k3, candidate w l3)])
    tmp (nth i [k1; k2; k3] k1) n
  = Ok (dict_set (KStr (nth i [l1; l2; l3] l1)) (candidate w (nth i [l1; l2; l3] l1)) tmp, n).
Proof.
  destruct keys_apart as [E12 [E21 [E13 [E31 [E23 E32]]]]].
  intro B. unfold weight_pick, mbind, lift. cbn [as_dict].
  destruct i as [|[|[|i]]]; [| | |lia]; cbn [nth]; unfold dict_get_default at 1;
    simpl dict_get; rewrite ?key_eqb_refl, ?E21, ?E31, ?E32; reflexivity.
Qed.

Lemma set_of_pair (a b : key) :
  set_of [a; b] = if key_eqb b a then [a] else [a; b].
Proof.
  unfold set_of, set_add, key_mem. simpl. now destruct (key_eqb b a).
Qed.

Lemma set_of_one (a : key) : set_of [a] = [a].
Proof. reflexivity. Qed.

Lemma set_union_nil (l : list key) : set_union [] l = set_of l.
Proof. reflexivity. Qed.

Lemma merge_tags_candidate (tmp tw : dict) (k : key) (l : string) :
  dict_get tmp k = Some (candidate w l) -> merge_tags tmp tw k = Ok tw.
Proof. intro H. unfold merge_tags. rewrite H. reflexivity. Qed.

(** The rule, processed: three draws, and the names of the (one or two)
    candidates the two weighted draws selected. *)
Lemma lora_rule_by_weight (tw : dict) (rk : key) (m : nat) :
  lora_rule rnd (tw, []) (rk, weight_rule k1 k2 k3 l1 l2 l3 w) m
  = Ok ((tw, set_of [KStr (nth (drawn_third (qv w) (rnd (S m))) [l1; l2; l3] l1);
                     KStr (nth (drawn_third (qv w) (rnd (S (S m)))) [l1; l2; l3] l1)]),
        S (S (S m))).
Proof.
  destruct keys_apart as [E12 [E21 [E13 [E31 [E23 E32]]]]].
  destruct names_apart as [F12 [F21 [F13 [F31 [F23 F32]]]]].
  unfold lora_rule, weight_rule.
  cbn [snd py_len lift]. unfold mbind at 1. unfold mbind at 1. cbn [as_dict lift].
  cbn [dict_get_default dict_get key_eqb String.eqb Ascii.eqb Bool.eqb truthy].
  unfold mbind at 1. cbn [ret].
  unfold mbind at 1. unfold mbind at 1. rewrite randint_two.
  unfold mbind at 1. unfold random_dict_weight, mbind at 1.
  rewrite weight_dict_of_three. cbn [lift dict_keys dict_values map fst snd].
  rewrite choices_of_three.
  pose proof (drawn_third_le (rnd (S m))) as B1.
  pose proof (drawn_third_le (rnd (S (S m)))) as B2.
  set (i := drawn_third (qv w) (rnd (S m))) in *.
  set (j := drawn_third (qv w) (rnd (S (S m)))) in *.
  set (dic := VDict [(k1, candidate w l1); (k2, candidate w l2); (k3, candidate w l3)]).
  assert (Pick : forall tmp a n, (a <= 2)%nat ->
            weight_pick rnd dic tmp (nth a [k1; k2; k3] k1) n
            = Ok (dict_set (KStr (nth a [l1; l2; l3] l1))
                    (candidate w (nth a [l1; l2; l3] l1)) tmp, n))
    by (intros; now apply weight_pick_candidate).
  clearbody dic i j.
  destruct i as [|[|[|i]]]; [| | |lia]; destruct j as [|[|[|j]]]; try lia;
    cbn [nth]; rewrite !set_of_pair; cbn [key_eqb];
    rewrite ?key_eqb_refl, ?String.eqb_refl, ?E12, ?E21, ?E13, ?E31, ?E23, ?E32,
            ?F12, ?F21, ?F13, ?F31, ?F23, ?F32;
    cbn [foldM]; unfold mbind;
    repeat (first [ rewrite (Pick _ 0%nat) by lia
                  | rewrite (Pick _ 1%nat) by lia
                  | rewrite (Pick _ 2%nat) by lia ]; cbn [nth]);
    cbn [ret dict_set key_eqb];
    rewrite ?String.eqb_refl, ?F12, ?F21, ?F13, ?F31, ?F23, ?F32;
    cbn [dict_keys map fst]; unfold set_union; fold (set_of [KStr l1]);
    repeat match goal with
           | |- context [fold_left set_add ?l []] => change (fold_left set_add l []) with (set_of l)
           end;
    rewrite ?set_of_pair, ?set_of_one; cbn [key_eqb];
    rewrite ?String.eqb_refl, ?F12, ?F21, ?F13, ?F31, ?F23, ?F32;
    cbn [fold_result];
    repeat (erewrite merge_tags_candidate;
            [cbn [bind]
            | cbn [dict_get key_eqb];
              rewrite ?String.eqb_refl, ?F12, ?F21, ?F13, ?F31, ?F23, ?F32; reflexivity]);
    rewrite ?set_of_pair, ?set_of_one; cbn [key_eqb];
    rewrite ?String.eqb_refl, ?F12, ?F21, ?F13, ?F31, ?F23, ?F32;
    reflexivity.
Qed.

(** C1, amended.  When the run does not skip overlay selection, a rule
    with [weight: true] and [weightMax: [2, 2]] over three candidates of equal
    positive weight, naming three different overlays, is processed with two
    weighted draws with replacement, merged in a set: the run selects the
    overlays of the drawn candidates, two different names when the two draws
    fall on different candidates and a single name when they fall on the
    same one. *)
Theorem weight_rule_selects_one_or_two (st : automation) (rk : key) (n : nat) :
  get_now st [KStr "WeightLora"] (VDict []) = VDict [(rk, weight_rule k1 k2 k3 l1 l2 l3 w)] ->
  py_gt (get_config st "noLoraPer" (VFloat (1 # 2))) (VFloat (rnd n)) = Ok false ->
  let i := drawn_third (qv w) (rnd (S (S n))) in
  let j := drawn_third (qv w) (rnd (S (S (S n)))) in
  exists st',
    lora_change rnd st n = Ok (st', S (S (S (S n)))) /\
    no_lora st' = false /\
    loras_set st' = set_of [KStr (nth i [l1; l2; l3] l1); KStr (nth j [l1; l2; l3] l1)] /\
    NoDup (loras_set st') /\
    (i = j -> List.length (loras_set st') = 1%nat) /\
    (i <> j -> List.length (loras_set st') = 2%nat).
Proof.
  intros Hrules Hcoin i j.
  destruct names_apart as [F12 [F21 [F13 [F31 [F23 F32]]]]].
  exists (with_lora st false
            (set_of [KStr (nth i [l1; l2; l3] l1); KStr (nth j [l1; l2; l3] l1)]) []).
  split.
  - unfold lora_change. unfold mbind at 1. cbn [random].
    unfold mbind at 1. rewrite Hcoin. cbn [lift].
    unfold mbind at 1. rewrite Hrules. cbn [lift as_dict].
    unfold mbind at 1. cbn [foldM]. unfold mbind at 1.
    rewrite lora_rule_by_weight. reflexivity.
  - cbn [no_lora loras_set with_lora]. split; [reflexivity|]. split; [reflexivity|].
    pose proof (drawn_third_le (rnd (S (S n)))) as B1.
    pose proof (drawn_third_le (rnd (S (S (S n))))) as B2.
    fold i in B1. fold j in B2. clearbody i j.
    rewrite set_of_pair.
    destruct i as [|[|[|i]]]; [| | |lia]; destruct j as [|[|[|j]]]; try lia;
      cbn [nth key_eqb];
      rewrite ?String.eqb_refl, ?F12, ?F21, ?F13, ?F31, ?F23, ?F32;
      (split; [|split; intro H; (reflexivity || congruence || lia)]);
      repeat constructor; simpl; intuition congruence.
Qed.

End WeightRule.

(** C1, claim as stated, fails: with every draw equal to [1/2] the run
    processes the rule, both weighted draws fall on the second of the three
    equally weighted candidates, and the run selects one overlay name. *)
Lemma weight_rule_selects_one_name :
  exists st' n',
    lora_change (fun _ => 1 # 2) weight_rule_state 0%nat = Ok (st', n') /\
    no_lora st' = false /\
    loras_set st' = [KStr "l2"].
Proof.
  eexists. eexists. split; [vm_compute; reflexivity|]. split; reflexivity.
Qed.

Lemma weight_rule_selects_one_or_two_witness :
  exists st',
    lora_change two_names_oracle weight_rule_state 0%nat = Ok (st', 4%nat) /\
    no_lora st' = false /\
    loras_set st'
    = set_of [KStr (nth (drawn_third (qv (VInt 1)) (two_names_oracle 2%nat))
                      ["l1"; "l2"; "l3"] "l1");
              KStr (nth (drawn_third (qv (VInt 1)) (two_names_oracle 3%nat))
                      ["l1"; "l2"; "l3"] "l1")] /\
    NoDup (loras_set st') /\
    (drawn_third (qv (VInt 1)) (two_names_oracle 2%nat)
     = drawn_third (qv (VInt 1)) (two_names_oracle 3%nat) ->
     List.length (loras_set st') = 1%nat) /\
    (drawn_third (qv (VInt 1)) (two_names_oracle 2%nat)
     <> drawn_third (qv (VInt 1)) (two_names_oracle 3%nat) ->
     List.length (loras_set st') = 2%nat).
Proof.
  refine (weight_rule_selects_one_or_two two_names_oracle _ (KStr "a") (KStr "b") (KStr "c")
            "l1" "l2" "l3" (VInt 1) _ _ _ _ _ _ _ _ weight_rule_state (KStr "style") 0%nat _ _).
  - intro n. unfold two_names_oracle. destruct (Nat.eqb n 2); split; (discriminate || reflexivity).
  - reflexivity.
  - reflexivity.
  - discriminate.
  - discriminate.
  - discriminate.
  - discriminate.
  - discriminate.
  - discriminate.
  - reflexivity.
  - reflexivity.
Defined.

(** ** Writes and removals along a path *)

Section PathWrites.

Lemma dict_keys_set_present (k : key) (v : value) (d : dict) :
  dict_mem d k = true -> dict_keys (dict_set k v d) = dict_keys d.
Proof.
  unfold dict_mem. induction d as [|[k0 v0] d IH]; simpl; [discriminate|].
  destruct (key_eqb k k0) eqn:E; simpl; [reflexivity|].
  intro H. now rewrite IH.
Qed.

Lemma resolve_path_cons (d : dict) (k k2 : key) (rest : list key) :
  resolve_path d (k :: k2 :: rest)
  = match dict_get d k with
    | Some (VDict next) => resolve_path next (k2 :: rest)
    | _ => None
    end.
Proof. reflexivity. Qed.

Lemma set_exists_cons (d : dict) (v : value) (k k2 : key) (rest : list key) :
  set_exists d v (k :: k2 :: rest)
  = match dict_get d k with
    | Some (VDict next) =>
        match set_exists next v (k2 :: rest) with
        | Some next' => Some (dict_set k (VDict next') d)
        | None => None
        end
    | _ => None
    end.
Proof. reflexivity. Qed.

(** [set_exists] writes only where the whole path is already there: it
    returns [None] exactly when the path does not resolve through nested
    mappings, and otherwise returns the root in which the path resolves to
    the new value while the root has the same keys in the same order, so no
    key is ever created. *)
Theorem set_exists_writes_only_present (keys : list key) (wf : dict) (v : value) :
  (set_exists wf v keys = None <-> resolve_path wf keys = None) /\
  (forall wf', set_exists wf v keys = Some wf' ->
     resolve_path wf' keys = Some v /\ dict_keys wf' = dict_keys wf).
Proof.
  revert wf. induction keys as [|k rest IH]; intro wf.
  - simpl. split; [tauto | discriminate].
  - destruct rest as [|k2 rest].
    + simpl. unfold dict_mem. destruct (dict_get wf k) eqn:G.
      * split; [split; discriminate|].
        intros wf' H. inversion H; subst. split.
        -- apply dict_get_set_same.
        -- apply dict_keys_set_present. unfold dict_mem. now rewrite G.
      * split; [tauto | discriminate].
    + rewrite set_exists_cons, resolve_path_cons.
      destruct (dict_get wf k) as [x|] eqn:G; [|split; [tauto | discriminate]].
      destruct x; try (split; [tauto | discriminate]).
      destruct (IH d) as [I1 I2].
      destruct (set_exists d v (k2 :: rest)) as [next'|] eqn:S.
      * split.
        -- split; [discriminate|]. intro H. apply I1 in H. discriminate.
        -- intros wf' H. inversion H; subst.
           destruct (I2 next' eq_refl) as [R _]. split.
           ++ rewrite resolve_path_cons, dict_get_set_same. exact R.
           ++ apply dict_keys_set_present. unfold dict_mem. now rewrite G.
      * split; [|discriminate]. split; [|reflexivity]. intros _. now apply I1.
Qed.

Lemma unique_along_head (d : dict) (keys : list key) :
  unique_along d keys = true -> unique_keys d = true.
Proof. destruct keys; simpl; rewrite andb_true_iff; tauto. Qed.

Lemma dict_get_pop_same (k : key) (d : dict) :
  unique_keys d = true -> dict_get (dict_pop k d) k = None.
Proof.
  induction d as [|[k0 v0] d IH]; simpl; [reflexivity|].
  rewrite andb_true_iff, negb_true_iff. intros [Hk Hd].
  destruct (key_eqb k k0) eqn:E.
  - apply key_eqb_eq in E. subst k0.
    destruct (dict_get d k) eqn:G; [|reflexivity].
    assert (In k (dict_keys d)).
    { clear - G. induction d as [|[k1 v1] d IH]; simpl in *; [discriminate|].
      destruct (key_eqb k k1) eqn:E; [left; symmetry; now apply key_eqb_eq | right; auto]. }
    apply key_mem_In in H. congruence.
  - simpl. rewrite E. now apply IH.
Qed.

Lemma pop_nested_cons (d : dict) (k k2 k3 : key) (rest : list key) (dflt : value) :
  pop_nested d (k :: k2 :: k3 :: rest) dflt
  = match dict_get d k with
    | Some (VDict next) =>
        r <- pop_nested next (k2 :: k3 :: rest) dflt ;;
        Ok (fst r, dict_set k (VDict (snd r)) d)
    | _ => Ok (dflt, d)
    end.
Proof. reflexivity. Qed.

(** Removing what a path of two or more keys resolves to: [pop_nested]
    returns the value [resolve_path] finds there, and in the root it leaves
    the path no longer resolves, so [get_nested] gives the default and a
    second removal returns the default. *)
Theorem pop_nested_removes_entry (keys : list key) (d : dict) (v dflt : value) :
  (2 <= List.length keys)%nat ->
  unique_along d keys = true ->
  resolve_path d keys = Some v ->
  exists d',
    pop_nested d keys dflt = Ok (v, d') /\
    resolve_path d' keys = None /\
    get_nested d' keys VNone = VNone /\
    pop_nested d' keys dflt = Ok (dflt, d').
Proof.
  revert d. induction keys as [|k rest IH]; intros d L U R; [simpl in L; lia|].
  destruct rest as [|k2 rest]; [simpl in L; lia|].
  destruct rest as [|k3 rest].
  - clear IH L. simpl in R. simpl in U.
    destruct (dict_get d k) as [x|] eqn:G; [|discriminate].
    destruct x; try discriminate.
    rename d0 into parent.
    rewrite !andb_true_iff in U. destruct U as [Ud Up].
    assert (Upar : unique_keys parent = true).
    { tauto. }
    exists (dict_set k (VDict (dict_pop k2 parent)) d).
    assert (P : dict_get (dict_pop k2 parent) k2 = None) by now apply dict_get_pop_same.
    split; [|split; [|split]].
    + simpl. rewrite G. unfold dict_get_default. now rewrite R.
    + simpl. now rewrite dict_get_set_same.
    + simpl. unfold dict_get_default. rewrite dict_get_set_same.
      unfold dict_mem. now rewrite P.
    + simpl. rewrite dict_get_set_same. unfold dict_get_default. rewrite P.
      rewrite dict_set_set.
      assert (E : dict_pop k2 (dict_pop k2 parent) = dict_pop k2 parent).
      { clear - P. induction (dict_pop k2 parent) as [|[k0 v0] l IHl]; simpl in *; [reflexivity|].
        destruct (key_eqb k2 k0); [discriminate|]. now rewrite IHl. }
      now rewrite E.
  - rewrite resolve_path_cons in R.
    assert (Ud : unique_keys d = true) by now apply (unique_along_head d (k :: k2 :: k3 :: rest)).
    destruct (dict_get d k) as [x|] eqn:G; [|discriminate].
    destruct x; try discriminate. rename d0 into next.
    assert (Un : unique_along next (k2 :: k3 :: rest) = true).
    { change (unique_along d (k :: k2 :: k3 :: rest))
        with (unique_keys d &&
              match dict_get d k with
              | Some (VDict nx) => unique_along nx (k2 :: k3 :: rest)
              | _ => true
              end) in U.
      rewrite G, andb_true_iff in U. tauto. }
    destruct (IH next ltac:(simpl; lia) Un R) as [next' [P1 [P2 [P3 P4]]]].
    exists (dict_set k (VDict next') d).
    split; [|split; [|split]].
    + rewrite pop_nested_cons, G, P1. reflexivity.
    + now rewrite resolve_path_cons, dict_get_set_same.
    + change (get_nested (dict_set k (VDict next') d) (k :: k2 :: k3 :: rest) VNone)
        with (match dict_get_default (dict_set k (VDict next') d) k VNone with
              | VDict nx => get_nested nx (k2 :: k3 :: rest) VNone
              | _ => VNone
              end).
      now rewrite dict_get_default_set_same.
    + rewrite pop_nested_cons, dict_get_set_same, P4. simpl. now rewrite dict_set_set.
Qed.

Lemma pop_nested_removes_entry_witness :
  exists d',
    pop_nested [(KStr "SaveImage1",
                  VDict [(KStr "inputs", VDict [(KStr "images", VStr "x")])])]
      [KStr "SaveImage1"; KStr "inputs"; KStr "images"] VNone = Ok (VStr "x", d') /\
    resolve_path d' [KStr "SaveImage1"; KStr "inputs"; KStr "images"] = None /\
    get_nested d' [KStr "SaveImage1"; KStr "inputs"; KStr "images"] VNone = VNone /\
    pop_nested d' [KStr "SaveImage1"; KStr "inputs"; KStr "images"] VNone = Ok (VNone, d').
Proof.
  apply (pop_nested_removes_entry [KStr "SaveImage1"; KStr "inputs"; KStr "images"]
           [(KStr "SaveImage1", VDict [(KStr "inputs", VDict [(KStr "images", VStr "x")])])]
           (VStr "x") VNone).
  - simpl. lia.
  - reflexivity.
  - reflexivity.
Defined.

End PathWrites.

(** ** Recursive merge *)

Section Merging.

Lemma update_dict_cons (k : key) (v : value) (rest : dict) (d : value) :
  update_dict (VDict ((k, v) :: rest)) d
  = match v with
    | VDict _ =>
        match d with
        | VDict dd =>
            sub <- update_dict v (dict_get_default dd k (VDict [])) ;;
            d' <- py_setitem d k sub ;;
            update_dict (VDict rest) d'
        | _ => Raise AttributeError
        end
    | _ => d' <- py_setitem d k v ;; update_dict (VDict rest) d'
    end.
Proof. destruct v; reflexivity. Qed.

Lemma dict_get_In_keys (d : dict) (k : key) (v : value) :
  dict_get d k = Some v -> In k (dict_keys d).
Proof.
  induction d as [|[k1 v1] d IH]; simpl; [discriminate|].
  destruct (key_eqb k k1) eqn:E; [left; symmetry; now apply key_eqb_eq | right; auto].
Qed.

(** [update_dict] merges key by key.  When [u] and [d] are dictionaries and
    every sub-mapping of [u] merges into what [d] holds under the same key
    ([{}] when it holds nothing), the merge returns a dictionary in which a
    key [u] does not have is as in [d], a key [u] gives a plain value has
    that value, and a key [u] gives a mapping has the merge of that mapping
    into the entry of [d]. *)
Theorem update_dict_merges_by_key (u d : dict) :
  unique_keys u = true ->
  (forall k u2, dict_get u k = Some (VDict u2) ->
     exists sub, update_dict (VDict u2) (dict_get_default d k (VDict [])) = Ok sub) ->
  exists d',
    update_dict (VDict u) (VDict d) = Ok (VDict d') /\
    forall k,
      match dict_get u k with
      | None => dict_get d' k = dict_get d k
      | Some (VDict u2) =>
          exists sub,
            update_dict (VDict u2) (dict_get_default d k (VDict [])) = Ok sub /\
            dict_get d' k = Some sub
      | Some v => dict_get d' k = Some v
      end.
Proof.
  revert d. induction u as [|[k0 v0] u IH]; intros d U S.
  - exists d. split; [reflexivity|]. intro k. reflexivity.
  - simpl in U. rewrite andb_true_iff, negb_true_iff in U. destruct U as [Hk Hu].
    assert (Fresh : dict_get u k0 = None).
    { destruct (dict_get u k0) eqn:G; [|reflexivity].
      apply dict_get_In_keys, key_mem_In in G. congruence. }
    assert (Step : exists x,
               (match v0 with
                | VDict _ => update_dict v0 (dict_get_default d k0 (VDict [])) = Ok x
                | _ => x = v0
                end) /\
               update_dict (VDict ((k0, v0) :: u)) (VDict d)
               = update_dict (VDict u) (VDict (dict_set k0 x d))).
    { rewrite update_dict_cons.
      destruct v0; try (eexists; split; [reflexivity|]; reflexivity).
      destruct (S k0 d0) as [sub Hs]; [simpl; now rewrite key_eqb_refl|].
      exists sub. split; [exact Hs|]. now rewrite Hs. }
    destruct Step as [x [Hx Eq]].
    destruct (IH (dict_set k0 x d) Hu) as [d' [Hd' Hall]].
    { intros k u2 G.
      assert (N : key_eqb k k0 = false).
      { apply key_eqb_neq. intro; subst. congruence. }
      unfold dict_get_default. rewrite dict_get_set_other by exact N.
      apply (S k u2). simpl. now rewrite N. }
    exists d'. split; [now rewrite Eq|].
    intro k. simpl. destruct (key_eqb k k0) eqn:E.
    + apply key_eqb_eq in E. subst k.
      specialize (Hall k0). rewrite Fresh in Hall.
      rewrite dict_get_set_same in Hall.
      destruct v0; try (now subst x).
      exists x. now split.
    + specialize (Hall k).
      unfold dict_get_default in Hall. rewrite dict_get_set_other in Hall by exact E.
      exact Hall.
Qed.

Lemma update_dict_merges_by_key_witness :
  exists d',
    update_dict (VDict [(KStr "hair", VStr "red"); (KStr "style", VDict [(KStr "a", VInt 1)])])
      (VDict [(KStr "hair", VStr "blue"); (KStr "eyes", VStr "green")]) = Ok (VDict d') /\
    forall k,
      match dict_get [(KStr "hair", VStr "red"); (KStr "style", VDict [(KStr "a", VInt 1)])] k with
      | None => dict_get d' k
                = dict_get [(KStr "hair", VStr "blue"); (KStr "eyes", VStr "green")] k
      | Some (VDict u2) =>
          exists sub,
            update_dict (VDict u2)
              (dict_get_default [(KStr "hair", VStr "blue"); (KStr "eyes", VStr "green")] k
                 (VDict [])) = Ok sub /\
            dict_get d' k = Some sub
      | Some v => dict_get d' k = Some v
      end.
Proof.
  apply (update_dict_merges_by_key
           [(KStr "hair", VStr "red"); (KStr "style", VDict [(KStr "a", VInt 1)])]
           [(KStr "hair", VStr "blue"); (KStr "eyes", VStr "green")]).
  - reflexivity.
  - intros k u2. simpl.
    destruct (key_eqb k (KStr "hair")); [discriminate|].
    destruct (key_eqb k (KStr "style")) eqn:E; [|discriminate].
    intro H. inversion H; subst. apply key_eqb_eq in E. subst k.
    eexists. reflexivity.
Defined.

End Merging.

(** ** Weighted draws *)

Section WeightedDraws.

Variable rnd : nat -> Q.
Hypothesis U : unit_oracle rnd.

Lemma accumulate_cons (acc : Q) (w : value) (ws : list value) :
  accumulate acc (w :: ws)
  = match to_Q w with
    | Some q => tl <- accumulate (acc + q) ws ;; Ok ((acc + q) :: tl)
    | None => Raise TypeError
    end.
Proof. reflexivity. Qed.

Lemma accumulate_numbers (ws : list value) :
  forall acc,
    forallb is_number ws = true ->
    exists cum, accumulate acc ws = Ok cum /\ List.length cum = List.length ws.
Proof.
  induction ws as [|w ws IH]; intros acc N.
  - exists []. now split.
  - simpl in N. apply andb_true_iff in N. destruct N as [Nw Nws].
    rewrite accumulate_cons, (qv_to_Q w Nw).
    destruct (IH (acc + qv w) Nws) as [tl [E L]].
    exists ((acc + qv w) :: tl). rewrite E. simpl. split; [reflexivity | now rewrite L].
Qed.

Lemma accumulate_not_numbers (ws : list value) :
  forall acc, forallb is_number ws = false -> accumulate acc ws = Raise TypeError.
Proof.
  induction ws as [|w ws IH]; intros acc N; [discriminate|].
  simpl in N. rewrite accumulate_cons.
  destruct (is_number w) eqn:Nw.
  - rewrite (qv_to_Q w Nw). simpl in N. now rewrite IH.
  - destruct (to_Q w) eqn:T; [|reflexivity].
    assert (is_number w = true) by (apply is_number_to_Q; exists q; exact T). congruence.
Qed.

(** The last cumulative sum is the total of the weights. *)
Lemma accumulate_last (ws : list value) :
  forall acc cum,
    accumulate acc ws = Ok cum ->
    (forall w, In w ws -> 0 <= qv w) ->
    acc <= last cum acc /\
    ((exists w, In w ws /\ 0 < qv w) -> acc < last cum acc) /\
    ((forall w, In w ws -> qv w <= 0) -> last cum acc <= acc).
Proof.
  induction ws as [|w ws IH]; intros acc cum A NN.
  - inversion A; subst. simpl. split; [lra|]. split; [intros [w [[] _]] | intros _; lra].
  - rewrite accumulate_cons in A.
    destruct (to_Q w) as [q|] eqn:T; [|discriminate].
    destruct (accumulate (acc + q) ws) as [tl|] eqn:E; [|discriminate].
    inversion A; subst cum. clear A.
    assert (Qw : qv w = q) by (unfold qv; now rewrite T).
    assert (P0 : 0 <= q) by (rewrite <- Qw; apply NN; now left).
    destruct (IH (acc + q) tl E) as [I1 [I2 I3]]; [intros; apply NN; now right|].
    assert (L : last ((acc + q) :: tl) acc = last tl (acc + q)).
    { clear. revert acc q. induction tl as [|t tl IHt]; intros; [reflexivity|].
      destruct tl; [reflexivity|]. specialize (IHt acc q). simpl in *. exact IHt. }
    rewrite L. split; [lra|]. split.
    + intros [x [[->|Hin] Px]].
      * rewrite Qw in Px. lra.
      * assert (acc + q < last tl (acc + q)) by (apply I2; now exists x). lra.
    + intro NP. assert (q <= 0) by (rewrite <- Qw; apply NP; now left).
      assert (last tl (acc + q) <= acc + q) by (apply I3; intros; apply NP; now right). lra.
Qed.

(** The position found for a point below the total has a positive weight. *)
Lemma bisect_positive (ws : list value) :
  forall acc cum x,
    accumulate acc ws = Ok cum ->
    ws <> [] ->
    (forall w, In w ws -> 0 <= qv w) ->
    acc <= x -> x < last cum acc ->
    exists w, nth_error ws (bisect cum x (List.length ws - 1)) = Some w /\ 0 < qv w.
Proof.
  induction ws as [|w ws IH]; intros acc cum x A NE NN Lo Hi; [congruence|].
  rewrite accumulate_cons in A.
  destruct (to_Q w) as [q|] eqn:T; [|discriminate].
  destruct (accumulate (acc + q) ws) as [tl|] eqn:E; [|discriminate].
  inversion A; subst cum. clear A.
  assert (Qw : qv w = q) by (unfold qv; now rewrite T).
  assert (L : last ((acc + q) :: tl) acc = last tl (acc + q)).
  { clear. revert acc q. induction tl as [|t tl IHt]; intros; [reflexivity|].
    destruct tl; [reflexivity|]. specialize (IHt acc q). simpl in *. exact IHt. }
  rewrite L in Hi.
  destruct ws as [|w2 ws].
  - inversion E; subst tl. simpl in Hi. exists w. split; [reflexivity|]. rewrite Qw. lra.
  - replace (List.length (w :: w2 :: ws) - 1)%nat with (S (List.length (w2 :: ws) - 1))
      by (simpl; lia).
    cbn [bisect].
    destruct (Qle_bool (acc + q) x) eqn:C.
    + apply Qle_bool_iff in C.
      destruct (IH (acc + q) tl x E ltac:(discriminate)) as [w' [Hn Hp]];
        [intros; apply NN; now right | exact C | exact Hi |].
      exists w'. split; [exact Hn | exact Hp].
    + assert (x < acc + q).
      { apply Qlt_bool_iff. unfold Qlt_bool. now rewrite C. }
      exists w. split; [reflexivity|]. rewrite Qw. lra.
Qed.

Lemma weights_ok_facts (ws : list value) :
  weights_ok ws = true ->
  forallb is_number ws = true /\
  (forall w, In w ws -> 0 <= qv w) /\
  (exists w, In w ws /\ 0 < qv w) /\
  ws <> [].
Proof.
  unfold weights_ok. rewrite andb_true_iff, forallb_forall, existsb_exists.
  intros [A [w [Hin Hp]]]. split; [|split; [|split]].
  - apply forallb_forall. intros x Hx. specialize (A x Hx).
    apply andb_true_iff in A. tauto.
  - intros x Hx. specialize (A x Hx). apply andb_true_iff in A.
    apply Qle_bool_iff. tauto.
  - exists w. split; [exact Hin | now apply Qlt_bool_iff].
  - intro; subst. contradiction.
Qed.

Lemma rev_head_last (cum : list Q) (t d : Q) (r : list Q) :
  rev cum = t :: r -> last cum d = t.
Proof.
  intro H. assert (E : cum = (rev r ++ [t])%list).
  { rewrite <- (rev_involutive cum), H. reflexivity. }
  rewrite E. apply last_last.
Qed.

(** Draws with replacement: as many as asked for, each at a position of
    positive weight. *)
Lemma choices_members {A} (population : list A) (ws : list value) (c : Z) (n : nat) :
  List.length population = List.length ws ->
  weights_ok ws = true ->
  exists l,
    choices rnd population ws (VInt c) n = Ok (l, (n + Z.to_nat c)%nat) /\
    List.length l = Z.to_nat c /\
    forall x, In x l ->
      exists i w, nth_error population i = Some x /\ nth_error ws i = Some w /\ 0 < qv w.
Proof.
  intros HL W. destruct (weights_ok_facts ws W) as [N [NN [Pos NE]]].
  destruct (accumulate_numbers ws 0 N) as [cum [Ac LC]].
  destruct (accumulate_last ws 0 cum Ac NN) as [_ [T _]]. specialize (T Pos).
  unfold choices, mbind, lift. rewrite Ac.
  assert (LE : Nat.eqb (List.length cum) (List.length population) = true)
    by (apply Nat.eqb_eq; congruence).
  rewrite LE. cbn [negb].
  destruct (rev cum) as [|total r] eqn:R.
  { exfalso. destruct cum; [destruct ws; [congruence | discriminate]|].
    simpl in R. destruct (rev cum); discriminate. }
  rewrite (rev_head_last cum total 0 r R) in T.
  assert (TP : Qle_bool total 0 = false).
  { destruct (Qle_bool total 0) eqn:C; [|reflexivity]. apply Qle_bool_iff in C. lra. }
  rewrite TP. cbn [to_index].
  assert (Draw : forall k m,
            exists l,
              draw_choices rnd population cum total k m = Ok (l, (m + k)%nat) /\
              List.length l = k /\
              forall x, In x l ->
                exists i w, nth_error population i = Some x /\ nth_error ws i = Some w /\
                            0 < qv w).
  { induction k as [|k IHk]; intro m.
    - exists []. split; [simpl; unfold ret; now rewrite Nat.add_0_r|]. split; [reflexivity|].
      intros x [].
    - rewrite draw_choices_step.
      destruct (U m) as [R0 R1].
      destruct (bisect_positive ws 0 cum (rnd m * total) Ac NE NN) as [w [Hw Pw]].
      { nra. }
      { rewrite (rev_head_last cum total 0 r R). nra. }
      rewrite HL.
      destruct (nth_error population (bisect cum (rnd m * total) (List.length ws - 1)))
        as [v|] eqn:Pv.
      + destruct (IHk (S m)) as [tl [E [Len Mem]]].
        rewrite E. exists (v :: tl). split; [f_equal; f_equal; lia|].
        split; [simpl; now rewrite Len|].
        intros x [<-|Hx]; [|now apply Mem].
        exists (bisect cum (rnd m * total) (List.length ws - 1)), w. now repeat split.
      + exfalso. apply nth_error_None in Pv.
        assert (bisect cum (rnd m * total) (List.length ws - 1) < List.length ws)%nat.
        { apply nth_error_Some. congruence. }
        lia. }
  destruct (Draw (Z.to_nat c) n) as [l [E [Len Mem]]].
  exists l. now repeat split.
Qed.

Lemma nth_error_keys_values (items : dict) (i : nat) (k : key) (w : value) :
  nth_error (dict_keys items) i = Some k ->
  nth_error (dict_values items) i = Some w ->
  In (k, w) items.
Proof.
  revert i. induction items as [|[k0 w0] items IH]; intros [|i]; simpl; try discriminate.
  - intros H1 H2. inversion H1; inversion H2; subst. now left.
  - intros H1 H2. right. eapply IH; eauto.
Qed.

(** On a table of non-negative numeric weights, one of them positive,
    [random_weight_count] makes one draw per requested key and returns that
    many keys; each is a key of the table whose weight is positive, so an
    entry of weight zero is never selected. *)
Theorem random_weight_count_members (items : dict) (c : Z) (n : nat) :
  weights_ok (dict_values items) = true ->
  exists l,
    random_weight_count rnd (VDict items) (VInt c) n = Ok (l, (n + Z.to_nat c)%nat) /\
    List.length l = Z.to_nat c /\
    forall k, In k l -> exists w, In (k, w) items /\ 0 < qv w.
Proof.
  intro W. destruct (weights_ok_facts _ W) as [N _].
  destruct (choices_members (dict_keys items) (dict_values items) c n) as [l [E [Len Mem]]].
  { unfold dict_keys, dict_values. now rewrite !length_map. }
  { exact W. }
  exists l. unfold random_weight_count. rewrite N. split; [exact E|]. split; [exact Len|].
  intros k Hk. destruct (Mem k Hk) as [i [w [H1 [H2 Pw]]]].
  exists w. split; [eapply nth_error_keys_values; eauto | exact Pw].
Qed.

(** What [random_weight_count] refuses, before any draw: a weight that is
    no number ([TypeError]), an empty table ([IndexError]), and a table
    whose weights are all zero ([ValueError]).  Anything that is no
    dictionary gives the empty list. *)
Theorem random_weight_count_rejects (items : dict) (c : value) (n : nat) :
  (forallb is_number (dict_values items) = false ->
   random_weight_count rnd (VDict items) c n = Raise TypeError) /\
  (items = [] -> random_weight_count rnd (VDict items) c n = Raise IndexError) /\
  (items <> [] -> forallb is_number (dict_values items) = true ->
   (forall w, In w (dict_values items) -> qv w == 0) ->
   random_weight_count rnd (VDict items) c n = Raise ValueError) /\
  (forall v, is_dict v = false -> random_weight_count rnd v c n = Ok ([], n)).
Proof.
  split; [|split; [|split]].
  - intro N. unfold random_weight_count. now rewrite N.
  - intros ->. reflexivity.
  - intros NE N Z0. unfold random_weight_count. rewrite N.
    destruct (accumulate_numbers _ 0 N) as [cum [A LC]].
    destruct (accumulate_last _ 0 cum A) as [_ [_ T]].
    { intros w Hw. rewrite (Z0 w Hw). lra. }
    assert (T0 : last cum 0 <= 0).
    { apply T. intros w Hw. rewrite (Z0 w Hw). lra. }
    unfold choices, mbind, lift. rewrite A.
    assert (LE : Nat.eqb (List.length cum) (List.length (dict_keys items)) = true).
    { apply Nat.eqb_eq. rewrite LC. unfold dict_keys, dict_values. now rewrite !length_map. }
    rewrite LE. cbn [negb].
    destruct (rev cum) as [|total r] eqn:R.
    { exfalso. destruct cum.
      - destruct items; [congruence | discriminate].
      - simpl in R. destruct (rev cum); discriminate. }
    rewrite (rev_head_last cum total 0 r R) in T0.
    assert (TP : Qle_bool total 0 = true) by now apply Qle_bool_iff.
    now rewrite TP.
  - intros v D. destruct v; try reflexivity. discriminate.
Qed.

End WeightedDraws.

Lemma random_weight_count_members_witness :
  exists l,
    random_weight_count (fun _ => 1 # 2)
      (VDict [(KStr "a", VInt 0); (KStr "b", VInt 3)]) (VInt 2) 0%nat
    = Ok (l, (0 + Z.to_nat 2)%nat) /\
    List.length l = Z.to_nat 2 /\
    forall k, In k l ->
      exists w, In (k, w) [(KStr "a", VInt 0); (KStr "b", VInt 3)] /\ 0 < qv w.
Proof.
  apply (random_weight_count_members (fun _ => 1 # 2)).
  - intro n. split; [discriminate | reflexivity].
  - reflexivity.
Defined.

(** ** Choices among the forms a setting can take *)

Section Pickers.

Variable rnd : nat -> Q.
Hypothesis U : unit_oracle rnd.

Lemma choice_member {A} (l : list A) (n : nat) :
  l <> [] -> exists v, choice rnd l n = Ok (v, S n) /\ In v l.
Proof.
  intro NE. destruct l as [|x l]; [congruence|].
  unfold choice, mbind, random.
  destruct (U n) as [R0 R1].
  pose proof (floor_in_width (rnd n) (Z.of_nat (List.length (x :: l))) R0 R1
                ltac:(simpl; lia)) as F.
  destruct (nth_error (x :: l)
              (Z.to_nat (Qfloor (rnd n * inject_Z (Z.of_nat (List.length (x :: l)))))))
    as [v|] eqn:E.
  - exists v. split; [reflexivity|]. eapply nth_error_In; eauto.
  - exfalso. apply nth_error_None in E. lia.
Qed.

(** [random_weight] by the form of its argument: a string comes back as it
    is, without a draw; a non-empty list gives one of its elements and an
    empty one raises [IndexError]; a dictionary of non-negative weights, one
    of them positive, gives one of its keys of positive weight; each of the
    last two makes one draw. *)
Theorem random_weight_picks_member (n : nat) :
  (forall s, random_weight rnd (VStr s) n = Ok (VStr s, n)) /\
  (forall l, l <> [] -> exists v, random_weight rnd (VList l) n = Ok (v, S n) /\ In v l) /\
  random_weight rnd (VList []) n = Raise IndexError /\
  (forall items, weights_ok (dict_values items) = true ->
     exists k w,
       random_weight rnd (VDict items) n = Ok (of_key k, S n) /\
       In (k, w) items /\ 0 < qv w).
Proof.
  split; [reflexivity|]. split; [|split; [reflexivity|]].
  - intros l NE. unfold random_weight. now apply choice_member.
  - intros items W.
    destruct (choices_members rnd U (dict_keys items) (dict_values items) 1 n)
      as [l [E [Len Mem]]].
    { unfold dict_keys, dict_values. now rewrite !length_map. }
    { exact W. }
    destruct l as [|k l]; [discriminate|].
    destruct (Mem k ltac:(now left)) as [i [w [H1 [H2 Pw]]]].
    exists k, w. split; [|split; [eapply nth_error_keys_values; eauto | exact Pw]].
    unfold random_weight, mbind. rewrite E. unfold ret. f_equal. f_equal. simpl. lia.
Qed.

Lemma weight_dict_of_dicts (wk : string) (items : dict) :
  (forall k v, In (k, v) items -> is_dict v = true) ->
  exists wd,
    weight_dict wk items = Ok wd /\
    forall k w, In (k, w) wd ->
      exists cand, In (k, VDict cand) items /\ dict_get cand (KStr wk) = Some w.
Proof.
  induction items as [|[k0 v0] items IH]; intro D.
  - exists []. split; [reflexivity|]. intros k w [].
  - destruct IH as [tl [E Mem]]; [intros; eapply D; right; eauto|].
    assert (Dv : is_dict v0 = true) by (apply (D k0); now left).
    destruct v0; try discriminate. rename d into cand.
    simpl. rewrite E. simpl.
    destruct (dict_get cand (KStr wk)) as [x|] eqn:G.
    + eexists. split; [reflexivity|].
      intros k w [H|H].
      * inversion H; subst. exists cand. split; [now left | exact G].
      * destruct (Mem k w H) as [c [H1 H2]]. exists c. split; [now right | exact H2].
    + exists tl. split; [reflexivity|].
      intros k w H. destruct (Mem k w H) as [c [H1 H2]]. exists c. split; [now right | exact H2].
Qed.

(** [random_dict_weight] over candidates that are dictionaries: the
    candidates that have the weight key form the table drawn from.  When
    none has it, the result is the empty list and nothing is drawn; when
    their weights are non-negative numbers, one of them positive, every
    key returned is a candidate that has the weight key with a positive
    weight, so a candidate without a weight is never selected. *)
Theorem random_dict_weight_members (items : dict) (wk : string) (c : Z) (n : nat) :
  (forall k v, In (k, v) items -> is_dict v = true) ->
  exists wd,
    weight_dict wk items = Ok wd /\
    (wd = [] -> random_dict_weight rnd (VDict items) wk (VInt c) n = Ok ([], n)) /\
    (weights_ok (dict_values wd) = true ->
     exists l,
       random_dict_weight rnd (VDict items) wk (VInt c) n = Ok (l, (n + Z.to_nat c)%nat) /\
       List.length l = Z.to_nat c /\
       forall k, In k l ->
         exists cand w,
           In (k, VDict cand) items /\ dict_get cand (KStr wk) = Some w /\ 0 < qv w).
Proof.
  intro D. destruct (weight_dict_of_dicts wk items D) as [wd [E Mem]].
  exists wd. split; [exact E|]. split.
  - intros ->. unfold random_dict_weight, mbind, lift. now rewrite E.
  - intro W.
    destruct (choices_members rnd U (dict_keys wd) (dict_values wd) c n) as [l [C [Len M]]].
    { unfold dict_keys, dict_values. now rewrite !length_map. }
    { exact W. }
    exists l. split; [|split; [exact Len|]].
    + unfold random_dict_weight, mbind, lift. rewrite E.
      destruct wd; [discriminate W | exact C].
    + intros k Hk. destruct (M k Hk) as [i [w [H1 [H2 Pw]]]].
      destruct (Mem k w (nth_error_keys_values wd i k w H1 H2)) as [cand [I G]].
      exists cand, w. now repeat split.
Qed.

Lemma remove_nth_perm {A} (l : list A) :
  forall j v,
    nth_error l j = Some v ->
    Permutation (v :: remove_nth j l) l /\
    S (List.length (remove_nth j l)) = List.length l.
Proof.
  induction l as [|x l IH]; intros [|j] v H; simpl in H; try discriminate.
  - inversion H; subst. simpl. split; [apply Permutation_refl | reflexivity].
  - destruct (IH j v H) as [P L]. simpl. split; [|now rewrite L].
    eapply Permutation_trans; [apply perm_swap|]. now apply perm_skip.
Qed.

Lemma draw_sample_step {A} (pool : list A) (k m : nat) :
  draw_sample rnd pool (S k) m =
  let j := Z.to_nat (Qfloor (rnd m * inject_Z (Z.of_nat (List.length pool)))) in
  match nth_error pool j with
  | Some v =>
      match draw_sample rnd (remove_nth j pool) k (S m) with
      | Ok (tl, n') => Ok (v :: tl, n')
      | Raise e => Raise e
      end
  | None => Raise IndexError
  end.
Proof.
  simpl. unfold mbind, random. cbv zeta.
  destruct (nth_error pool _); [|reflexivity].
  destruct (draw_sample rnd _ k (S m)) as [[tl n']|]; reflexivity.
Qed.

(** Draws without replacement take entries at distinct positions. *)
Lemma draw_sample_perm {A} (k : nat) :
  forall (pool : list A) (m : nat),
    (k <= List.length pool)%nat ->
    exists out rest,
      draw_sample rnd pool k m = Ok (out, (m + k)%nat) /\
      List.length out = k /\
      Permutation (out ++ rest) pool.
Proof.
  induction k as [|k IH]; intros pool m L.
  - exists [], pool. split; [simpl; unfold ret; now rewrite Nat.add_0_r|].
    split; [reflexivity | apply Permutation_refl].
  - rewrite draw_sample_step. cbv zeta.
    destruct (U m) as [R0 R1].
    pose proof (floor_in_width (rnd m) (Z.of_nat (List.length pool)) R0 R1 ltac:(lia)) as F.
    destruct (nth_error pool (Z.to_nat (Qfloor (rnd m * inject_Z (Z.of_nat (List.length pool))))))
      as [v|] eqn:E.
    + destruct (remove_nth_perm pool _ v E) as [P Len].
      destruct (IH (remove_nth (Z.to_nat (Qfloor (rnd m * inject_Z (Z.of_nat (List.length pool)))))
                      pool) (S m) ltac:(lia)) as [tl [rest [D [Lt Pt]]]].
      rewrite D. exists (v :: tl), rest.
      split; [f_equal; f_equal; lia|]. split; [simpl; now rewrite Lt|].
      simpl. eapply Permutation_trans; [apply perm_skip; exact Pt | exact P].
    + exfalso. apply nth_error_None in E. lia.
Qed.

(** [random_items_count] on a list: when the count is not below the length
    the list comes back whole and nothing is drawn; for a smaller count
    that is not negative it returns that many entries, taken at distinct
    positions of the list (the result, with what was left, is a
    rearrangement of the list), with one draw each; a negative count raises
    [ValueError].  A dictionary stands for the list of its keys, and any
    other scalar raises [ValueError]. *)
Theorem random_items_count_picks (l : list value) (c : Z) (n : nat) :
  ((Z.of_nat (List.length l) <= c)%Z ->
   random_items_count rnd (VList l) (VInt c) n = Ok (l, n)) /\
  ((0 <= c < Z.of_nat (List.length l))%Z ->
   exists out rest,
     random_items_count rnd (VList l) (VInt c) n = Ok (out, (n + Z.to_nat c)%nat) /\
     List.length out = Z.to_nat c /\
     Permutation (out ++ rest) l) /\
  ((c < 0)%Z ->
   random_items_count rnd (VList l) (VInt c) n = Raise ValueError) /\
  (forall d, random_items_count rnd (VDict d) (VInt c) n
             = random_items_count rnd (VList (map of_key (dict_keys d))) (VInt c) n) /\
  (forall v, is_dict v = false -> (forall x, v <> VList x) ->
             random_items_count rnd v (VInt c) n = Raise ValueError).
Proof.
  assert (Gt : py_gt (VInt (Z.of_nat (List.length l))) (VInt c)
               = Ok (Qlt_bool (inject_Z c) (inject_Z (Z.of_nat (List.length l)))))
    by reflexivity.
  split; [|split; [|split; [|split]]].
  - intro H. unfold random_items_count, mbind, lift. rewrite Gt.
    assert (F : Qlt_bool (inject_Z c) (inject_Z (Z.of_nat (List.length l))) = false).
    { apply Qlt_bool_false. now rewrite <- Zle_Qle. }
    now rewrite F.
  - intros [H0 H1]. unfold random_items_count, mbind, lift. rewrite Gt.
    assert (T : Qlt_bool (inject_Z c) (inject_Z (Z.of_nat (List.length l))) = true).
    { apply Qlt_bool_iff. now rewrite <- Zlt_Qlt. }
    rewrite T. unfold sample, mbind, lift. cbn [to_index].
    assert (B : Z.ltb c 0 || Z.ltb (Z.of_nat (List.length l)) c = false).
    { apply orb_false_iff. split; apply Z.ltb_ge; lia. }
    rewrite B. apply draw_sample_perm. lia.
  - intros H. unfold random_items_count, mbind, lift. rewrite Gt.
    assert (T : Qlt_bool (inject_Z c) (inject_Z (Z.of_nat (List.length l))) = true).
    { apply Qlt_bool_iff. rewrite <- Zlt_Qlt. lia. }
    rewrite T. unfold sample, mbind, lift. cbn [to_index].
    assert (B : Z.ltb c 0 = true) by (apply Z.ltb_lt; lia).
    now rewrite B.
  - reflexivity.
  - intros v D NL. destruct v; try reflexivity; [now elim (NL l0) | discriminate].
Qed.

(** [seed_int] makes one draw and returns an integer of the unsigned
    64-bit range. *)
Theorem seed_int_range (n : nat) :
  exists z, seed_int rnd n = Ok (VInt z, S n) /\ (0 <= z <= 18446744073709551615)%Z.
Proof.
  destruct (U n) as [R0 R1].
  pose proof (floor_in_width (rnd n) 18446744073709551616 R0 R1 ltac:(lia)) as F.
  exists (0 + Qfloor (rnd n * inject_Z (18446744073709551615 - 0 + 1)))%Z.
  split; [reflexivity|].
  change (18446744073709551615 - 0 + 1)%Z with 18446744073709551616%Z. lia.
Qed.

End Pickers.

Lemma random_weight_picks_member_witness :
  (forall s, random_weight (fun _ => 1 # 2) (VStr s) 0%nat = Ok (VStr s, 0%nat)) /\
  (forall l, l <> [] ->
     exists v, random_weight (fun _ => 1 # 2) (VList l) 0%nat = Ok (v, 1%nat) /\ In v l) /\
  random_weight (fun _ => 1 # 2) (VList []) 0%nat = Raise IndexError /\
  (forall items, weights_ok (dict_values items) = true ->
     exists k w,
       random_weight (fun _ => 1 # 2) (VDict items) 0%nat = Ok (of_key k, 1%nat) /\
       In (k, w) items /\ 0 < qv w).
Proof.
  apply (random_weight_picks_member (fun _ => 1 # 2)).
  intro n. split; [discriminate | reflexivity].
Defined.

Lemma random_dict_weight_members_witness :
  exists wd,
    weight_dict "weight"
      [(KStr "a", VDict [(KStr "weight", VInt 2)]); (KStr "b", VDict [(KStr "per", VInt 1)])]
    = Ok wd /\
    (wd = [] ->
     random_dict_weight (fun _ => 1 # 2)
       (VDict [(KStr "a", VDict [(KStr "weight", VInt 2)]);
               (KStr "b", VDict [(KStr "per", VInt 1)])]) "weight" (VInt 1) 0%nat
     = Ok ([], 0%nat)) /\
    (weights_ok (dict_values wd) = true ->
     exists l,
       random_dict_weight (fun _ => 1 # 2)
         (VDict [(KStr "a", VDict [(KStr "weight", VInt 2)]);
                 (KStr "b", VDict [(KStr "per", VInt 1)])]) "weight" (VInt 1) 0%nat
       = Ok (l, (0 + Z.to_nat 1)%nat) /\
       List.length l = Z.to_nat 1 /\
       forall k, In k l ->
         exists cand w,
           In (k, VDict cand)
              [(KStr "a", VDict [(KStr "weight", VInt 2)]);
               (KStr "b", VDict [(KStr "per", VInt 1)])] /\
           dict_get cand (KStr "weight") = Some w /\ 0 < qv w).
Proof.
  apply (random_dict_weight_members (fun _ => 1 # 2)).
  - intro n. split; [discriminate | reflexivity].
  - intros k v [H|[H|[]]]; inversion H; reflexivity.
Defined.

Lemma random_items_count_picks_witness :
  ((Z.of_nat (List.length [VStr "a"; VStr "b"; VStr "c"]) <= 2)%Z ->
   random_items_count (fun _ => 1 # 2) (VList [VStr "a"; VStr "b"; VStr "c"]) (VInt 2) 0%nat
   = Ok ([VStr "a"; VStr "b"; VStr "c"], 0%nat)) /\
  ((0 <= 2 < Z.of_nat (List.length [VStr "a"; VStr "b"; VStr "c"]))%Z ->
   exists out rest,
     random_items_count (fun _ => 1 # 2) (VList [VStr "a"; VStr "b"; VStr "c"]) (VInt 2) 0%nat
     = Ok (out, (0 + Z.to_nat 2)%nat) /\
     List.length out = Z.to_nat 2 /\
     Permutation (out ++ rest) [VStr "a"; VStr "b"; VStr "c"]) /\
  ((2 < 0)%Z ->
   random_items_count (fun _ => 1 # 2) (VList [VStr "a"; VStr "b"; VStr "c"]) (VInt 2) 0%nat
   = Raise ValueError) /\
  (forall d, random_items_count (fun _ => 1 # 2) (VDict d) (VInt 2) 0%nat
             = random_items_count (fun _ => 1 # 2) (VList (map of_key (dict_keys d)))
                 (VInt 2) 0%nat) /\
  (forall v, is_dict v = false -> (forall x, v <> VList x) ->
             random_items_count (fun _ => 1 # 2) v (VInt 2) 0%nat = Raise ValueError).
Proof.
  apply (random_items_count_picks (fun _ => 1 # 2)).
  intro n. split; [discriminate | reflexivity].
Defined.

Lemma seed_int_range_witness :
  exists z, seed_int (fun _ => 1 # 2) 0%nat = Ok (VInt z, 1%nat) /\
            (0 <= z <= 18446744073709551615)%Z.
Proof.
  apply (seed_int_range (fun _ => 1 # 2)).
  intro n. split; [discriminate | reflexivity].
Defined.

(** ** Parameter lists by type *)

Section TypeLists.

Lemma in_filtered_keys (f : value -> bool) (items : dict) (k : key) (v : value) :
  unique_keys items = true ->
  dict_get items k = Some v ->
  In k (map fst (filter (fun kv => f (snd kv)) items)) <-> f v = true.
Proof.
  induction items as [|[k0 v0] items IH]; simpl; [discriminate|].
  rewrite andb_true_iff, negb_true_iff. intros [Hk Hu].
  destruct (key_eqb k k0) eqn:E.
  - apply key_eqb_eq in E. subst k0. intro H. inversion H; subst v0. clear H.
    assert (NI : ~ In k (map fst (filter (fun kv => f (snd kv)) items))).
    { intro H. apply in_map_iff in H. destruct H as [[k1 v1] [E1 H1]].
      apply filter_In in H1. destruct H1 as [H1 _]. simpl in E1. subst k1.
      assert (In k (dict_keys items)) by (apply in_map_iff; now exists (k, v1)).
      apply key_mem_In in H. congruence. }
    destruct (f v); simpl; split; intro H; try reflexivity; try discriminate.
    + now left.
    + contradiction.
  - intro G. specialize (IH Hu G).
    destruct (f v0); simpl; [|exact IH].
    rewrite <- IH. split; [|now right].
    intros [H|H]; [|exact H]. subst k0. now rewrite key_eqb_refl in E.
Qed.

(** The two parameter lists the resolver builds from a node's inputs: a
    parameter is in the numeric list exactly when its value is an integer
    or float that is no boolean, and in the text list exactly when it is a
    string or a boolean.  So no parameter is in both, a boolean counts as
    text although it is an integer, and a parameter holding a list, a
    mapping or [None] is in neither.  Anything that is no dictionary has
    no parameters. *)
Theorem get_type_list_partition (items : dict) (k : key) (v : value) :
  unique_keys items = true ->
  dict_get items k = Some v ->
  (In k (get_type_list (VDict items) NumbersNotBool)
   <-> is_number v = true /\ is_bool v = false) /\
  (In k (get_type_list (VDict items) StrOrBool)
   <-> is_str v = true \/ is_bool v = true) /\
  ~ (In k (get_type_list (VDict items) NumbersNotBool) /\
     In k (get_type_list (VDict items) StrOrBool)) /\
  (forall x, is_dict x = false ->
     get_type_list x NumbersNotBool = [] /\ get_type_list x StrOrBool = []).
Proof.
  intros Un G.
  pose proof (in_filtered_keys (matches NumbersNotBool) items k v Un G) as A.
  pose proof (in_filtered_keys (matches StrOrBool) items k v Un G) as B.
  unfold get_type_list.
  assert (A' : matches NumbersNotBool v = true <-> is_number v = true /\ is_bool v = false).
  { unfold matches, is_number. rewrite andb_true_iff, negb_true_iff. tauto. }
  assert (B' : matches StrOrBool v = true <-> is_str v = true \/ is_bool v = true).
  { unfold matches. now rewrite orb_true_iff. }
  split; [now rewrite A, A'|]. split; [now rewrite B, B'|]. split.
  - rewrite A, B, A', B'. intros [[N NB] [S|S]]; [|congruence].
    destruct v; discriminate.
  - intros x D. destruct x; try (split; reflexivity). discriminate.
Qed.

Lemma get_type_list_partition_witness :
  (In (KStr "cfg")
      (get_type_list (VDict [(KStr "cfg", VFloat 7); (KStr "flag", VBool true)]) NumbersNotBool)
   <-> is_number (VFloat 7) = true /\ is_bool (VFloat 7) = false) /\
  (In (KStr "cfg")
      (get_type_list (VDict [(KStr "cfg", VFloat 7); (KStr "flag", VBool true)]) StrOrBool)
   <-> is_str (VFloat 7) = true \/ is_bool (VFloat 7) = true) /\
  ~ (In (KStr "cfg")
        (get_type_list (VDict [(KStr "cfg", VFloat 7); (KStr "flag", VBool true)])
           NumbersNotBool) /\
     In (KStr "cfg")
        (get_type_list (VDict [(KStr "cfg", VFloat 7); (KStr "flag", VBool true)]) StrOrBool)) /\
  (forall x, is_dict x = false ->
     get_type_list x NumbersNotBool = [] /\ get_type_list x StrOrBool = []).
Proof.
  apply (get_type_list_partition [(KStr "cfg", VFloat 7); (KStr "flag", VBool true)]
           (KStr "cfg") (VFloat 7)).
  - reflexivity.
  - reflexivity.
Defined.

End TypeLists.

(** ** Asset names *)

Section AssetNames.

Lemma string_rev_acc_length (s : string) :
  forall acc, String.length (string_rev_acc s acc) = (String.length s + String.length acc)%nat.
Proof.
  induction s as [|c s IH]; intro acc; simpl; [reflexivity|].
  rewrite IH. simpl. lia.
Qed.

Lemma string_rev_acc_append (a : string) :
  forall b acc, string_rev_acc (a ++ b)%string acc = string_rev_acc b (string_rev_acc a acc).
Proof. induction a as [|c a IH]; intros b acc; simpl; [reflexivity | apply IH]. Qed.

Lemma string_length_append (a b : string) :
  String.length (a ++ b)%string = (String.length a + String.length b)%nat.
Proof. induction a as [|c a IH]; simpl; [reflexivity | now rewrite IH]. Qed.

(** Reversing a string without a dot in front of [acc] puts the first dot
    of [acc] that much further. *)
Lemma find_dot_rev_acc (e : string) :
  forall acc,
    find_dot e = None ->
    find_dot (string_rev_acc e acc)
    = match find_dot acc with
      | Some n => Some (String.length e + n)%nat
      | None => None
      end.
Proof.
  induction e as [|c e IH]; intros acc H; simpl.
  - now destruct (find_dot acc).
  - simpl in H. destruct (Ascii.eqb c ".") eqn:E; [discriminate|].
    destruct (find_dot e) eqn:F; [discriminate|].
    rewrite IH by reflexivity. simpl. rewrite E.
    destruct (find_dot acc); [f_equal; lia | reflexivity].
Qed.

Lemma substring_prefix (s t : string) :
  String.substring 0 (String.length s) (s ++ t)%string = s.
Proof.
  induction s as [|c s IH]; simpl.
  - now destruct t.
  - now rewrite IH.
Qed.

(** The name derived from a file name is what precedes its last dot: for
    [s.e] with [s] and [e] non-empty and no dot in [e] the stem is [s],
    further dots in [s] included.  A name without a dot, a name whose only
    dot comes first and a name that ends in a dot are their own stems. *)
Theorem stem_of_name_cases :
  (forall s e, s <> EmptyString -> e <> EmptyString -> find_dot e = None ->
     stem_of_name (s ++ "." ++ e)%string = s) /\
  (forall s, find_dot s = None -> stem_of_name s = s) /\
  (forall e, find_dot e = None -> stem_of_name ("." ++ e)%string = ("." ++ e)%string) /\
  (forall s, stem_of_name (s ++ ".")%string = (s ++ ".")%string).
Proof.
  split; [|split; [|split]].
  - intros s e Ns Ne F. unfold stem_of_name.
    rewrite string_rev_acc_append. simpl string_rev_acc.
    rewrite find_dot_rev_acc by exact F. simpl find_dot.
    rewrite string_length_append. simpl String.length.
    replace (String.length s + S (String.length e) - 1 - (String.length e + 0))%nat
      with (String.length s) by lia.
    assert (Ls : Nat.ltb 0 (String.length s) = true).
    { apply Nat.ltb_lt. destruct s; [congruence | simpl; lia]. }
    assert (Le : Nat.ltb 0 (String.length e + 0) = true).
    { apply Nat.ltb_lt. destruct e; [congruence | simpl; lia]. }
    rewrite Ls, Le. apply substring_prefix.
  - intros s F. unfold stem_of_name. now rewrite find_dot_rev_acc.
  - intros e F. unfold stem_of_name.
    rewrite string_rev_acc_append. simpl string_rev_acc.
    rewrite find_dot_rev_acc by exact F. simpl find_dot. simpl String.length.
    cbv iota beta.
    replace (S (String.length e) - 1 - (String.length e + 0))%nat with 0%nat by lia.
    reflexivity.
  - intro s. unfold stem_of_name.
    rewrite string_rev_acc_append. simpl string_rev_acc. simpl find_dot.
    cbv iota beta. change (Nat.ltb 0 0) with false. now rewrite andb_false_r.
Qed.

End AssetNames.

(** ** The catalog under scans and events *)

Section CatalogEvents.

Lemma dict_of_zip_other (ns ps : list string) (s : string) :
  forall acc,
    ~ In s ns ->
    dict_get (dict_of_zip ns ps acc) (KStr s) = dict_get acc (KStr s).
Proof.
  revert ps. induction ns as [|n ns IH]; intros ps acc NI; [reflexivity|].
  destruct ps as [|p ps]; [reflexivity|]. simpl.
  rewrite IH by (intro H; apply NI; now right).
  apply dict_get_set_other. apply key_eqb_neq. intro E. inversion E; subst.
  apply NI. now left.
Qed.

Lemma dict_of_zip_lookup (files : list rel_path) :
  forall acc f,
    NoDup (map stem files) ->
    In f files ->
    dict_get (dict_of_zip (map stem files) (map path_str files) acc) (KStr (stem f))
    = Some (VStr (path_str f)).
Proof.
  induction files as [|g files IH]; intros acc f ND Hin; [destruct Hin|].
  simpl in ND. inversion ND as [|? ? Hg Hfiles]; subst. simpl.
  destruct Hin as [->|Hin].
  - rewrite dict_of_zip_other by exact Hg. apply dict_get_set_same.
  - now apply IH.
Qed.

(** A scan that finds no two files of the same stem indexes every file it
    finds: looking the name of a file up in the name-to-path map gives the
    path of that file, the name and the path are in the flat lists, and
    the names of the list are exactly the keys of the map, none twice. *)
Theorem scan_indexes_every_file (files : list rel_path) :
  NoDup (map stem files) ->
  let '(file_dict, file_list, file_names) := get_file_dict_list files in
  (forall f, In f files ->
     dict_get file_dict (KStr (stem f)) = Some (VStr (path_str f)) /\
     In (path_str f) file_list /\ In (stem f) file_names) /\
  List.length file_list = List.length files /\
  List.length file_names = List.length files /\
  index_consistent file_dict (map VStr file_names).
Proof.
  intro ND. pose proof (scan_index_consistent files ND) as IC.
  unfold get_file_dict_list in *. cbn [fst snd] in IC.
  split; [|split; [|split]].
  - intros f Hin. split; [now apply dict_of_zip_lookup|].
    split; now apply in_map.
  - apply length_map.
  - apply length_map.
  - exact IC.
Qed.

Lemma scan_indexes_every_file_witness :
  let '(file_dict, file_list, file_names) :=
    get_file_dict_list [["X"; "a.safetensors"]; ["X"; "sub"; "b.safetensors"]] in
  (forall f, In f [["X"; "a.safetensors"]; ["X"; "sub"; "b.safetensors"]] ->
     dict_get file_dict (KStr (stem f)) = Some (VStr (path_str f)) /\
     In (path_str f) file_list /\ In (stem f) file_names) /\
  List.length file_list
  = List.length [["X"; "a.safetensors"]; ["X"; "sub"; "b.safetensors"]] /\
  List.length file_names
  = List.length [["X"; "a.safetensors"]; ["X"; "sub"; "b.safetensors"]] /\
  index_consistent file_dict (map VStr file_names).
Proof.
  apply (scan_indexes_every_file [["X"; "a.safetensors"]; ["X"; "sub"; "b.safetensors"]]).
  vm_compute. repeat constructor; simpl; intuition discriminate.
Defined.

Lemma event_category_all_views (a : asset_kind) (ev : event_type) (name spath : string)
  (c : dict) :
  let c1 := event_category a ev name spath c in
  dics_of a c1 = updated_dics ev name spath (dics_of a c) /\
  lists_of a c1 = updated_list ev spath (lists_of a c) /\
  names_of_view a c1 = updated_list ev name (names_of_view a c) /\
  views_typed_in a c1.
Proof.
  destruct (view_keys_distinct a) as [K1 [K2 [K3 [K4 [K5 K6]]]]].
  intro c1.
  assert (G3 : dict_get c1 (KStr (names_key a))
               = Some (VList (updated_list ev name (names_of_view a c)))).
  { unfold c1, event_category. apply dict_get_set_same. }
  assert (G2 : dict_get c1 (KStr (lists_key a))
               = Some (VList (updated_list ev spath (lists_of a c)))).
  { unfold c1, event_category.
    rewrite dict_get_set_other by exact K6. apply dict_get_set_same. }
  assert (G1 : dict_get c1 (KStr (dics_key a))
               = Some (VDict (updated_dics ev name spath (dics_of a c)))).
  { unfold c1, event_category.
    rewrite dict_get_set_other by exact K5.
    rewrite dict_get_set_other by exact K4. apply dict_get_set_same. }
  unfold views_typed_in.
  unfold dics_of at 1, lists_of at 1, names_of_view at 1.
  rewrite G1, G2, G3.
  repeat split; right; eexists; reflexivity.
Qed.

Lemma append_if_absent_has (s : string) (l : list value) : In (VStr s) (append_if_absent s l).
Proof.
  unfold append_if_absent. destruct (list_mem s l) eqn:M.
  - now apply list_mem_In.
  - apply in_or_app. right. now left.
Qed.

(** An event of any kind on a store whose views have their types
    succeeds, and what it does is confined to the category currently
    selected: the selection is unchanged and the entry of every other
    category is as before, whatever category the path itself names.  After
    a "created" or "modified" event the map sends the name to the path and
    both flat lists hold the asset; after a "deleted" event the map no
    longer has the name. *)
Theorem update_event_outcome (rpath : rel_path) (ev : event_type) (a : asset_kind)
  (st : automation) :
  views_typed a st = true ->
  exists st',
    update_safetensors rpath ev a st = Ok st' /\
    checkpoint_type st' = checkpoint_type st /\
    (forall ct, ct <> checkpoint_type st ->
       dict_get (type_dics st') ct = dict_get (type_dics st) ct) /\
    (adds ev = true ->
       dict_get (dics_of a (category st')) (KStr (stem rpath)) = Some (VStr (path_str rpath)) /\
       In (VStr (stem rpath)) (names_of_view a (category st')) /\
       In (VStr (path_str rpath)) (lists_of a (category st'))) /\
    (ev = Deleted -> unique_keys (dics_of a (category st)) = true ->
       dict_get (dics_of a (category st')) (KStr (stem rpath)) = None).
Proof.
  intro VT.
  pose proof (views_typed_category_ok a st VT) as CO.
  pose proof (views_typed_in_category a st VT) as VI.
  eexists. split; [now apply update_event|].
  rewrite category_with_type_dics.
  destruct (event_category_all_views a ev (stem rpath) (path_str rpath) (category st))
    as [E1 [E2 [E3 _]]].
  rewrite E1, E2, E3.
  split; [reflexivity|]. split; [|split].
  - intros ct N. simpl. apply dict_get_set_other. now apply key_eqb_neq.
  - intro A. unfold updated_dics, updated_list. rewrite A.
    split; [apply dict_get_set_same|]. split; apply append_if_absent_has.
  - intros -> Un. unfold updated_dics. cbn [removes adds].
    now apply dict_get_pop_same.
Qed.

Lemma update_event_outcome_witness :
  exists st',
    update_safetensors ["Y"; "m2.safetensors"] Modified Checkpoint
      (sample_state two_category_store (KStr "X")) = Ok st' /\
    checkpoint_type st' = checkpoint_type (sample_state two_category_store (KStr "X")) /\
    (forall ct, ct <> checkpoint_type (sample_state two_category_store (KStr "X")) ->
       dict_get (type_dics st') ct
       = dict_get (type_dics (sample_state two_category_store (KStr "X"))) ct) /\
    (adds Modified = true ->
       dict_get (dics_of Checkpoint (category st')) (KStr (stem ["Y"; "m2.safetensors"]))
       = Some (VStr (path_str ["Y"; "m2.safetensors"])) /\
       In (VStr (stem ["Y"; "m2.safetensors"])) (names_of_view Checkpoint (category st')) /\
       In (VStr (path_str ["Y"; "m2.safetensors"])) (lists_of Checkpoint (category st'))) /\
    (Modified = Deleted ->
     unique_keys (dics_of Checkpoint (category (sample_state two_category_store (KStr "X"))))
     = true ->
       dict_get (dics_of Checkpoint (category st')) (KStr (stem ["Y"; "m2.safetensors"]))
       = None).
Proof.
  apply (update_event_outcome ["Y"; "m2.safetensors"] Modified Checkpoint
           (sample_state two_category_store (KStr "X"))).
  reflexivity.
Defined.

Lemma dict_set_swap_present (k1 k2 : key) (a b : value) (d : dict) :
  key_eqb k1 k2 = false ->
  dict_mem d k1 = true ->
  dict_set k1 a (dict_set k2 b d) = dict_set k2 b (dict_set k1 a d).
Proof.
  intro N. assert (N' : key_eqb k2 k1 = false) by (now rewrite key_eqb_sym).
  unfold dict_mem. induction d as [|[k0 v0] d IH]; simpl; [discriminate|].
  destruct (key_eqb k1 k0) eqn:E1.
  - apply key_eqb_eq in E1. subst k0. rewrite N'. simpl.
    rewrite key_eqb_refl, N'. reflexivity.
  - intro M. destruct (key_eqb k2 k0) eqn:E2; simpl; rewrite E1, ?E2.
    + reflexivity.
    + now rewrite IH.
Qed.

Lemma dict_mem_set_other (k k' : key) (v : value) (d : dict) :
  dict_mem d k = true -> dict_mem (dict_set k' v d) k = true.
Proof.
  unfold dict_mem. destruct (key_eqb k k') eqn:E.
  - apply key_eqb_eq in E. subst. now rewrite dict_get_set_same.
  - now rewrite dict_get_set_other.
Qed.

(** Writing three views again over a category that already has them
    replaces them in place. *)
Lemma three_views_overwritten (kd kl kn : key) (D1 L1 N1 D2 L2 N2 : value) (c : dict) :
  key_eqb kd kl = false -> key_eqb kd kn = false -> key_eqb kl kn = false ->
  dict_set kn N2 (dict_set kl L2 (dict_set kd D2
    (dict_set kn N1 (dict_set kl L1 (dict_set kd D1 c)))))
  = dict_set kn N2 (dict_set kl L2 (dict_set kd D2 c)).
Proof.
  intros Ndl Ndn Nln.
  rewrite (dict_set_swap_present kd kn D2 N1) by
    (try exact Ndn; apply dict_mem_set_other, dict_mem_set_same).
  rewrite (dict_set_swap_present kd kl D2 L1) by
    (try exact Ndl; apply dict_mem_set_same).
  rewrite dict_set_set.
  rewrite (dict_set_swap_present kl kn L2 N1) by
    (try exact Nln; apply dict_mem_set_same).
  now rewrite !dict_set_set.
Qed.

(** A "modified" event does what a "deleted" event followed by a
    "created" event for the same path does: the three events succeed and
    the two ways end in the same state. *)
Theorem modified_is_deleted_then_created (rpath : rel_path) (a : asset_kind)
  (st : automation) :
  views_typed a st = true ->
  exists st1 st2,
    update_safetensors rpath Deleted a st = Ok st1 /\
    update_safetensors rpath Created a st1 = Ok st2 /\
    update_safetensors rpath Modified a st = Ok st2.
Proof.
  intro VT.
  pose proof (views_typed_category_ok a st VT) as CO.
  pose proof (views_typed_in_category a st VT) as VI.
  set (name := stem rpath). set (spath := path_str rpath).
  set (c1 := event_category a Deleted name spath (category st)).
  set (st1 := with_type_dics st (dict_set (checkpoint_type st) (VDict c1) (type_dics st))).
  destruct (event_category_all_views a Deleted name spath (category st))
    as [E1 [E2 [E3 VI1]]].
  fold c1 in E1, E2, E3, VI1.
  assert (CO1 : category_ok st1) by apply category_ok_with_type_dics.
  assert (Cat1 : category st1 = c1) by apply category_with_type_dics.
  exists st1.
  exists (with_type_dics st
            (dict_set (checkpoint_type st)
               (VDict (event_category a Modified name spath (category st))) (type_dics st))).
  split; [now apply update_event|]. split; [|now apply update_event].
  rewrite update_event by (assumption || now rewrite Cat1).
  rewrite Cat1. fold name. fold spath.
  assert (EC : event_category a Created name spath c1
               = event_category a Modified name spath (category st)).
  { unfold event_category at 1. rewrite E1, E2, E3.
    unfold c1, event_category.
    destruct (view_keys_distinct a) as [K1 [K2 [K3 [K4 [K5 K6]]]]].
    rewrite three_views_overwritten by assumption.
    reflexivity. }
  rewrite EC. unfold st1, with_type_dics. simpl. now rewrite dict_set_set.
Qed.

Lemma modified_is_deleted_then_created_witness :
  exists st1 st2,
    update_safetensors ["X"; "char"; "foo.safetensors"] Deleted Char
      (sample_state sample_store (KStr "X")) = Ok st1 /\
    update_safetensors ["X"; "char"; "foo.safetensors"] Created Char st1 = Ok st2 /\
    update_safetensors ["X"; "char"; "foo.safetensors"] Modified Char
      (sample_state sample_store (KStr "X")) = Ok st2.
Proof.
  apply (modified_is_deleted_then_created ["X"; "char"; "foo.safetensors"] Char
           (sample_state sample_store (KStr "X"))).
  reflexivity.
Defined.

End CatalogEvents.

(** ** What the pruning pass leaves *)

Section PruningResult.

Variable names : list string.

(** The entries a pass leaves when it ends without an exception were each
    kept with a new value or passed over. *)
Lemma swept_entries (f : value -> verdict) (l : dict) :
  sweep_exn f l = None ->
  forall k v', In (k, v') (swept f l) ->
    exists v, In (k, v) l /\ (f v = Keep v' \/ (f v = Skip /\ v' = v)).
Proof.
  induction l as [|[k0 v0] l IH]; simpl; intros E k v' Hin; [destruct Hin|].
  destruct (f v0) as [|x| |x e] eqn:F; try discriminate.
  - destruct (IH E k v' Hin) as [v [H1 H2]]. exists v. split; [now right | exact H2].
  - destruct Hin as [H|Hin].
    + inversion H; subst. exists v0. split; [now left | now left].
    + destruct (IH E k v' Hin) as [v [H1 H2]]. exists v. split; [now right | exact H2].
  - destruct Hin as [H|Hin].
    + inversion H; subst. exists v'. split; [now left | right; now split].
    + destruct (IH E k v' Hin) as [v [H1 H2]]. exists v. split; [now right | exact H2].
Qed.

Lemma filter_loras_within (loras : value) :
  truthy (filter_loras names loras) = true ->
  loras_within names (filter_loras names loras) = true.
Proof.
  intro T. unfold loras_within. rewrite T. simpl.
  destruct loras; simpl in *; try discriminate.
  - destruct (str_in names s) eqn:E; [exact E | discriminate].
  - apply forallb_forall. intros x Hx. apply filter_In in Hx. tauto.
  - apply forallb_forall. intros x Hx. apply filter_In in Hx. tauto.
Qed.

Lemma clean_candidate_keeps_live (v v' : value) :
  clean_candidate names v = Keep v' -> candidate_live names v' = true.
Proof.
  destruct v as [| | | | |l|c]; simpl; try discriminate.
  destruct (negb (truthy (dict_get_default c (KStr "weight") VNone)) &&
            negb (truthy (dict_get_default c (KStr "per") VNone))) eqn:W; [discriminate|].
  destruct (negb (truthy (filter_loras names (dict_get_default c (KStr "loras") (VDict [])))))
    eqn:T; [discriminate|].
  intro H. inversion H; subst v'. clear H. simpl.
  rewrite !dict_get_default_set_other by reflexivity.
  rewrite dict_get_default_set_same.
  apply negb_false_iff in T. rewrite (filter_loras_within _ T), andb_true_r.
  destruct (truthy (dict_get_default c (KStr "weight") VNone));
    destruct (truthy (dict_get_default c (KStr "per") VNone)); try reflexivity.
  discriminate.
Qed.

Lemma clean_candidate_never_skips (v : value) : clean_candidate names v <> Skip.
Proof.
  destruct v; simpl; try discriminate.
  repeat match goal with |- context [if ?c then _ else _] => destruct c end; discriminate.
Qed.

Lemma clean_rule_keeps_live (v1 v1' : value) :
  rule_wf v1 = true ->
  clean_rule names v1 = Keep v1' -> rule_live names v1' = true.
Proof.
  unfold rule_wf. destruct v1 as [| | | | |l|r]; simpl; try discriminate.
  destruct (dict_get r (KStr "dic")) as [x|] eqn:G; [|discriminate].
  destruct x as [| | | | |l|dic]; try discriminate.
  intro Un. apply unique_keys_NoDup in Un.
  rewrite (sweep_self (clean_candidate names) dic Un).
  destruct (sweep_exn (clean_candidate names) dic) as [e|] eqn:E; [discriminate|].
  destruct (swept (clean_candidate names) dic) as [|kv dic'] eqn:S; [discriminate|].
  cbn [truthy]. intro H. inversion H; subst v1'. clear H.
  simpl. rewrite dict_get_set_same. cbn [truthy andb].
  apply forallb_forall. intros [k v'] Hin. rewrite <- S in Hin.
  destruct (swept_entries _ dic E k v' Hin) as [v [_ [K|[Sk _]]]].
  - simpl. eapply clean_candidate_keeps_live; eauto.
  - now elim (clean_candidate_never_skips v).
Qed.

Lemma clean_rule_skips_no_dict (v1 : value) :
  clean_rule names v1 = Skip -> rule_live names v1 = true.
Proof.
  destruct v1; simpl; try reflexivity.
  destruct (dict_get d (KStr "dic")) as [x|]; [|discriminate].
  destruct x; try discriminate.
  destruct (sweep (clean_candidate names) d0 d0) as [dic' [e|]]; [discriminate|].
  destruct dic'; discriminate.
Qed.

Lemma swept_rules_live (wl : dict) :
  weight_lora_wf wl = true ->
  sweep_exn (clean_rule names) wl = None ->
  forallb (fun kv => rule_live names (snd kv)) (swept (clean_rule names) wl) = true.
Proof.
  intros WF E. unfold weight_lora_wf in WF.
  rewrite andb_true_iff, forallb_forall in WF. destruct WF as [_ R].
  apply forallb_forall. intros [k v'] Hin.
  destruct (swept_entries _ wl E k v' Hin) as [v [Hv [K|[Sk ->]]]].
  - simpl. eapply clean_rule_keeps_live; [|exact K]. now apply (R (k, v)).
  - simpl. now apply clean_rule_skips_no_dict.
Qed.

End PruningResult.

Section PruningOutcome.

(** When [_clean_weight_lora] ends without an exception, every rule left
    in the rule table has a candidate table that is not empty, and every
    candidate left has a truthy [weight] or [per] and names overlays of the
    auxiliary name list only, at least one: what refers to nothing that
    exists is gone. *)
Theorem clean_weight_lora_leaves_live_rules (ct : key) (td wl' : dict) :
  store_wf ct td = true ->
  snd (_clean_weight_lora ct td) = None ->
  get_nested (fst (_clean_weight_lora ct td)) [ct; KStr "WeightLora"] (VDict []) = VDict wl' ->
  forallb (fun kv => rule_live (lora_file_names ct td) (snd kv)) wl' = true.
Proof.
  intros WF. unfold store_wf in WF.
  assert (Triv : (exists e, _clean_weight_lora ct td = (td, e)) ->
                 (forall wl, get_nested td [ct; KStr "WeightLora"] (VDict []) <> VDict wl) ->
                 snd (_clean_weight_lora ct td) = None ->
                 get_nested (fst (_clean_weight_lora ct td)) [ct; KStr "WeightLora"] (VDict [])
                 = VDict wl' ->
                 forallb (fun kv => rule_live (lora_file_names ct td) (snd kv)) wl' = true).
  { intros [e H] N. rewrite H. cbn [fst snd]. intros _ G. now elim (N wl'). }
  destruct (get_nested td [ct; KStr "WeightLora"] (VDict [])) as [| | | | |l|wl] eqn:W;
    try (apply Triv; [|intros wl; discriminate];
         unfold _clean_weight_lora; rewrite W; simpl;
         repeat match goal with |- context [if ?c then _ else _] => destruct c end;
         eexists; reflexivity).
  clear Triv.
  destruct wl as [|kv wl0].
  { unfold _clean_weight_lora. rewrite W. cbn [truthy negb fst snd]. intros _ H.
    rewrite W in H. inversion H. reflexivity. }
  destruct (get_nested_two_found td ct (KStr "WeightLora") kv wl0 W) as [next [Gct Gwl]].
  set (names := lora_file_names ct td).
  destruct (clean_rules_twice names (kv :: wl0) WF) as [H1 _].
  assert (First : _clean_weight_lora ct td =
                  (dict_set ct (VDict (dict_set (KStr "WeightLora")
                                         (VDict (swept (clean_rule names) (kv :: wl0))) next)) td,
                   sweep_exn (clean_rule names) (kv :: wl0))).
  { unfold _clean_weight_lora. rewrite W. cbn [truthy negb]. fold names.
    rewrite H1. now rewrite (set_nested_two td next) by exact Gct. }
  rewrite First. cbn [fst snd]. intros E G.
  rewrite get_nested_two_set_same in G.
  assert (G' : swept (clean_rule names) (kv :: wl0) = wl') by congruence.
  rewrite <- G'. now apply swept_rules_live.
Qed.

Lemma clean_weight_lora_leaves_live_rules_witness :
  forallb (fun kv => rule_live (lora_file_names (KStr "X") sample_store) (snd kv))
    [(KStr "style",
       VDict [(KStr "weight", VBool true);
              (KStr "dic",
                VDict [(KStr "a", VDict [(KStr "weight", VInt 1);
                                         (KStr "loras", VList [VStr "l1"])])])])]
  = true.
Proof.
  apply (clean_weight_lora_leaves_live_rules (KStr "X") sample_store).
  - reflexivity.
  - reflexivity.
  - reflexivity.
Defined.

End PruningOutcome.

(** ** Weight tables and the names they cover *)

Section WeightTables.

Lemma keys_of_strs (l : list string) : keys_of_values (map VStr l) = Ok (map KStr l).
Proof. induction l as [|s l IH]; simpl; [reflexivity | now rewrite IH]. Qed.

Lemma sub_names_all_weighted (wc : dict) (names : list value) :
  forall ks,
    keys_of_values names = Ok ks ->
    (forall k, In k ks -> dict_mem wc k = true) ->
    sub_names names (VDict wc) = Ok [].
Proof.
  unfold sub_names.
  induction names as [|x names IH]; intros ks HK Hall; [reflexivity|].
  simpl in HK. destruct (to_key x) as [k0|] eqn:Ek; [|discriminate]. simpl in HK.
  destruct (keys_of_values names) as [ks'|] eqn:Eks; [|discriminate].
  inversion HK; subst ks. simpl. rewrite Ek. simpl.
  rewrite (Hall k0) by (now left). simpl.
  apply (IH ks' eq_refl). intros k Hk. apply Hall. now right.
Qed.

(** The table a weight pass builds and stores. *)
Lemma weight_pass (cfg td c : dict) (ct : key) (nk yk dk tk : string) (weight_yml : dict)
  (names : list value) (ks : list key) :
  dict_get td ct = Some (VDict c) ->
  dict_get c (KStr nk) = Some (VList names) ->
  keys_of_values names = Ok ks ->
  exists wc,
    (names <- as_list (get_nested td [ct; KStr nk] (VList [])) ;;
     wc <- weight_table cfg td ct yk dk weight_yml names [] ;;
     set_nested td (VDict wc) [ct; KStr tk])
    = Ok (dict_set ct (VDict (dict_set (KStr tk) (VDict wc) c)) td) /\
    (forall k, In k ks -> dict_get wc k = Some (weight_for cfg td ct yk dk weight_yml k)) /\
    (forall k, dict_mem wc k = true <-> In k ks).
Proof.
  intros Hct Hn HK.
  destruct (weight_table_entries cfg td ct yk dk weight_yml names [] ks HK)
    as [wc [Hwc [Hin Hout]]].
  exists wc. split; [|split].
  - rewrite get_nested_two.
    unfold dict_get_default at 1. rewrite Hct. unfold dict_mem, dict_get_default.
    rewrite Hn. cbn [as_list bind]. rewrite Hwc. cbn [bind].
    now apply set_nested_two.
  - exact Hin.
  - intro k. unfold dict_mem. split.
    + intro M. destruct (in_dec key_eq_dec k ks) as [I|NI]; [exact I|].
      rewrite (Hout k NI) in M. discriminate.
    + intro I. now rewrite (Hin k I).
Qed.

(** Each of the two weight passes gives a weight to every name of its name
    list and to nothing else: the table stored for the category has
    exactly the names as keys, the entry of a name being the truthy
    [weight] of its record, else its entry in the weight file, else the
    configured default.  Hence the names "without a weight" that the
    selection looks for in such a table are none. *)
Theorem weight_tables_cover_names (cfg td c : dict) (ct : key) (weight_yml : dict)
  (names : list value) (ks : list key) :
  dict_get td ct = Some (VDict c) ->
  keys_of_values names = Ok ks ->
  (dict_get c (KStr "CheckpointFileNames") = Some (VList names) ->
   exists td' wc,
     _get_weight_checkpoint cfg weight_yml ct td = Ok td' /\
     get_nested td' [ct; KStr "WeightCheckpoint"] (VDict []) = VDict wc /\
     (forall k, dict_mem wc k = true <-> In k ks) /\
     (forall k, In k ks ->
        dict_get wc k
        = Some (weight_for cfg td ct "dicCheckpointYml" "CheckpointWeightDefault" weight_yml k)) /\
     sub_names names (VDict wc) = Ok []) /\
  (dict_get c (KStr "CharFileNames") = Some (VList names) ->
   exists td' wc,
     _get_weight_char cfg weight_yml ct td = Ok td' /\
     get_nested td' [ct; KStr "WeightChar"] (VDict []) = VDict wc /\
     (forall k, dict_mem wc k = true <-> In k ks) /\
     (forall k, In k ks ->
        dict_get wc k
        = Some (weight_for cfg td ct "dicLoraYml" "CharWeightDefault" weight_yml k)) /\
     sub_names names (VDict wc) = Ok []).
Proof.
  intros Hct HK. split; intro Hn.
  - destruct (weight_pass cfg td c ct "CheckpointFileNames" "dicCheckpointYml"
                "CheckpointWeightDefault" "WeightCheckpoint" weight_yml names ks Hct Hn HK)
      as [wc [E [Hin Hmem]]].
    eexists. exists wc. split; [exact E|]. split; [apply get_nested_two_set_same|].
    split; [exact Hmem|]. split; [exact Hin|].
    apply (sub_names_all_weighted wc names ks HK). intros k Hk. now apply Hmem.
  - destruct (weight_pass cfg td c ct "CharFileNames" "dicLoraYml"
                "CharWeightDefault" "WeightChar" weight_yml names ks Hct Hn HK)
      as [wc [E [Hin Hmem]]].
    eexists. exists wc. split; [exact E|]. split; [apply get_nested_two_set_same|].
    split; [exact Hmem|]. split; [exact Hin|].
    apply (sub_names_all_weighted wc names ks HK). intros k Hk. now apply Hmem.
Qed.

Lemma weight_tables_cover_names_witness :
  (dict_get [(KStr "CheckpointFileNames", VList [VStr "m1"; VStr "m2"]);
             (KStr "CharFileNames", VList [VStr "m1"; VStr "m2"])]
     (KStr "CheckpointFileNames") = Some (VList [VStr "m1"; VStr "m2"]) ->
   exists td' wc,
     _get_weight_checkpoint [] [(KStr "m1", VInt 7)] (KStr "X")
       [(KStr "X", VDict [(KStr "CheckpointFileNames", VList [VStr "m1"; VStr "m2"]);
                          (KStr "CharFileNames", VList [VStr "m1"; VStr "m2"])])] = Ok td' /\
     get_nested td' [KStr "X"; KStr "WeightCheckpoint"] (VDict []) = VDict wc /\
     (forall k, dict_mem wc k = true <-> In k [KStr "m1"; KStr "m2"]) /\
     (forall k, In k [KStr "m1"; KStr "m2"] ->
        dict_get wc k
        = Some (weight_for []
                  [(KStr "X", VDict [(KStr "CheckpointFileNames", VList [VStr "m1"; VStr "m2"]);
                                     (KStr "CharFileNames", VList [VStr "m1"; VStr "m2"])])]
                  (KStr "X") "dicCheckpointYml" "CheckpointWeightDefault"
                  [(KStr "m1", VInt 7)] k)) /\
     sub_names [VStr "m1"; VStr "m2"] (VDict wc) = Ok []) /\
  (dict_get [(KStr "CheckpointFileNames", VList [VStr "m1"; VStr "m2"]);
             (KStr "CharFileNames", VList [VStr "m1"; VStr "m2"])]
     (KStr "CharFileNames") = Some (VList [VStr "m1"; VStr "m2"]) ->
   exists td' wc,
     _get_weight_char [] [(KStr "m1", VInt 7)] (KStr "X")
       [(KStr "X", VDict [(KStr "CheckpointFileNames", VList [VStr "m1"; VStr "m2"]);
                          (KStr "CharFileNames", VList [VStr "m1"; VStr "m2"])])] = Ok td' /\
     get_nested td' [KStr "X"; KStr "WeightChar"] (VDict []) = VDict wc /\
     (forall k, dict_mem wc k = true <-> In k [KStr "m1"; KStr "m2"]) /\
     (forall k, In k [KStr "m1"; KStr "m2"] ->
        dict_get wc k
        = Some (weight_for []
                  [(KStr "X", VDict [(KStr "CheckpointFileNames", VList [VStr "m1"; VStr "m2"]);
                                     (KStr "CharFileNames", VList [VStr "m1"; VStr "m2"])])]
                  (KStr "X") "dicLoraYml" "CharWeightDefault"
                  [(KStr "m1", VInt 7)] k)) /\
     sub_names [VStr "m1"; VStr "m2"] (VDict wc) = Ok []).
Proof.
  apply (weight_tables_cover_names []
           [(KStr "X", VDict [(KStr "CheckpointFileNames", VList [VStr "m1"; VStr "m2"]);
                              (KStr "CharFileNames", VList [VStr "m1"; VStr "m2"])])]
           [(KStr "CheckpointFileNames", VList [VStr "m1"; VStr "m2"]);
            (KStr "CharFileNames", VList [VStr "m1"; VStr "m2"])]
           (KStr "X") [(KStr "m1", VInt 7)] [VStr "m1"; VStr "m2"] [KStr "m1"; KStr "m2"]).
  - reflexivity.
  - reflexivity.
Defined.

End WeightTables.

(** ** Initialisation of a category *)

Section InitOutcome.

Lemma dict_set_nonempty (k : key) (v : value) (d : dict) : dict_set k v d <> [].
Proof. destruct d as [|[k0 v0] d]; simpl; [discriminate|]. destruct (key_eqb k k0); discriminate. Qed.

Lemma dict_of_zip_nonempty (ns ps : list string) :
  forall acc, acc <> [] -> dict_of_zip ns ps acc <> [].
Proof.
  revert ps. induction ns as [|n ns IH]; intros ps acc NE; [exact NE|].
  destruct ps as [|p ps]; [exact NE|]. simpl. apply IH. apply dict_set_nonempty.
Qed.

Lemma scan_truthy (files : list rel_path) :
  files <> [] ->
  let '(file_dict, file_list, file_names) := get_file_dict_list files in
  truthy (VDict file_dict) = true /\ truthy (str_list file_list) = true /\
  truthy (str_list file_names) = true.
Proof.
  intro NE. destruct files as [|f files]; [congruence|].
  unfold get_file_dict_list. simpl. split; [|split; reflexivity].
  destruct (dict_of_zip (map stem files) (map path_str files)
              [(KStr (stem f), VStr (path_str f))]) eqn:E; [|reflexivity].
  exfalso. revert E. apply dict_of_zip_nonempty. discriminate.
Qed.

Lemma set_nested_in_category (td c : dict) (ct k : key) (v : value) :
  set_nested (dict_set ct (VDict c) td) v [ct; k]
  = Ok (dict_set ct (VDict (dict_set k v c)) td).
Proof.
  rewrite (set_nested_two _ c) by apply dict_get_set_same. now rewrite dict_set_set.
Qed.

Lemma get_safetensors_in_category (a : asset_kind) (files : list rel_path) (ct : key)
  (td c : dict) :
  get_safetensors a files ct (dict_set ct (VDict c) td)
  = let '(file_dict, file_list, file_names) := get_file_dict_list files in
    let td' :=
      dict_set ct
        (VDict (dict_set (KStr (names_key a)) (str_list file_names)
                  (dict_set (KStr (lists_key a)) (str_list file_list)
                     (dict_set (KStr (dics_key a)) (VDict file_dict) c)))) td in
    match a with
    | Checkpoint =>
        if negb (truthy (VDict file_dict)) || negb (truthy (str_list file_list))
           || negb (truthy (str_list file_names))
        then Raise FileNotFoundError else Ok td'
    | _ => Ok td'
    end.
Proof.
  unfold get_safetensors. destruct (get_file_dict_list files) as [[fd fl] fn].
  rewrite !set_nested_in_category. cbn [bind].
  rewrite !set_nested_in_category. cbn [bind].
  rewrite !set_nested_in_category. cbn [bind]. reflexivity.
Qed.

Lemma weight_checkpoint_in_category (cfg td c : dict) (ct : key) (weight_yml : dict)
  (names : list string) :
  dict_get c (KStr "CheckpointFileNames") = Some (str_list names) ->
  exists wc,
    _get_weight_checkpoint cfg weight_yml ct (dict_set ct (VDict c) td)
    = Ok (dict_set ct (VDict (dict_set (KStr "WeightCheckpoint") (VDict wc) c)) td).
Proof.
  intro Hn.
  destruct (weight_pass cfg (dict_set ct (VDict c) td) c ct "CheckpointFileNames"
              "dicCheckpointYml" "CheckpointWeightDefault" "WeightCheckpoint" weight_yml
              (map VStr names) (map KStr names)) as [wc [E _]].
  - apply dict_get_set_same.
  - exact Hn.
  - apply keys_of_strs.
  - exists wc. unfold _get_weight_checkpoint. rewrite E. now rewrite dict_set_set.
Qed.

Lemma weight_char_in_category (cfg td c : dict) (ct : key) (weight_yml : dict)
  (names : list string) :
  dict_get c (KStr "CharFileNames") = Some (str_list names) ->
  exists wc,
    _get_weight_char cfg weight_yml ct (dict_set ct (VDict c) td)
    = Ok (dict_set ct (VDict (dict_set (KStr "WeightChar") (VDict wc) c)) td).
Proof.
  intro Hn.
  destruct (weight_pass cfg (dict_set ct (VDict c) td) c ct "CharFileNames"
              "dicLoraYml" "CharWeightDefault" "WeightChar" weight_yml
              (map VStr names) (map KStr names)) as [wc [E _]].
  - apply dict_get_set_same.
  - exact Hn.
  - apply keys_of_strs.
  - exists wc. unfold _get_weight_char. rewrite E. now rewrite dict_set_set.
Qed.

(** Initialising a category fails with [FileNotFoundError] when the scan
    finds no base-model file, whatever else is on disk.  When it finds
    one, and the pruning pass is not asked for, initialisation succeeds
    (character and auxiliary overlays may be missing altogether) and the
    store then holds for the category the three views of each asset kind
    as the scans returned them. *)
Theorem init_type_needs_checkpoints (cfg : dict) (fs : disk) (ct : key) (td : dict) :
  (checkpoint_files fs = [] ->
   forall delete, init_type cfg fs delete ct td = Raise FileNotFoundError) /\
  (checkpoint_files fs <> [] ->
   exists td',
     init_type cfg fs false ct td = Ok td' /\
     forall a,
       let files := match a with
                    | Checkpoint => checkpoint_files fs
                    | Char => char_files fs
                    | Etc => etc_files fs
                    end in
       get_nested td' [ct; KStr (dics_key a)] VNone
       = VDict (fst (fst (get_file_dict_list files))) /\
       get_nested td' [ct; KStr (lists_key a)] VNone
       = str_list (snd (fst (get_file_dict_list files))) /\
       get_nested td' [ct; KStr (names_key a)] VNone
       = str_list (snd (get_file_dict_list files))).
Proof.
  split.
  - intros E delete. unfold init_type. rewrite get_safetensors_in_category, E. reflexivity.
  - intro NE. unfold init_type. rewrite get_safetensors_in_category.
    pose proof (scan_truthy (checkpoint_files fs) NE) as T.
    destruct (get_file_dict_list (checkpoint_files fs)) as [[fd fl] fn] eqn:Sc.
    destruct T as [T1 [T2 T3]]. rewrite T1, T2, T3. cbn [negb orb bind].
    rewrite get_safetensors_in_category.
    destruct (get_file_dict_list (char_files fs)) as [[cd cl] cn] eqn:Sch.
    cbn [bind].
    rewrite get_safetensors_in_category.
    destruct (get_file_dict_list (etc_files fs)) as [[ed el] en] eqn:Se.
    cbn [bind].
    rewrite !set_nested_in_category. cbn [bind].
    rewrite !set_nested_in_category. cbn [bind].
    match goal with
    | |- context [_get_weight_checkpoint cfg _ ct (dict_set ct (VDict ?c) td)] =>
        destruct (weight_checkpoint_in_category cfg td c ct (weight_checkpoint_yml fs) fn)
          as [wc E1]; [reflexivity|]; rewrite E1
    end.
    cbn [bind]. unfold _get_weight_lora.
    rewrite !set_nested_in_category. cbn [bind].
    match goal with
    | |- context [_get_weight_char cfg _ ct (dict_set ct (VDict ?c) td)] =>
        destruct (weight_char_in_category cfg td c ct (weight_char_yml fs) cn)
          as [wch E2]; [reflexivity|]; rewrite E2
    end.
    cbn [bind].
    rewrite !set_nested_in_category. cbn [bind].
    rewrite !set_nested_in_category. cbn [bind].
    destruct (truthy (workflow_api_file fs)).
    + rewrite set_nested_in_category. eexists. split; [reflexivity|].
      intros [| |]; cbn zeta; rewrite ?Sc, ?Sch, ?Se; cbn [fst snd];
        rewrite !get_nested_two, !dict_get_default_set_same; repeat split; reflexivity.
    + eexists. split; [reflexivity|].
      intros [| |]; cbn zeta; rewrite ?Sc, ?Sch, ?Se; cbn [fst snd];
        rewrite !get_nested_two, !dict_get_default_set_same; repeat split; reflexivity.
Qed.

End InitOutcome.

(** ** The "per" strategy of overlay selection *)

Section PerStrategy.

Variable rnd : nat -> Q.
Hypothesis U : unit_oracle rnd.

Lemma per_loop_cons (pf pm : value) (k2 : key) (v2 : value) (rest : dict) (cnt : Z)
  (tmp : dict) :
  per_loop rnd pf pm ((k2, v2) :: rest) cnt tmp
  = (full <~ lift (if truthy pf then py_ge (VInt cnt) pm else Ok false) ;;
     if full then ret tmp
     else
       c <~ lift (as_dict v2) ;;
       let per_val := dict_get_default c (KStr "per") (VInt 0) in
       r <~ random rnd ;;
       hit <~ lift (py_gt per_val (VFloat r)) ;;
       if hit then
         lora <~ random_weight rnd (dict_get_default c (KStr "loras") VNone) ;;
         lk <~ lift (to_key lora) ;;
         per_loop rnd pf pm rest (cnt + 1) (dict_set lk v2 tmp)
       else per_loop rnd pf pm rest cnt tmp)%rand.
Proof. reflexivity. Qed.

Lemma dict_set_length (k : key) (v : value) (d : dict) :
  (List.length (dict_set k v d) <= S (List.length d))%nat.
Proof.
  induction d as [|[k0 v0] d IH]; simpl; [lia|].
  destruct (key_eqb k k0); simpl; lia.
Qed.

Lemma pickable_gives_name (loras : value) (n : nat) :
  loras_pickable loras = true ->
  exists s n', random_weight rnd loras n = Ok (VStr s, n') /\ (n <= n' <= S n)%nat.
Proof.
  destruct loras; simpl; try discriminate.
  - intros _. exists s, n. split; [reflexivity | lia].
  - destruct l as [|x l]; [discriminate|]. intro F.
    destruct (choice_member rnd U (x :: l) n ltac:(discriminate)) as [v [E Hin]].
    assert (Sv : is_str v = true).
    { rewrite forallb_forall in F. now apply F. }
    destruct v; try discriminate.
    exists s, (S n). split; [exact E | lia].
Qed.

(** Without [perFirsts] the loop never looks at [perMax]. *)
Lemma per_loop_ignores_max (pf : value) (items : dict) :
  truthy pf = false ->
  forall pm pm' cnt tmp n,
    per_loop rnd pf pm items cnt tmp n = per_loop rnd pf pm' items cnt tmp n.
Proof.
  intro F. induction items as [|[k2 v2] rest IH]; intros pm pm' cnt tmp n; [reflexivity|].
  rewrite !per_loop_cons, F. unfold mbind, lift, ret.
  destruct (as_dict v2) as [c|]; [|reflexivity].
  unfold random.
  destruct (py_gt (dict_get_default c (KStr "per") (VInt 0)) (VFloat (rnd n))) as [hit|];
    [|reflexivity].
  destruct hit; [|apply IH].
  destruct (random_weight rnd (dict_get_default c (KStr "loras") VNone) (S n)) as [[lora n2]|];
    [|reflexivity].
  destruct (to_key lora); [apply IH | reflexivity].
Qed.

(** The loop of the "per" strategy over candidates whose [per] is a number
    and whose overlay names can be picked from.  With [perFirsts] set and
    an integer [perMax] the loop ends normally and accepts at most [perMax]
    candidates: the table it returns has grown by no more than what was
    left of [perMax], and by nothing (without a draw) once the count has
    reached it.  Without [perFirsts] the value of [perMax] makes no
    difference at all. *)
Theorem per_loop_respects_cap (pf : value) (m : Z) (items : dict) (cnt : Z) (tmp : dict)
  (n : nat) :
  forallb per_candidate_ok (dict_values items) = true ->
  (truthy pf = true ->
   exists tmp' n',
     per_loop rnd pf (VInt m) items cnt tmp n = Ok (tmp', n') /\
     (List.length tmp' <= List.length tmp + Z.to_nat (m - cnt))%nat /\
     ((m <= cnt)%Z -> tmp' = tmp /\ n' = n)) /\
  (truthy pf = false ->
   forall pm, per_loop rnd pf pm items cnt tmp n = per_loop rnd pf (VInt m) items cnt tmp n).
Proof.
  intro OK. split; [|intros F pm; now apply per_loop_ignores_max].
  intro T. revert cnt tmp n.
  induction items as [|[k2 v2] rest IH]; intros cnt tmp n.
  - exists tmp, n. split; [reflexivity|]. split; [lia | tauto].
  - simpl in OK. apply andb_true_iff in OK. destruct OK as [Ov Orest].
    specialize (IH Orest).
    rewrite per_loop_cons, T. unfold mbind at 1, lift at 1.
    change (py_ge (VInt cnt) (VInt m)) with (Ok (Qle_bool (inject_Z m) (inject_Z cnt))).
    destruct (Qle_bool (inject_Z m) (inject_Z cnt)) eqn:Full.
    + exists tmp, n. split; [reflexivity|]. split; [lia | tauto].
    + assert (Lt : (cnt < m)%Z).
      { destruct (Z.lt_ge_cases cnt m) as [H|H]; [exact H|].
        assert (Qle_bool (inject_Z m) (inject_Z cnt) = true).
        { apply Qle_bool_iff. now rewrite <- Zle_Qle. }
        congruence. }
      destruct v2; try discriminate. rename d into c.
      simpl in Ov. apply andb_true_iff in Ov. destruct Ov as [Np Pk].
      unfold mbind, lift. cbn [as_dict]. unfold random. cbv zeta.
      rewrite (py_gt_number_float _ (rnd n) Np).
      destruct (Qlt_bool (rnd n) (qv (dict_get_default c (KStr "per") (VInt 0)))).
      * destruct (pickable_gives_name _ (S n) Pk) as [s [n2 [E _]]].
        rewrite E. cbn [to_key].
        destruct (IH (cnt + 1)%Z (dict_set (KStr s) (VDict c) tmp) n2)
          as [tmp' [n' [R [B _]]]].
        exists tmp', n'. split; [exact R|]. split; [|lia].
        pose proof (dict_set_length (KStr s) (VDict c) tmp). lia.
      * destruct (IH cnt tmp (S n)) as [tmp' [n' [R [B _]]]].
        exists tmp', n'. split; [exact R|]. split; [exact B | lia].
Qed.

End PerStrategy.

Lemma per_loop_respects_cap_witness :
  (truthy (VBool true) = true ->
   exists tmp' n',
     per_loop (fun _ => 1 # 4) (VBool true) (VInt 1)
       [(KStr "a", VDict [(KStr "per", VFloat (1 # 2)); (KStr "loras", VStr "l1")]);
        (KStr "b", VDict [(KStr "per", VFloat (1 # 2)); (KStr "loras", VStr "l2")])]
       0 [] 0%nat = Ok (tmp', n') /\
     (List.length tmp' <= List.length (@nil (key * value)) + Z.to_nat (1 - 0))%nat /\
     ((1 <= 0)%Z -> tmp' = [] /\ n' = 0%nat)) /\
  (truthy (VBool true) = false ->
   forall pm,
     per_loop (fun _ => 1 # 4) (VBool true) pm
       [(KStr "a", VDict [(KStr "per", VFloat (1 # 2)); (KStr "loras", VStr "l1")]);
        (KStr "b", VDict [(KStr "per", VFloat (1 # 2)); (KStr "loras", VStr "l2")])]
       0 [] 0%nat
     = per_loop (fun _ => 1 # 4) (VBool true) (VInt 1)
       [(KStr "a", VDict [(KStr "per", VFloat (1 # 2)); (KStr "loras", VStr "l1")]);
        (KStr "b", VDict [(KStr "per", VFloat (1 # 2)); (KStr "loras", VStr "l2")])]
       0 [] 0%nat).
Proof.
  apply (per_loop_respects_cap (fun _ => 1 # 4)).
  - intro n. split; [discriminate | reflexivity].
  - reflexivity.
Defined.

(** ** Writes to the workflow *)

Section WorkflowWrites.

Lemma resolve_path_param (wf : dict) (node k : key) :
  resolve_path wf [node; KStr "inputs"; k]
  = match dict_get wf node with
    | Some (VDict nd) =>
        match dict_get nd (KStr "inputs") with
        | Some (VDict inp) => dict_get inp k
        | _ => None
        end
    | _ => None
    end.
Proof. reflexivity. Qed.

Lemma set_exists_param (wf : dict) (v : value) (node k : key) :
  set_exists wf v [node; KStr "inputs"; k]
  = match dict_get wf node with
    | Some (VDict nd) =>
        match dict_get nd (KStr "inputs") with
        | Some (VDict inp) =>
            if dict_mem inp k
            then Some (dict_set node
                         (VDict (dict_set (KStr "inputs") (VDict (dict_set k v inp)) nd)) wf)
            else None
        | _ => None
        end
    | _ => None
    end.
Proof.
  simpl. destruct (dict_get wf node) as [x|]; [|reflexivity].
  destruct x; try reflexivity.
  destruct (dict_get d (KStr "inputs")) as [y|]; [|reflexivity].
  destruct y; try reflexivity.
  now destruct (dict_mem d0 k).
Qed.

Lemma resolve_after_set_workflow (st : automation) (node k : key) (v : value)
  (node' k' : key) :
  resolve_path (workflow_api (set_workflow st node k v)) [node'; KStr "inputs"; k']
  = if has_param st node k && key_eqb node' node && key_eqb k' k then Some v
    else resolve_path (workflow_api st) [node'; KStr "inputs"; k'].
Proof.
  unfold set_workflow, has_param. rewrite set_exists_param, (resolve_path_param _ node k).
  destruct (dict_get (workflow_api st) node) as [x|] eqn:G1; [|reflexivity].
  destruct x; try reflexivity. rename d into nd.
  destruct (dict_get nd (KStr "inputs")) as [y|] eqn:G2; [|reflexivity].
  destruct y; try reflexivity. rename d into inp.
  unfold dict_mem. destruct (dict_get inp k) as [old|] eqn:G3; [|reflexivity].
  cbn [workflow_api with_workflow_api andb]. rewrite !resolve_path_param.
  destruct (key_eqb node' node) eqn:En.
  - apply key_eqb_eq in En. subst node'.
    rewrite dict_get_set_same, dict_get_set_same, G1, G2.
    destruct (key_eqb k' k) eqn:Ek.
    + apply key_eqb_eq in Ek. subst k'. apply dict_get_set_same.
    + now apply dict_get_set_other.
  - now rewrite dict_get_set_other by exact En.
Qed.

Lemma get_workflow_resolved (st : automation) (node k : key) :
  get_workflow st node k
  = match resolve_path (workflow_api st) [node; KStr "inputs"; k] with
    | Some v => v
    | None => VNone
    end.
Proof.
  unfold get_workflow. rewrite resolve_path_param.
  cbn [get_nested]. unfold dict_get_default, dict_mem.
  destruct (dict_get (workflow_api st) node) as [x|]; [|reflexivity].
  destruct x; try reflexivity.
  destruct (dict_get d (KStr "inputs")) as [y|]; [|reflexivity].
  destruct y; try reflexivity.
  now destruct (dict_get d0 k).
Qed.

Lemma set_workflow_cases (st : automation) (node k : key) (v : value) :
  set_workflow st node k v = st \/
  exists wf, set_workflow st node k v = with_workflow_api st wf.
Proof.
  unfold set_workflow. destruct (set_exists _ _ _) as [wf|]; [right; now exists wf | now left].
Qed.

Lemma has_param_after_set (st : automation) (node k : key) (v : value) (node' k' : key) :
  has_param (set_workflow st node k v) node' k' = has_param st node' k'.
Proof.
  unfold has_param at 1. rewrite resolve_after_set_workflow.
  destruct (has_param st node k && key_eqb node' node && key_eqb k' k) eqn:C;
    [|reflexivity].
  apply andb_true_iff in C. destruct C as [C Ek]. apply andb_true_iff in C.
  destruct C as [H En]. apply key_eqb_eq in En, Ek. now subst.
Qed.

Lemma get_workflow_after_write (st : automation) (node k : key) (v : value) (node' k' : key) :
  get_workflow (set_workflow st node k v) node' k'
  = if has_param st node k && key_eqb node' node && key_eqb k' k then v
    else get_workflow st node' k'.
Proof.
  rewrite !get_workflow_resolved, resolve_after_set_workflow.
  now destruct (has_param st node k && key_eqb node' node && key_eqb k' k).
Qed.

(** Reading the workflow after a write.  [set_workflow] changes the
    parameter it names when the node has it, to the value given, and
    changes nothing else: every other parameter of every node reads as
    before, a parameter the workflow does not have is not created, and
    everything outside the workflow is left alone. *)
Theorem get_workflow_after_set (st : automation) (node k : key) (v : value) :
  let st' := set_workflow st node k v in
  (forall node' k',
     get_workflow st' node' k'
     = if has_param st node k && key_eqb node' node && key_eqb k' k then v
       else get_workflow st node' k') /\
  (forall node' k', has_param st' node' k' = has_param st node' k') /\
  st' = with_workflow_api st (workflow_api st').
Proof.
  intro st'. split; [|split].
  - intros node' k'. apply get_workflow_after_write.
  - intros node' k'. apply has_param_after_set.
  - unfold st'. destruct (set_workflow_cases st node k v) as [->|[wf ->]];
      [now destruct st | reflexivity].
Qed.

End WorkflowWrites.

Section WorkflowLoops.

Variable rnd : nat -> Q.

Lemma random_min_max_plain (v : value) (n : nat) :
  (forall l, v <> VList l) -> random_min_max rnd v n = Ok (v, n).
Proof. intro NL. destruct v; try reflexivity. now elim (NL l). Qed.

(** The loop of [set_workflow_func_random] with the range picker, over
    parameters for which the method returns a value that is no list.  The
    loop ends normally without a draw, and afterwards a parameter of the
    list reads as the value the method returned for it, provided that
    value is truthy and the node has the parameter; a falsy value ([0],
    [0.0], the empty string, [None], [False]) is never written, a parameter
    the node does not have is not created, and every other parameter reads
    as before.  [set_workflow_func_random3] does the same with a method
    that is given the node as well. *)
Theorem set_workflow_func_random_writes (node : key) (ks : list key)
  (f : automation -> key -> result value) (st : automation) (n : nat) :
  (forall s wf k, f (with_workflow_api s wf) k = f s k) ->
  (forall k, In k ks -> exists v, f st k = Ok v /\ forall l, v <> VList l) ->
  exists st',
    set_workflow_func_random node ks (Some f) (Some (random_min_max rnd)) st n = Ok (st', n) /\
    (forall node' k',
       get_workflow st' node' k'
       = if key_eqb node' node && key_mem k' ks && truthy (returned (f st k'))
            && has_param st node k'
         then returned (f st k')
         else get_workflow st node' k') /\
    set_workflow_func_random3 node ks (Some (fun s _ k => f s k))
      (Some (random_min_max rnd)) st n = Ok (st', n).
Proof.
  intros Hf.
  assert (Three : forall s,
            set_workflow_func_random3 node ks (Some (fun s _ k => f s k))
              (Some (random_min_max rnd)) s n
            = set_workflow_func_random node ks (Some f) (Some (random_min_max rnd)) s n)
    by reflexivity.
  enough (Main : forall st,
            (forall k, In k ks -> exists v, f st k = Ok v /\ forall l, v <> VList l) ->
            exists st',
              set_workflow_func_random node ks (Some f) (Some (random_min_max rnd)) st n
              = Ok (st', n) /\
              forall node' k',
                get_workflow st' node' k'
                = if key_eqb node' node && key_mem k' ks && truthy (returned (f st k'))
                     && has_param st node k'
                  then returned (f st k')
                  else get_workflow st node' k').
  { intros Hv. destruct (Main st Hv) as [st' [E R]].
    exists st'. split; [exact E|]. split; [exact R|]. now rewrite Three. }
  clear Three st. intro st. revert st. induction ks as [|k ks IH]; intros st Hv.
  - exists st. split; [reflexivity|]. intros node' k'.
    now rewrite andb_false_r.
  - destruct (Hv k ltac:(now left)) as [v [Fv NL]].
    set (st1 := if negb (truthy v) then st else set_workflow st node k v).
    assert (Same : forall k0, f st1 k0 = f st k0).
    { intro k0. unfold st1. destruct (negb (truthy v)); [reflexivity|].
      destruct (set_workflow_cases st node k v) as [->|[wf ->]]; [reflexivity | apply Hf]. }
    assert (HP : forall k0, has_param st1 node k0 = has_param st node k0).
    { intro k0. unfold st1. destruct (negb (truthy v)); [reflexivity|].
      apply has_param_after_set. }
    destruct (IH st1) as [st' [E R]].
    { intros k0 Hk0. rewrite Same. apply Hv. now right. }
    exists st'. split.
    + unfold set_workflow_func_random in *. cbn [foldM]. unfold mbind at 1.
      unfold mbind at 1. unfold lift. rewrite Fv.
      unfold write_resolved, mbind. rewrite (random_min_max_plain v n NL).
      fold st1. destruct (negb (truthy v)) eqn:T; unfold ret; exact E.
    + intros node' k'. rewrite R, Same, HP.
      cbn [key_mem existsb].
      change (existsb (key_eqb k') ks) with (key_mem k' ks).
      destruct (key_eqb node' node) eqn:En; cbn [andb].
      * apply key_eqb_eq in En. subst node'.
        destruct (key_eqb k' k) eqn:Ek; cbn [orb].
        -- apply key_eqb_eq in Ek. subst k'. rewrite Fv. cbn [returned].
           destruct (truthy v) eqn:T; destruct (has_param st node k) eqn:P;
             destruct (key_mem k ks); cbn [andb orb negb];
             unfold st1; rewrite ?T; cbn [negb];
             rewrite ?get_workflow_after_write, ?P, ?key_eqb_refl; cbn [andb];
             reflexivity.
        -- destruct (key_mem k' ks && truthy (returned (f st k')) && has_param st node k');
             [reflexivity|].
           unfold st1. destruct (negb (truthy v)); [reflexivity|].
           rewrite get_workflow_after_write, Ek. now rewrite !andb_false_r.
      * unfold st1. destruct (negb (truthy v)); [reflexivity|].
        rewrite get_workflow_after_write, En. now rewrite andb_false_r.
Qed.

End WorkflowLoops.

Lemma set_workflow_func_random_writes_witness :
  exists st',
    set_workflow_func_random (KStr "LoraLoader") [KStr "strength_model"; KStr "strength_clip"]
      (Some set_char_sub) (Some (random_min_max (fun _ => 1 # 2))) char_strength_state 0%nat
    = Ok (st', 0%nat) /\
    (forall node' k',
       get_workflow st' node' k'
       = if key_eqb node' (KStr "LoraLoader")
            && key_mem k' [KStr "strength_model"; KStr "strength_clip"]
            && truthy (returned (set_char_sub char_strength_state k'))
            && has_param char_strength_state (KStr "LoraLoader") k'
         then returned (set_char_sub char_strength_state k')
         else get_workflow char_strength_state node' k') /\
    set_workflow_func_random3 (KStr "LoraLoader") [KStr "strength_model"; KStr "strength_clip"]
      (Some (fun s _ k => set_char_sub s k)) (Some (random_min_max (fun _ => 1 # 2)))
      char_strength_state 0%nat = Ok (st', 0%nat).
Proof.
  apply (set_workflow_func_random_writes (fun _ => 1 # 2) (KStr "LoraLoader")
           [KStr "strength_model"; KStr "strength_clip"] set_char_sub
           char_strength_state 0%nat).
  - intros s wf k. reflexivity.
  - intros k [<-|[<-|[]]]; eexists; (split; [reflexivity | discriminate]).
Defined.

(** ** The character overlay in the workflow *)

Section CharWriter.

Variable rnd : nat -> Q.
Hypothesis U : unit_oracle rnd.

Lemma set_workflow_keeps_fields (st : automation) (node k : key) (v : value) :
  no_char (set_workflow st node k v) = no_char st /\
  config (set_workflow st node k v) = config st /\
  char_path (set_workflow st node k v) = char_path st.
Proof.
  destruct (set_workflow_cases st node k v) as [->|[wf ->]]; repeat split; reflexivity.
Qed.

(** [set_char] when no character was selected: one draw is made, for
    the seed; the loader node reads strength [0.0] for both the model and
    the text encoder where it has these parameters, the path held in
    [char_path] as overlay name and a seed of the unsigned 64-bit range;
    no other node is touched, and the tag source left for the character
    is what the configuration holds under [noCharWildcard] ([{}] without
    it). *)
Theorem set_char_without_character (st : automation) (n : nat) :
  no_char st = true ->
  exists st' seed,
    set_char rnd st n = Ok ((st', get_config st "noCharWildcard" (VDict [])), S n) /\
    (0 <= seed <= 18446744073709551615)%Z /\
    (has_param st (KStr "LoraLoader") (KStr "strength_model") = true ->
     get_workflow st' (KStr "LoraLoader") (KStr "strength_model") = VFloat 0) /\
    (has_param st (KStr "LoraLoader") (KStr "strength_clip") = true ->
     get_workflow st' (KStr "LoraLoader") (KStr "strength_clip") = VFloat 0) /\
    (has_param st (KStr "LoraLoader") (KStr "lora_name") = true ->
     get_workflow st' (KStr "LoraLoader") (KStr "lora_name") = char_path st) /\
    (has_param st (KStr "LoraLoader") (KStr "seed") = true ->
     get_workflow st' (KStr "LoraLoader") (KStr "seed") = VInt seed) /\
    (forall node' k', node' <> KStr "LoraLoader" ->
       get_workflow st' node' k' = get_workflow st node' k') /\
    (forall node' k', has_param st' node' k' = has_param st node' k').
Proof.
  intro NC.
  destruct (U n) as [R0 R1].
  pose proof (floor_in_width (rnd n) 18446744073709551616 R0 R1 ltac:(lia)) as F.
  set (seed := (0 + Qfloor (rnd n * inject_Z (18446744073709551615 - 0 + 1)))%Z).
  set (st1 := set_workflow st (KStr "LoraLoader") (KStr "lora_name") (char_path st)).
  set (st2 := set_workflow st1 (KStr "LoraLoader") (KStr "seed") (VInt seed)).
  set (st3 := set_workflow st2 (KStr "LoraLoader") (KStr "strength_model") (VFloat 0)).
  set (st4 := set_workflow st3 (KStr "LoraLoader") (KStr "strength_clip") (VFloat 0)).
  assert (NCs : forall s a b c, no_char (set_workflow s a b c) = no_char s).
  { intros. now destruct (set_workflow_keeps_fields s a b c) as [-> _]. }
  assert (Cfs : forall s a b c, config (set_workflow s a b c) = config s).
  { intros. now destruct (set_workflow_keeps_fields s a b c) as [_ [-> _]]. }
  assert (NC2 : no_char st2 = true).
  { unfold st2, st1. now rewrite !NCs. }
  assert (Cfg : get_config st4 "noCharWildcard" (VDict [])
                = get_config st "noCharWildcard" (VDict [])).
  { unfold get_config, st4, st3, st2, st1. now rewrite !Cfs. }
  exists st4, seed. split.
  - unfold set_char, mbind. fold st1.
    change (seed_int rnd n) with (Ok (VInt seed, S n)). cbv beta iota.
    fold st2. rewrite NC2. fold st3. fold st4. unfold ret. now rewrite Cfg.
  - split.
    { unfold seed. change (18446744073709551615 - 0 + 1)%Z with 18446744073709551616%Z. lia. }
    assert (HP : forall node' k', has_param st4 node' k' = has_param st node' k').
    { intros. unfold st4, st3, st2, st1. now rewrite !has_param_after_set. }
    assert (HP1 : forall k', has_param st1 (KStr "LoraLoader") k'
                             = has_param st (KStr "LoraLoader") k').
    { intros. unfold st1. now rewrite has_param_after_set. }
    assert (HP2 : forall k', has_param st2 (KStr "LoraLoader") k'
                             = has_param st (KStr "LoraLoader") k').
    { intros. unfold st2. now rewrite has_param_after_set. }
    assert (HP3 : forall k', has_param st3 (KStr "LoraLoader") k'
                             = has_param st (KStr "LoraLoader") k').
    { intros. unfold st3. now rewrite has_param_after_set. }
    split; [|split; [|split; [|split; [|split]]]].
    + intro P. unfold st4. rewrite get_workflow_after_write.
      replace (key_eqb (KStr "strength_model") (KStr "strength_clip")) with false by reflexivity.
      rewrite andb_false_r. unfold st3. rewrite get_workflow_after_write, HP2, P.
      reflexivity.
    + intro P. unfold st4. rewrite get_workflow_after_write, HP3, P. reflexivity.
    + intro P. unfold st4. rewrite get_workflow_after_write.
      replace (key_eqb (KStr "lora_name") (KStr "strength_clip")) with false by reflexivity.
      rewrite andb_false_r. unfold st3. rewrite get_workflow_after_write.
      replace (key_eqb (KStr "lora_name") (KStr "strength_model")) with false by reflexivity.
      rewrite andb_false_r. unfold st2. rewrite get_workflow_after_write.
      replace (key_eqb (KStr "lora_name") (KStr "seed")) with false by reflexivity.
      rewrite andb_false_r. unfold st1. rewrite get_workflow_after_write, P.
      reflexivity.
    + intro P. unfold st4. rewrite get_workflow_after_write.
      replace (key_eqb (KStr "seed") (KStr "strength_clip")) with false by reflexivity.
      rewrite andb_false_r. unfold st3. rewrite get_workflow_after_write.
      replace (key_eqb (KStr "seed") (KStr "strength_model")) with false by reflexivity.
      rewrite andb_false_r. unfold st2. rewrite get_workflow_after_write, HP1, P.
      reflexivity.
    + intros node' k' N. apply key_eqb_neq in N.
      unfold st4, st3, st2, st1.
      rewrite !get_workflow_after_write, N. now rewrite !andb_false_r.
    + exact HP.
Qed.

End CharWriter.

Lemma set_char_without_character_witness :
  exists st' seed,
    set_char (fun _ => 1 # 2) (with_char char_strength_state true (VStr "noChar") VNone) 0%nat
    = Ok ((st', get_config (with_char char_strength_state true (VStr "noChar") VNone)
                  "noCharWildcard" (VDict [])), 1%nat) /\
    (0 <= seed <= 18446744073709551615)%Z /\
    (has_param (with_char char_strength_state true (VStr "noChar") VNone)
       (KStr "LoraLoader") (KStr "strength_model") = true ->
     get_workflow st' (KStr "LoraLoader") (KStr "strength_model") = VFloat 0) /\
    (has_param (with_char char_strength_state true (VStr "noChar") VNone)
       (KStr "LoraLoader") (KStr "strength_clip") = true ->
     get_workflow st' (KStr "LoraLoader") (KStr "strength_clip") = VFloat 0) /\
    (has_param (with_char char_strength_state true (VStr "noChar") VNone)
       (KStr "LoraLoader") (KStr "lora_name") = true ->
     get_workflow st' (KStr "LoraLoader") (KStr "lora_name")
     = char_path (with_char char_strength_state true (VStr "noChar") VNone)) /\
    (has_param (with_char char_strength_state true (VStr "noChar") VNone)
       (KStr "LoraLoader") (KStr "seed") = true ->
     get_workflow st' (KStr "LoraLoader") (KStr "seed") = VInt seed) /\
    (forall node' k', node' <> KStr "LoraLoader" ->
       get_workflow st' node' k'
       = get_workflow (with_char char_strength_state true (VStr "noChar") VNone) node' k') /\
    (forall node' k',
       has_param st' node' k'
       = has_param (with_char char_strength_state true (VStr "noChar") VNone) node' k').
Proof.
  apply (set_char_without_character (fun _ => 1 # 2)).
  - intro n. split; [discriminate | reflexivity].
  - reflexivity.
Defined.

(** ** Tag composition *)

Section TagStages.

Lemma update_dict_flat (u : dict) :
  forall d,
    flat u = true ->
    update_dict (VDict u) (VDict d)
    = Ok (VDict (fold_left (fun acc kv => dict_set (fst kv) (snd kv) acc) u d)).
Proof.
  induction u as [|[k v] u IH]; intros d F; [reflexivity|].
  simpl in F. apply andb_true_iff in F. destruct F as [Fv Fu].
  rewrite update_dict_cons.
  destruct v; try discriminate; cbn [py_setitem bind fold_left fst snd]; now apply IH.
Qed.

Lemma fold_set_lookup (u : dict) :
  forall d k,
    unique_keys u = true ->
    dict_get (fold_left (fun acc kv => dict_set (fst kv) (snd kv) acc) u d) k
    = match dict_get u k with Some v => Some v | None => dict_get d k end.
Proof.
  induction u as [|[k0 v0] u IH]; intros d k Un; [reflexivity|].
  simpl in Un. rewrite andb_true_iff, negb_true_iff in Un. destruct Un as [Hk Hu].
  cbn [fold_left fst snd]. rewrite IH by exact Hu. simpl.
  destruct (key_eqb k k0) eqn:E.
  - apply key_eqb_eq in E. subst k0.
    destruct (dict_get u k) eqn:G.
    + apply dict_get_In_keys, key_mem_In in G. congruence.
    + apply dict_get_set_same.
  - destruct (dict_get u k); [reflexivity | now apply dict_get_set_other].
Qed.

Lemma merge_fold_last_defined (table other : dict) (order : list value) :
  forall p0 n0,
    forallb (stage_ok table) order = true ->
    forallb (stage_ok other) order = true ->
    exists p n,
      fold_result
        (fun acc k =>
           kk <- to_key k ;;
           p <- update_dict (dict_get_default table kk (VDict [])) (fst acc) ;;
           n <- update_dict (dict_get_default other kk (VDict [])) (snd acc) ;;
           Ok (p, n))
        order (VDict p0, VDict n0) = Ok (VDict p, VDict n) /\
      forall k,
        dict_get p k = last_defined (map (payload table) order) k (dict_get p0 k) /\
        dict_get n k = last_defined (map (payload other) order) k (dict_get n0 k).
Proof.
  induction order as [|x order IH]; intros p0 n0 S1 S2.
  - exists p0, n0. split; [reflexivity|]. intro k. split; reflexivity.
  - simpl in S1, S2. apply andb_true_iff in S1, S2.
    destruct S1 as [Sx1 So1]. destruct S2 as [Sx2 So2].
    unfold stage_ok in Sx1, Sx2.
    destruct (to_key x) as [kk|] eqn:Ek; [|discriminate].
    destruct (dict_get_default table kk (VDict [])) as [| | | | | |s1] eqn:G1; try discriminate.
    destruct (dict_get_default other kk (VDict [])) as [| | | | | |s2] eqn:G2; try discriminate.
    apply andb_true_iff in Sx1, Sx2.
    destruct Sx1 as [U1 F1]. destruct Sx2 as [U2 F2].
    destruct (IH (fold_left (fun acc kv => dict_set (fst kv) (snd kv) acc) s1 p0)
                 (fold_left (fun acc kv => dict_set (fst kv) (snd kv) acc) s2 n0) So1 So2)
      as [p [n [E L]]].
    exists p, n. split.
    + cbn [fold_result]. rewrite Ek. cbn [bind fst snd]. rewrite G1, G2.
      rewrite (update_dict_flat s1 p0 F1), (update_dict_flat s2 n0 F2). cbn [bind].
      exact E.
    + intro k. destruct (L k) as [L1 L2]. cbn [map last_defined].
      assert (P1 : payload table x = s1) by (unfold payload; now rewrite Ek, G1).
      assert (P2 : payload other x = s2) by (unfold payload; now rewrite Ek, G2).
      rewrite P1, P2, L1, L2, !fold_set_lookup by assumption. split; reflexivity.
Qed.

(** Merging the stages in the configured order, when the payload of each
    stage is a flat mapping: the merge succeeds, and in each polarity a
    tag key has the value the last stage of the order that defines it gives
    it, so a later stage overrides an earlier one and a key no stage
    defines is absent. *)
Theorem merge_tives_last_stage_wins (order : list value) (pos neg : dict) :
  forallb (stage_ok pos) order = true ->
  forallb (stage_ok neg) order = true ->
  exists p n,
    merge_tives order (pos, neg) = Ok (VDict p, VDict n) /\
    forall k,
      dict_get p k = last_defined (map (payload pos) order) k None /\
      dict_get n k = last_defined (map (payload neg) order) k None.
Proof.
  intros S1 S2. unfold merge_tives. cbn [fst snd].
  destruct (merge_fold_last_defined pos neg order [] [] S1 S2) as [p [n [E L]]].
  exists p, n. split; [exact E | exact L].
Qed.

Lemma merge_tives_last_stage_wins_witness :
  exists p n,
    merge_tives [VStr "setup"; VStr "Char"]
      ([(KStr "setup", VDict [(KStr "hair", VStr "red"); (KStr "eyes", VStr "green")]);
        (KStr "Char", VDict [(KStr "hair", VStr "blue")])],
       [(KStr "setup", VDict [(KStr "quality", VStr "blurry")])])
    = Ok (VDict p, VDict n) /\
    forall k,
      dict_get p k
      = last_defined
          (map (payload
                  [(KStr "setup", VDict [(KStr "hair", VStr "red"); (KStr "eyes", VStr "green")]);
                   (KStr "Char", VDict [(KStr "hair", VStr "blue")])])
               [VStr "setup"; VStr "Char"]) k None /\
      dict_get n k
      = last_defined
          (map (payload [(KStr "setup", VDict [(KStr "quality", VStr "blurry")])])
               [VStr "setup"; VStr "Char"]) k None.
Proof.
  apply (merge_tives_last_stage_wins [VStr "setup"; VStr "Char"]
           [(KStr "setup", VDict [(KStr "hair", VStr "red"); (KStr "eyes", VStr "green")]);
            (KStr "Char", VDict [(KStr "hair", VStr "blue")])]
           [(KStr "setup", VDict [(KStr "quality", VStr "blurry")])]).
  - reflexivity.
  - reflexivity.
Defined.

End TagStages.

Section WildcardTexts.

Variable rnd : nat -> Q.
Hypothesis U : unit_oracle rnd.

Lemma list_set_app_right (l1 l2 : list value) (v : value) (n : nat) :
  list_set (List.length l1 + n) v (l1 ++ l2) = l1 ++ list_set n v l2.
Proof. induction l1 as [|x l1 IH]; simpl; [reflexivity | now rewrite IH]. Qed.

Lemma list_set_app_left (l1 l2 : list value) (v : value) (n : nat) :
  (n < List.length l1)%nat ->
  list_set n v (l1 ++ l2) = list_set n v l1 ++ l2.
Proof.
  revert n. induction l1 as [|x l1 IH]; intros n L; simpl in L; [lia|].
  destruct n as [|n]; simpl; [reflexivity|]. rewrite IH by lia. reflexivity.
Qed.

Lemma list_set_same (l : list value) :
  forall n v, nth_error l n = Some v -> list_set n v l = l.
Proof.
  induction l as [|x l IH]; intros [|n] v H; simpl in *; try discriminate.
  - now inversion H.
  - now rewrite IH.
Qed.

Lemma swap_perm (i j : nat) (l : list value) : Permutation (swap i j l) l.
Proof.
  unfold swap.
  destruct (nth_error l i) as [a|] eqn:Hi; [|apply Permutation_refl].
  destruct (nth_error l j) as [b|] eqn:Hj; [|apply Permutation_refl].
  assert (Two : forall i j a b (l : list value),
            (i < j)%nat -> nth_error l i = Some a -> nth_error l j = Some b ->
            Permutation (list_set j a (list_set i b l)) l /\
            Permutation (list_set i b (list_set j a l)) l).
  { clear. intros i j a b l Lt Hi Hj.
    destruct (nth_error_split l i Hi) as [l1 [l2 [El Len1]]]. subst l.
    assert (Hj2 : nth_error l2 (j - i - 1) = Some b).
    { rewrite nth_error_app2 in Hj by lia.
      replace (j - List.length l1)%nat with (S (j - i - 1)) in Hj by lia. exact Hj. }
    destruct (nth_error_split l2 (j - i - 1) Hj2) as [l3 [l4 [El2 Len3]]]. subst l2.
    assert (R1 : list_set i b (l1 ++ a :: l3 ++ b :: l4) = l1 ++ b :: l3 ++ b :: l4).
    { replace i with (List.length l1 + 0)%nat by lia. now rewrite list_set_app_right. }
    assert (R2 : forall x y, list_set j y (l1 ++ x :: l3 ++ b :: l4) = l1 ++ x :: l3 ++ y :: l4).
    { intros x y. replace j with (List.length l1 + S (List.length l3 + 0))%nat by lia.
      rewrite list_set_app_right. simpl. now rewrite list_set_app_right. }
    assert (R3 : list_set i b (l1 ++ a :: l3 ++ a :: l4) = l1 ++ b :: l3 ++ a :: l4).
    { replace i with (List.length l1 + 0)%nat by lia. now rewrite list_set_app_right. }
    assert (P : Permutation (l1 ++ b :: l3 ++ a :: l4) (l1 ++ a :: l3 ++ b :: l4)).
    { apply Permutation_app_head.
      apply Permutation_trans with (b :: a :: l3 ++ l4).
      - apply perm_skip, Permutation_sym, Permutation_middle.
      - apply Permutation_trans with (a :: b :: l3 ++ l4); [apply perm_swap|].
        apply perm_skip, Permutation_middle. }
    split.
    - rewrite R1.
      replace (list_set j a (l1 ++ b :: l3 ++ b :: l4)) with (l1 ++ b :: l3 ++ a :: l4);
        [exact P|].
      symmetry. apply (R2 b a).
    - rewrite (R2 a a), R3. exact P. }
  destruct (Nat.lt_trichotomy i j) as [Lt|[Eq|Gt]].
  - now apply (Two i j a b l).
  - subst j. assert (a = b) by congruence. subst b.
    rewrite (list_set_same l i a Hi), (list_set_same l i a Hi). apply Permutation_refl.
  - now apply (Two j i b a l).
Qed.

Lemma shuffle_from_perm (i : nat) :
  forall l m,
    exists l', shuffle_from rnd i l m = Ok (l', (m + i)%nat) /\ Permutation l' l.
Proof.
  induction i as [|i IH]; intros l m.
  - exists l. split; [simpl; unfold ret; now rewrite Nat.add_0_r | apply Permutation_refl].
  - cbn [shuffle_from]. unfold mbind, random. cbv zeta.
    destruct (IH (swap (S i) (Z.to_nat (Qfloor (rnd m * inject_Z (Z.of_nat (S (S i)))))) l)
                 (S m)) as [l' [E P]].
    exists l'. split.
    + rewrite E. f_equal. f_equal. lia.
    + eapply Permutation_trans; [exact P | apply swap_perm].
Qed.

Lemma join_comma_strs (l : list value) :
  forallb is_str l = true -> exists t, join_comma l = Ok t.
Proof.
  induction l as [|x l IH]; intro F; [now exists EmptyString|].
  simpl in F. apply andb_true_iff in F. destruct F as [Sx Sl].
  destruct x; try discriminate. destruct (IH Sl) as [t E].
  destruct l as [|y l]; [now exists s|].
  cbn [join_comma]. cbn [join_comma] in E. rewrite E. eexists. reflexivity.
Qed.

Lemma strs_permuted (l l' : list value) :
  Permutation l' l -> forallb is_str l = true -> forallb is_str l' = true.
Proof.
  intros P F. apply forallb_forall. intros x Hx.
  rewrite forallb_forall in F. apply F. eapply Permutation_in; eauto.
Qed.

Lemma floor_unit (x : Q) (z : Z) :
  inject_Z z <= x -> x < inject_Z (z + 1) -> Qfloor x = z.
Proof.
  intros L H.
  pose proof (Qfloor_le x) as F1. pose proof (Qlt_floor x) as F2.
  assert (A : (Qfloor x < z + 1)%Z).
  { rewrite Zlt_Qlt. eapply Qle_lt_trans; eauto. }
  assert (B : (z < Qfloor x + 1)%Z).
  { rewrite Zlt_Qlt. eapply Qle_lt_trans; eauto. }
  lia.
Qed.

(** The default coin [[False, True]]: tails below one half, heads from it. *)
Lemma default_coin (m : nat) :
  random_weight rnd (VList [VBool false; VBool true]) m
  = Ok (VBool (negb (Qlt_bool (rnd m) (1 # 2))), S m).
Proof.
  destruct (U m) as [R0 R1].
  unfold random_weight, choice, mbind, random.
  change (inject_Z (Z.of_nat (List.length [VBool false; VBool true]))) with (inject_Z 2).
  destruct (Qlt_bool (rnd m) (1 # 2)) eqn:C.
  - apply Qlt_bool_iff in C.
    rewrite (floor_unit (rnd m * inject_Z 2) 0).
    + reflexivity.
    + change (inject_Z 0) with 0. change (inject_Z 2) with 2. nra.
    + change (inject_Z (0 + 1)) with 1. change (inject_Z 2) with 2. nra.
  - apply Qlt_bool_false in C.
    rewrite (floor_unit (rnd m * inject_Z 2) 1).
    + reflexivity.
    + change (inject_Z 1) with 1. change (inject_Z 2) with 2. nra.
    + change (inject_Z (1 + 1)) with 2. change (inject_Z 2) with 2. nra.
Qed.

(** The two wildcard texts, once the stages are merged into mappings whose
    values are strings and with the default coin for shuffling.  Each text
    is the comma-joined list of the merged values with the marker added in
    front and at the end; the coin is one draw; when it falls below one
    half the list is joined in that order, otherwise each list is shuffled
    first, with one draw per entry but one, and the text joins a
    rearrangement of the same entries, markers included. *)
Theorem compose_wildcards_texts (st : automation) (tc tch tl : value) (tives : dict * dict)
  (order : list value) (p n : dict) (m : nat) :
  collect_tives st tc tch tl = Ok tives ->
  py_iter (get_config st "SetWildcardSort"
             (VList [VStr "setup"; VStr "Checkpoint"; VStr "Char"; VStr "Weight"; VStr "Lora"]))
  = Ok order ->
  merge_tives order tives = Ok (VDict p, VDict n) ->
  forallb is_str (dict_values p) = true ->
  forallb is_str (dict_values n) = true ->
  dict_get (config st) (KStr "shuffleWildcard") = None ->
  let lp0 := VStr "/**/" :: dict_values p ++ [VStr "/**/"] in
  let ln0 := VStr "/**/" :: dict_values n ++ [VStr "/**/"] in
  exists lp ln tp tn m',
    compose_wildcards rnd st tc tch tl m = Ok (((VDict p, VDict n), (tp, tn)), m') /\
    join_comma lp = Ok tp /\ join_comma ln = Ok tn /\
    Permutation lp lp0 /\ Permutation ln ln0 /\
    (rnd m < 1 # 2 -> lp = lp0 /\ ln = ln0 /\ m' = S m) /\
    (1 # 2 <= rnd m ->
     m' = (S m + (List.length lp0 - 1) + (List.length ln0 - 1))%nat).
Proof.
  intros Ct Or Mg Sp Sn Cfg lp0 ln0.
  assert (Slp : forallb is_str lp0 = true).
  { unfold lp0. cbn [forallb is_str andb]. rewrite forallb_app, Sp. reflexivity. }
  assert (Sln : forallb is_str ln0 = true).
  { unfold ln0. cbn [forallb is_str andb]. rewrite forallb_app, Sn. reflexivity. }
  assert (Coin : get_config st "shuffleWildcard" (VList [VBool false; VBool true])
                 = VList [VBool false; VBool true]).
  { unfold get_config, dict_get_default. now rewrite Cfg. }
  unfold compose_wildcards, mbind at 1, lift at 1. rewrite Ct.
  unfold mbind at 1, lift at 1. rewrite Or.
  unfold mbind at 1, lift at 1. rewrite Mg.
  unfold mbind at 1, lift at 1. cbn [fst snd marked_values as_dict bind].
  unfold mbind at 1, lift at 1. fold lp0. fold ln0.
  unfold mbind at 1. rewrite Coin, default_coin.
  destruct (Qlt_bool (rnd m) (1 # 2)) eqn:C; cbn [negb truthy].
  - destruct (join_comma_strs lp0 Slp) as [tp Etp].
    destruct (join_comma_strs ln0 Sln) as [tn Etn].
    exists lp0, ln0, tp, tn, (S m).
    split.
    { unfold mbind, ret, lift. cbn [fst snd]. now rewrite Etp, Etn. }
    split; [exact Etp|]. split; [exact Etn|].
    split; [apply Permutation_refl|]. split; [apply Permutation_refl|].
    split; [tauto|]. intro H. apply Qlt_bool_iff in C. lra.
  - destruct (shuffle_from_perm (List.length lp0 - 1) lp0 (S m)) as [lp [E1 P1]].
    destruct (shuffle_from_perm (List.length ln0 - 1) ln0
                (S m + (List.length lp0 - 1))%nat) as [ln [E2 P2]].
    destruct (join_comma_strs lp (strs_permuted lp0 lp P1 Slp)) as [tp Etp].
    destruct (join_comma_strs ln (strs_permuted ln0 ln P2 Sln)) as [tn Etn].
    exists lp, ln, tp, tn, (S m + (List.length lp0 - 1) + (List.length ln0 - 1))%nat.
    split.
    { unfold mbind at 1. unfold mbind at 1. unfold shuffle. rewrite E1.
      unfold mbind at 1. rewrite E2. unfold ret, mbind, lift. cbn [fst snd].
      now rewrite Etp, Etn. }
    split; [exact Etp|]. split; [exact Etn|].
    split; [exact P1|]. split; [exact P2|].
    split; [|tauto]. intro H. apply Qlt_bool_false in C. lra.
Qed.

End WildcardTexts.

Lemma compose_wildcards_texts_witness :
  let lp0 := VStr "/**/" :: dict_values [(KStr "hair", VStr "red")] ++ [VStr "/**/"] in
  let ln0 := VStr "/**/" :: dict_values [] ++ [VStr "/**/"] in
  exists lp ln tp tn m',
    compose_wildcards (fun _ => 1 # 4) (sample_state [] (KStr "X"))
      (VDict [(KStr "positive", VDict [(KStr "hair", VStr "red")])]) VNone VNone 0%nat
    = Ok (((VDict [(KStr "hair", VStr "red")], VDict []), (tp, tn)), m') /\
    join_comma lp = Ok tp /\ join_comma ln = Ok tn /\
    Permutation lp lp0 /\ Permutation ln ln0 /\
    ((fun _ : nat => 1 # 4) 0%nat < 1 # 2 -> lp = lp0 /\ ln = ln0 /\ m' = 1%nat) /\
    (1 # 2 <= (fun _ : nat => 1 # 4) 0%nat ->
     m' = (1 + (List.length lp0 - 1) + (List.length ln0 - 1))%nat).
Proof.
  apply (compose_wildcards_texts (fun _ => 1 # 4)
           ltac:(intro n; split; [discriminate | reflexivity])
           (sample_state [] (KStr "X"))
           (VDict [(KStr "positive", VDict [(KStr "hair", VStr "red")])]) VNone VNone
           ([(KStr "Checkpoint", VDict [(KStr "hair", VStr "red")])],
            [(KStr "Checkpoint", VDict [])])
           [VStr "setup"; VStr "Checkpoint"; VStr "Char"; VStr "Weight"; VStr "Lora"]
           [(KStr "hair", VStr "red")] [] 0%nat).
  - reflexivity.
  - reflexivity.
  - reflexivity.
  - reflexivity.
  - reflexivity.
  - reflexivity.
Defined.

(** ** Selection of the base model *)

Section BaseModelSelection.

Variable rnd : nat -> Q.
Hypothesis U : unit_oracle rnd.

Lemma sub_names_within (wc : dict) (l : list string) :
  forall acc,
    exists sub,
      fold_result
        (fun acc x =>
           w <- as_dict (VDict wc) ;;
           k <- to_key x ;;
           Ok (if dict_mem w k then acc else List.app acc [x]))
        (map VStr l) acc = Ok sub /\
      forall x, In x sub -> In x acc \/ exists s, x = VStr s /\ In s l.
Proof.
  induction l as [|s l IH]; intro acc.
  - exists acc. split; [reflexivity|]. intros x H. now left.
  - cbn [map fold_result as_dict bind to_key].
    destruct (IH (if dict_mem wc (KStr s) then acc else List.app acc [VStr s]))
      as [sub [E Hsub]].
    exists sub. split; [exact E|].
    intros x Hx. destruct (Hsub x Hx) as [H|[t [Ex Ht]]].
    + destruct (dict_mem wc (KStr s)); [now left|].
      apply in_app_or in H. destruct H as [H|[<-|[]]]; [now left|].
      right. exists s. split; [reflexivity | now left].
    + right. exists t. split; [exact Ex | now right].
Qed.

Lemma one_weighted_key (items : dict) (m : nat) :
  weights_ok (dict_values items) = true ->
  exists k w,
    random_weight_count rnd (VDict items) (VInt 1) m = Ok ([k], S m) /\
    In (k, w) items /\ 0 < qv w.
Proof.
  intro W. destruct (weights_ok_facts _ W) as [N _].
  destruct (choices_members rnd U (dict_keys items) (dict_values items) 1 m)
    as [l [E [Len Mem]]].
  { unfold dict_keys, dict_values. now rewrite !length_map. }
  { exact W. }
  destruct l as [|k [|k' l]]; try discriminate.
  destruct (Mem k ltac:(now left)) as [i [w [H1 [H2 Pw]]]].
  exists k, w. split; [|split; [eapply nth_error_keys_values; eauto | exact Pw]].
  unfold random_weight_count. rewrite N, E. f_equal. f_equal. simpl. lia.
Qed.

Lemma choice_of_names (l : list string) (m : nat) :
  l <> [] ->
  exists s, choice_of rnd (str_list l) m = Ok (VStr s, S m) /\ In s l.
Proof.
  intro NE. unfold choice_of, str_list, mbind, lift. cbn [as_list].
  destruct (choice_member rnd U (map VStr l) m) as [v [E Hin]].
  { destruct l; [congruence | discriminate]. }
  apply in_map_iff in Hin. destruct Hin as [s [<- Hs]].
  exists s. split; [exact E | exact Hs].
Qed.

(** Selection of the base model after the first round, from a store in
    which every category of positive weight can be selected from.  The
    method returns after three draws (category, strategy, name); the
    category chosen is one of positive weight, the name chosen is a name of
    that category's name list, whichever strategy was drawn, and the path
    is the truthy entry of the name in the category's name-to-path map. *)
Theorem checkpoint_change_selects_asset (st : automation) (types : dict) (n : nat) :
  is_first st = false ->
  get_config st "CheckpointTypes" (VDict []) = VDict types ->
  weights_ok (dict_values types) = true ->
  is_number (get_config st "CheckpointWeightPer" (VFloat (1 # 2))) = true ->
  (forall ty w, In (ty, w) types -> 0 < qv w ->
     exists names wc, selectable (type_dics st) ty names wc) ->
  exists st' ty w names wc s,
    checkpoint_change rnd st n = Ok (st', S (S (S n))) /\
    In (ty, w) types /\ 0 < qv w /\
    selectable (type_dics st) ty names wc /\
    In s names /\
    checkpoint_type st' = ty /\
    checkpoint_name st' = VStr s /\
    checkpoint_path st' = get_nested (type_dics st) [ty; KStr "CheckpointFileDics"; KStr s] VNone /\
    truthy (checkpoint_path st') = true /\
    is_first st' = false /\
    type_dics st' = type_dics st.
Proof.
  intros First Ty W Np Sel.
  destruct (one_weighted_key types n W) as [ty [w [Et [Hin Pw]]]].
  destruct (Sel ty w Hin Pw) as [names [wc S0]].
  pose proof S0 as [Nm [NE [Paths [Wc [Wok Keys]]]]].
  set (st1 := with_checkpoint st false ty (checkpoint_name st) (checkpoint_path st)).
  assert (Finish : forall s m,
            In s names ->
            (name <~ (ret (VStr s) : M value) ;;
             nk <~ lift (to_key name) ;;
             let path := get_now st1 [KStr "CheckpointFileDics"; nk] VNone in
             if negb (truthy path) then raise ValueError
             else ret (with_checkpoint st1 false ty name path))%rand m
            = Ok (with_checkpoint st1 false ty (VStr s)
                    (get_nested (type_dics st) [ty; KStr "CheckpointFileDics"; KStr s] VNone),
                  m)).
  { intros s m Hs. unfold mbind, ret, lift. cbn [to_key]. cbv zeta.
    change (get_now st1 [KStr "CheckpointFileDics"; KStr s] VNone)
      with (get_nested (type_dics st) [ty; KStr "CheckpointFileDics"; KStr s] VNone).
    now rewrite (Paths s Hs). }
  assert (Done : forall s, In s names ->
            exists st' ty0 w0 names0 wc0 s0,
              Ok (with_checkpoint st1 false ty (VStr s)
                    (get_nested (type_dics st) [ty; KStr "CheckpointFileDics"; KStr s] VNone),
                  S (S (S n)))
              = Ok (st', S (S (S n))) /\
              In (ty0, w0) types /\ 0 < qv w0 /\
              selectable (type_dics st) ty0 names0 wc0 /\
              In s0 names0 /\
              checkpoint_type st' = ty0 /\
              checkpoint_name st' = VStr s0 /\
              checkpoint_path st'
              = get_nested (type_dics st) [ty0; KStr "CheckpointFileDics"; KStr s0] VNone /\
              truthy (checkpoint_path st') = true /\
              is_first st' = false /\
              type_dics st' = type_dics st).
  { intros s Hs. eexists. exists ty, w, names, wc, s.
    split; [reflexivity|]. repeat split; try assumption. cbn. now apply Paths. }
  assert (Head :
            checkpoint_change rnd st n
            = (name <~
                 (if Qlt_bool (rnd (S n)) (qv (get_config st "CheckpointWeightPer" (VFloat (1 # 2))))
                  then
                    len <~ lift (py_len (VDict wc)) ;;
                    if Z.ltb 0 len then
                      l <~ random_weight_count rnd (VDict wc) (VInt 1) ;;
                      k <~ lift (first l) ;; ret (of_key k)
                    else choice_of rnd (str_list names)
                  else
                    nm <~ lift (as_list (str_list names)) ;;
                    sub_checkpoint <~ lift (sub_names nm (VDict wc)) ;;
                    match sub_checkpoint with
                    | _ :: _ => choice rnd sub_checkpoint
                    | [] => choice_of rnd (str_list names)
                    end) ;;
               nk <~ lift (to_key name) ;;
               let path := get_now st1 [KStr "CheckpointFileDics"; nk] VNone in
               if negb (truthy path) then raise ValueError
               else ret (with_checkpoint st1 false ty name path))%rand (S (S n))).
  { unfold checkpoint_change. rewrite Ty.
    unfold bootstrap. rewrite First. unfold mbind at 1, lift at 1.
    unfold mbind at 1. rewrite Et. unfold mbind at 1, lift at 1. cbn [first].
    fold st1. cbv zeta.
    change (get_config st1 "CheckpointWeightPer" (VFloat (1 # 2)))
      with (get_config st "CheckpointWeightPer" (VFloat (1 # 2))).
    unfold mbind at 1, random at 1. unfold mbind at 1, lift at 1.
    rewrite (py_gt_number_float _ (rnd (S n)) Np).
    change (get_now st1 [KStr "CheckpointFileNames"] (VList []))
      with (get_nested (type_dics st) [ty; KStr "CheckpointFileNames"] (VList [])).
    change (get_now st1 [KStr "WeightCheckpoint"] (VDict []))
      with (get_nested (type_dics st) [ty; KStr "WeightCheckpoint"] (VDict [])).
    rewrite Nm, Wc.
    assert (Tn : truthy (str_list names) = true).
    { destruct names; [congruence | reflexivity]. }
    rewrite Tn. cbn [negb]. reflexivity. }
  rewrite Head. clear Head.
  assert (Via : forall (pick : M value) s,
            pick (S (S n)) = Ok (VStr s, S (S (S n))) -> In s names ->
            (name <~ pick ;;
             nk <~ lift (to_key name) ;;
             let path := get_now st1 [KStr "CheckpointFileDics"; nk] VNone in
             if negb (truthy path) then raise ValueError
             else ret (with_checkpoint st1 false ty name path))%rand (S (S n))
            = Ok (with_checkpoint st1 false ty (VStr s)
                    (get_nested (type_dics st) [ty; KStr "CheckpointFileDics"; KStr s] VNone),
                  S (S (S n)))).
  { intros pick s Ep Hs. unfold mbind at 1. rewrite Ep.
    specialize (Finish s (S (S (S n))) Hs). unfold mbind at 1 in Finish.
    unfold ret at 1 in Finish. exact Finish. }
  destruct (Qlt_bool (rnd (S n)) (qv (get_config st "CheckpointWeightPer" (VFloat (1 # 2))))).
  - (* by weight *)
    destruct wc as [|kv wc'].
    + destruct (choice_of_names names (S (S n)) NE) as [s [E Hs]].
      rewrite (Via _ s); [now apply Done | | exact Hs].
      unfold mbind, lift. cbn [py_len List.length Z.of_nat Z.ltb]. exact E.
    + destruct Wok as [Wok|Wok]; [discriminate|].
      destruct (one_weighted_key (kv :: wc') (S (S n)) Wok) as [k [w2 [E [Hk Pk]]]].
      destruct (Keys k w2 Hk Pk) as [s [-> Hs]].
      rewrite (Via _ s); [now apply Done | | exact Hs].
      unfold mbind at 1, lift at 1. cbn [py_len].
      assert (L : Z.ltb 0 (Z.of_nat (List.length (kv :: wc'))) = true).
      { apply Z.ltb_lt. simpl. lia. }
      rewrite L. unfold mbind at 1. rewrite E. unfold mbind, lift, ret. reflexivity.
  - (* among the names without a weight *)
    destruct (sub_names_within wc names []) as [sub [Es Hsub]].
    destruct sub as [|x sub].
    + destruct (choice_of_names names (S (S n)) NE) as [s [E Hs]].
      rewrite (Via _ s); [now apply Done | | exact Hs].
      unfold mbind at 1, lift at 1. unfold str_list at 1. cbn [as_list].
      unfold mbind at 1, lift at 1. unfold sub_names. rewrite Es. exact E.
    + destruct (choice_member rnd U (x :: sub) (S (S n)) ltac:(discriminate)) as [v [E Hv]].
      destruct (Hsub v Hv) as [[]|[s [-> Hs]]].
      rewrite (Via _ s); [now apply Done | | exact Hs].
      unfold mbind at 1, lift at 1. unfold str_list at 1. cbn [as_list].
      unfold mbind at 1, lift at 1. unfold sub_names. rewrite Es. exact E.
Qed.

End BaseModelSelection.

Lemma checkpoint_change_selects_asset_witness :
  exists st' ty w names wc s,
    checkpoint_change (fun _ => 1 # 4) single_model_later 0%nat = Ok (st', 3%nat) /\
    In (ty, w) [(KStr "X", VInt 1)] /\ 0 < qv w /\
    selectable (type_dics single_model_later) ty names wc /\
    In s names /\
    checkpoint_type st' = ty /\
    checkpoint_name st' = VStr s /\
    checkpoint_path st'
    = get_nested (type_dics single_model_later) [ty; KStr "CheckpointFileDics"; KStr s] VNone /\
    truthy (checkpoint_path st') = true /\
    is_first st' = false /\
    type_dics st' = type_dics single_model_later.
Proof.
  apply (checkpoint_change_selects_asset (fun _ => 1 # 4)
           ltac:(intro n; split; [discriminate | reflexivity])
           single_model_later [(KStr "X", VInt 1)] 0%nat).
  - reflexivity.
  - reflexivity.
  - reflexivity.
  - reflexivity.
  - intros ty w [H|[]] _. inversion H; subst.
    exists ["m1"], [(KStr "m1", VInt 1)]. unfold selectable.
    split; [reflexivity|]. split; [discriminate|].
    split; [intros s [<-|[]]; reflexivity|].
    split; [reflexivity|]. split; [right; reflexivity|].
    intros k w0 [H0|[]] _. inversion H0; subst.
    exists "m1". split; [reflexivity | now left].
Defined.

(** ** The start asset and categories without assets *)

Section StartAsset.

Variable rnd : nat -> Q.
Hypothesis U : unit_oracle rnd.

(** The first round with a start asset.  When the configured start path
    has exactly two components, the first a configured category and the
    stem of the second a name with a truthy path in that category's map,
    the method selects that asset without a draw and the first round is
    over.  When no start asset is configured the first round selects as
    any later round does. *)
Theorem checkpoint_change_start_asset (st : automation) (n : nat) :
  is_first st = true ->
  (forall s c f types,
     get_config st "safetensorsStart" VNone = VStr s ->
     s <> EmptyString ->
     path_parts s = [c; f] ->
     get_config st "CheckpointTypes" (VDict []) = VDict types ->
     dict_mem types (KStr c) = true ->
     truthy (get_nested (type_dics st)
               [KStr c; KStr "CheckpointFileDics"; KStr (stem_of_name f)] VNone) = true ->
     checkpoint_change rnd st n
     = Ok (with_checkpoint st false (KStr c) (VStr (stem_of_name f))
             (get_nested (type_dics st)
                [KStr c; KStr "CheckpointFileDics"; KStr (stem_of_name f)] VNone), n)) /\
  (truthy (get_config st "safetensorsStart" VNone) = false ->
   checkpoint_change rnd st n
   = checkpoint_change rnd
       (with_checkpoint st false (checkpoint_type st) (checkpoint_name st) (checkpoint_path st))
       n).
Proof.
  intro First. split.
  - intros s c f types St Ns Parts Ty Mem Ck.
    unfold checkpoint_change. rewrite Ty. unfold bootstrap. rewrite First, St.
    assert (Ts : truthy (VStr s) = true).
    { simpl. destruct s; [congruence | reflexivity]. }
    rewrite Ts, Parts. cbn [first bind List.length Nat.eqb py_in].
    unfold stem. cbn [List.last]. rewrite Mem, Ck. cbn [andb].
    unfold mbind, lift, ret. reflexivity.
  - intro F. unfold checkpoint_change. unfold bootstrap. rewrite First. cbn [is_first with_checkpoint].
    change (get_config (with_checkpoint st false (checkpoint_type st) (checkpoint_name st)
                          (checkpoint_path st)) "CheckpointTypes" (VDict []))
      with (get_config st "CheckpointTypes" (VDict [])).
    rewrite F. reflexivity.
Qed.

(** Selection without assets.  After the first round, an empty table of
    categories raises [IndexError]; and when no category of the table has
    a name in its name list, the method raises [ValueError], after the two
    draws for the category and the strategy. *)
Theorem checkpoint_change_without_assets (st : automation) (n : nat) :
  is_first st = false ->
  (get_config st "CheckpointTypes" (VDict []) = VDict [] ->
   checkpoint_change rnd st n = Raise IndexError) /\
  (forall types,
     get_config st "CheckpointTypes" (VDict []) = VDict types ->
     weights_ok (dict_values types) = true ->
     is_number (get_config st "CheckpointWeightPer" (VFloat (1 # 2))) = true ->
     (forall ty w, In (ty, w) types ->
        truthy (get_nested (type_dics st) [ty; KStr "CheckpointFileNames"] (VList [])) = false) ->
     checkpoint_change rnd st n = Raise ValueError).
Proof.
  intro First. split.
  - intro Ty. unfold checkpoint_change. rewrite Ty. unfold bootstrap. rewrite First.
    reflexivity.
  - intros types Ty W Np Empty.
    destruct (weights_ok_facts _ W) as [N _].
    destruct (choices_members rnd U (dict_keys types) (dict_values types) 1 n)
      as [l [E [Len Mem]]].
    { unfold dict_keys, dict_values. now rewrite !length_map. }
    { exact W. }
    destruct l as [|ty [|k' l]]; try discriminate.
    destruct (Mem ty ltac:(now left)) as [i [w [H1 [H2 Pw]]]].
    pose proof (nth_error_keys_values types i ty w H1 H2) as Hin.
    unfold checkpoint_change. rewrite Ty. unfold bootstrap. rewrite First.
    unfold mbind at 1, lift at 1. unfold mbind at 1.
    unfold random_weight_count. rewrite N, E.
    unfold mbind at 1, lift at 1. cbn [first]. cbv zeta.
    unfold mbind at 1, random at 1. unfold mbind at 1, lift at 1.
    change (get_config (with_checkpoint st false ty (checkpoint_name st) (checkpoint_path st))
              "CheckpointWeightPer" (VFloat (1 # 2)))
      with (get_config st "CheckpointWeightPer" (VFloat (1 # 2))).
    rewrite (py_gt_number_float _ _ Np).
    change (get_now (with_checkpoint st false ty (checkpoint_name st) (checkpoint_path st))
              [KStr "CheckpointFileNames"] (VList []))
      with (get_nested (type_dics st) [ty; KStr "CheckpointFileNames"] (VList [])).
    rewrite (Empty ty w Hin). reflexivity.
Qed.

End StartAsset.

Lemma checkpoint_change_start_asset_witness :
  checkpoint_change (fun _ => 1 # 2) start_asset_state 0%nat
  = Ok (with_checkpoint start_asset_state false (KStr "X") (VStr (stem_of_name "m1.safetensors"))
          (get_nested (type_dics start_asset_state)
             [KStr "X"; KStr "CheckpointFileDics"; KStr (stem_of_name "m1.safetensors")] VNone),
        0%nat).
Proof.
  apply (proj1 (checkpoint_change_start_asset (fun _ => 1 # 2) start_asset_state 0%nat
                  eq_refl)
           "X/m1.safetensors" "X" "m1.safetensors" [(KStr "X", VInt 1)]).
  - reflexivity.
  - discriminate.
  - reflexivity.
  - reflexivity.
  - reflexivity.
  - reflexivity.
Defined.

Lemma checkpoint_change_without_assets_witness :
  checkpoint_change (fun _ => 1 # 2) no_asset_state 0%nat = Raise ValueError.
Proof.
  apply (proj2 (checkpoint_change_without_assets (fun _ => 1 # 2)
                  ltac:(intro n; split; [discriminate | reflexivity])
                  no_asset_state 0%nat eq_refl)
           [(KStr "X", VInt 1)]).
  - reflexivity.
  - reflexivity.
  - reflexivity.
  - intros ty w [H|[]]. inversion H; subst. reflexivity.
Defined.

(** ** Selection of the character overlay *)

Section CharSelection.

Variable rnd : nat -> Q.
Hypothesis U : unit_oracle rnd.

Lemma to_key_of_key (k : key) : to_key (of_key k) = Ok k.
Proof. destruct k; reflexivity. Qed.

(** Selection of the character overlay from a store that holds the name
    list, the path list and a weight table that is empty or has
    non-negative weights, one of them positive.  The method never raises.
    Whether no character is used is the first draw against [noCharPer];
    then the name is [noChar] and the path is the first of the path list
    ([None] when there is none).  Otherwise the name is a name of the name
    list or a key of positive weight of the weight table, or [None] when
    there is neither, and the path is whatever the name-to-path map holds
    for it, [None] included: unlike the base model, a character without a
    path is not refused. *)
Theorem char_change_selects (st : automation) (names paths : list string) (wc : dict)
  (n : nat) :
  is_number (get_config st "noCharPer" (VFloat (1 # 2))) = true ->
  is_number (get_config st "CharWeightPer" (VFloat (1 # 2))) = true ->
  get_now st [KStr "CharFileNames"] (VList []) = str_list names ->
  get_now st [KStr "CharFileLists"] (VList []) = str_list paths ->
  get_now st [KStr "WeightChar"] (VDict []) = VDict wc ->
  (wc = [] \/ weights_ok (dict_values wc) = true) ->
  exists st' n',
    char_change rnd st n = Ok (st', n') /\
    (n < n' <= n + 3)%nat /\
    no_char st' = Qlt_bool (rnd n) (qv (get_config st "noCharPer" (VFloat (1 # 2)))) /\
    (no_char st' = true ->
     char_name st' = VStr "noChar" /\
     char_path st' = match paths with p :: _ => VStr p | [] => VNone end /\
     n' = S n) /\
    (no_char st' = false ->
     ((char_name st' = VNone /\ names = []) \/
      (exists s, char_name st' = VStr s /\ In s names) \/
      (exists k w, char_name st' = of_key k /\ In (k, w) wc /\ 0 < qv w)) /\
     exists nk,
       to_key (char_name st') = Ok nk /\
       char_path st' = get_now st [KStr "CharFileDics"; nk] VNone).
Proof.
  intros Np Nw Nm Ls Wc Wok.
  unfold char_change. unfold mbind at 1, random at 1. unfold mbind at 1, lift at 1.
  rewrite (py_gt_number_float _ (rnd n) Np). rewrite Nm, Ls, Wc.
  destruct (Qlt_bool (rnd n) (qv (get_config st "noCharPer" (VFloat (1 # 2))))) eqn:Flag.
  - (* no character *)
    destruct paths as [|p paths].
    + cbn [str_list map truthy]. unfold ret.
      eexists. exists (S n). split; [reflexivity|]. split; [lia|]. split; [reflexivity|].
      split; [intros _; repeat split | discriminate].
    + cbn [str_list map truthy]. unfold mbind, lift, ret. cbn [as_list first].
      eexists. exists (S n). split; [reflexivity|]. split; [lia|]. split; [reflexivity|].
      split; [intros _; repeat split | discriminate].
  - (* a character *)
    unfold mbind at 1, random at 1. unfold mbind at 1, lift at 1.
    rewrite (py_gt_number_float _ (rnd (S n)) Nw).
    assert (Done : forall (pick : M value) name m,
              pick (S (S n)) = Ok (name, m) ->
              (S (S n) <= m <= S (S (S n)))%nat ->
              forall nk, to_key name = Ok nk ->
              ((name = VNone /\ names = []) \/
               (exists s, name = VStr s /\ In s names) \/
               (exists k w, name = of_key k /\ In (k, w) wc /\ 0 < qv w)) ->
              exists st' n',
                (name <~ pick ;;
                 nk <~ lift (to_key name) ;;
                 ret (with_char st false name (get_now st [KStr "CharFileDics"; nk] VNone)))%rand
                  (S (S n)) = Ok (st', n') /\
                (n < n' <= n + 3)%nat /\
                no_char st' = false /\
                (no_char st' = true ->
                 char_name st' = VStr "noChar" /\
                 char_path st' = match paths with p :: _ => VStr p | [] => VNone end /\
                 n' = S n) /\
                (no_char st' = false ->
                 ((char_name st' = VNone /\ names = []) \/
                  (exists s, char_name st' = VStr s /\ In s names) \/
                  (exists k w, char_name st' = of_key k /\ In (k, w) wc /\ 0 < qv w)) /\
                 exists nk,
                   to_key (char_name st') = Ok nk /\
                   char_path st' = get_now st [KStr "CharFileDics"; nk] VNone)).
    { intros pick name m Ep Bm nk Ek Cases.
      eexists. exists m. split.
      - unfold mbind at 1. rewrite Ep. unfold mbind, lift, ret. rewrite Ek. reflexivity.
      - split; [lia|]. split; [reflexivity|]. split; [discriminate|].
        intros _. split; [exact Cases|]. exists nk. split; [exact Ek | reflexivity]. }
    assert (OrNone : exists name m,
              choice_or_none rnd (str_list names) (S (S n)) = Ok (name, m) /\
              (S (S n) <= m <= S (S (S n)))%nat /\
              ((name = VNone /\ names = []) \/ (exists s, name = VStr s /\ In s names))).
    { unfold choice_or_none. destruct names as [|x names].
      - exists VNone, (S (S n)). split; [reflexivity|]. split; [lia | now left].
      - cbn [str_list map truthy].
        destruct (choice_of_names rnd U (x :: names) (S (S n)) ltac:(discriminate))
          as [s [E Hs]].
        exists (VStr s), (S (S (S n))). split; [exact E|]. split; [lia|].
        right. now exists s. }
    assert (FromNone : forall (pick : M value),
              pick (S (S n)) = choice_or_none rnd (str_list names) (S (S n)) ->
              exists name m nk,
                pick (S (S n)) = Ok (name, m) /\ (S (S n) <= m <= S (S (S n)))%nat /\
                to_key name = Ok nk /\
                ((name = VNone /\ names = []) \/
                 (exists s, name = VStr s /\ In s names) \/
                 (exists k w, name = of_key k /\ In (k, w) wc /\ 0 < qv w))).
    { intros pick Ep. destruct OrNone as [name [m [E [Bm [[-> Hn]|[s [-> Hs]]]]]]].
      - exists VNone, m, KNone. rewrite Ep. repeat split; try assumption; try lia.
        left. now split.
      - exists (VStr s), m, (KStr s). rewrite Ep. repeat split; try assumption; try lia.
        right. left. now exists s. }
    destruct (Qlt_bool (rnd (S n)) (qv (get_config st "CharWeightPer" (VFloat (1 # 2))))).
    + (* by weight *)
      destruct wc as [|kv wc'].
      * destruct (FromNone (len <~ lift (py_len (VDict [])) ;;
                            if Z.ltb 0 len then
                              l <~ random_weight_count rnd (VDict []) (VInt 1) ;;
                              k <~ lift (first l) ;; ret (of_key k)
                            else choice_or_none rnd (str_list names))%rand eq_refl)
          as [name [m [nk [Ep [Bm [Ek Cases]]]]]].
        destruct (Done _ name m Ep Bm nk Ek Cases) as [st' [n' [E R]]].
        exists st', n'. split; [exact E|]. tauto.
      * destruct Wok as [Wok|Wok]; [discriminate|].
        destruct (one_weighted_key rnd U (kv :: wc') (S (S n)) Wok) as [k [w [E [Hk Pk]]]].
        destruct (Done (len <~ lift (py_len (VDict (kv :: wc'))) ;;
                        if Z.ltb 0 len then
                          l <~ random_weight_count rnd (VDict (kv :: wc')) (VInt 1) ;;
                          k <~ lift (first l) ;; ret (of_key k)
                        else choice_or_none rnd (str_list names))%rand
                    (of_key k) (S (S (S n)))) with (nk := k) as [st' [n' [E' R]]].
        { unfold mbind at 1, lift at 1. cbn [py_len].
          assert (L : Z.ltb 0 (Z.of_nat (List.length (kv :: wc'))) = true).
          { apply Z.ltb_lt. simpl. lia. }
          rewrite L. unfold mbind at 1. rewrite E. unfold mbind, lift, ret. reflexivity. }
        { lia. }
        { apply to_key_of_key. }
        { right. right. now exists k, w. }
        exists st', n'. split; [exact E'|]. tauto.
    + (* among the names without a weight *)
      destruct (sub_names_within wc names []) as [sub [Es Hsub]].
      destruct sub as [|x sub].
      * destruct (FromNone (nm <~ lift (as_list (str_list names)) ;;
                            sub_char <~ lift (sub_names nm (VDict wc)) ;;
                            match sub_char with
                            | _ :: _ => choice rnd sub_char
                            | [] => choice_or_none rnd (str_list names)
                            end)%rand)
          as [name [m [nk [Ep [Bm [Ek Cases]]]]]].
        { unfold mbind at 1, lift at 1. unfold str_list at 1. cbn [as_list].
          unfold mbind at 1, lift at 1. unfold sub_names. rewrite Es. reflexivity. }
        destruct (Done _ name m Ep Bm nk Ek Cases) as [st' [n' [E R]]].
        exists st', n'. split; [exact E|]. tauto.
      * destruct (choice_member rnd U (x :: sub) (S (S n)) ltac:(discriminate)) as [v [E Hv]].
        destruct (Hsub v Hv) as [[]|[s [-> Hs]]].
        destruct (Done (nm <~ lift (as_list (str_list names)) ;;
                        sub_char <~ lift (sub_names nm (VDict wc)) ;;
                        match sub_char with
                        | _ :: _ => choice rnd sub_char
                        | [] => choice_or_none rnd (str_list names)
                        end)%rand
                    (VStr s) (S (S (S n)))) with (nk := KStr s) as [st' [n' [E' R]]].
        { unfold mbind at 1, lift at 1. unfold str_list at 1. cbn [as_list].
          unfold mbind at 1, lift at 1. unfold sub_names. rewrite Es. exact E. }
        { lia. }
        { reflexivity. }
        { right. left. now exists s. }
        exists st', n'. split; [exact E'|]. tauto.
Qed.

End CharSelection.

Lemma char_change_selects_witness :
  (* first draw below [noCharPer]: no character, the first path of the list *)
  (exists st' n',
     char_change (fun _ => 1 # 4) char_catalog_state 0%nat = Ok (st', n') /\
     (0 < n' <= 0 + 3)%nat /\
     no_char st'
     = Qlt_bool ((fun _ : nat => 1 # 4) 0%nat)
         (qv (get_config char_catalog_state "noCharPer" (VFloat (1 # 2)))) /\
     (no_char st' = true ->
      char_name st' = VStr "noChar" /\
      char_path st'
      = match ["X/char/c1.safetensors"; "X/char/c2.safetensors"; "X/char/c3.safetensors"] with
        | p :: _ => VStr p
        | [] => VNone
        end /\
      n' = 1%nat) /\
     (no_char st' = false ->
      ((char_name st' = VNone /\ ["c1"; "c2"; "c3"] = []) \/
       (exists s, char_name st' = VStr s /\ In s ["c1"; "c2"; "c3"]) \/
       (exists k w, char_name st' = of_key k /\
                    In (k, w) [(KStr "c1", VInt 150); (KStr "c2", VInt 50)] /\ 0 < qv w)) /\
      exists nk,
        to_key (char_name st') = Ok nk /\
        char_path st' = get_now char_catalog_state [KStr "CharFileDics"; nk] VNone)) /\
  (* first draw above [noCharPer], second below [CharWeightPer]: a key of
     the weight table *)
  (exists st' n',
     char_change high_then_low char_catalog_state 0%nat = Ok (st', n') /\
     (0 < n' <= 0 + 3)%nat /\
     no_char st'
     = Qlt_bool (high_then_low 0%nat)
         (qv (get_config char_catalog_state "noCharPer" (VFloat (1 # 2)))) /\
     (no_char st' = true ->
      char_name st' = VStr "noChar" /\
      char_path st'
      = match ["X/char/c1.safetensors"; "X/char/c2.safetensors"; "X/char/c3.safetensors"] with
        | p :: _ => VStr p
        | [] => VNone
        end /\
      n' = 1%nat) /\
     (no_char st' = false ->
      ((char_name st' = VNone /\ ["c1"; "c2"; "c3"] = []) \/
       (exists s, char_name st' = VStr s /\ In s ["c1"; "c2"; "c3"]) \/
       (exists k w, char_name st' = of_key k /\
                    In (k, w) [(KStr "c1", VInt 150); (KStr "c2", VInt 50)] /\ 0 < qv w)) /\
      exists nk,
        to_key (char_name st') = Ok nk /\
        char_path st' = get_now char_catalog_state [KStr "CharFileDics"; nk] VNone)) /\
  (* both draws above the thresholds: a name of the list that has no weight *)
  (exists st' n',
     char_change (fun _ => 3 # 4) char_catalog_state 0%nat = Ok (st', n') /\
     (0 < n' <= 0 + 3)%nat /\
     no_char st'
     = Qlt_bool ((fun _ : nat => 3 # 4) 0%nat)
         (qv (get_config char_catalog_state "noCharPer" (VFloat (1 # 2)))) /\
     (no_char st' = true ->
      char_name st' = VStr "noChar" /\
      char_path st'
      = match ["X/char/c1.safetensors"; "X/char/c2.safetensors"; "X/char/c3.safetensors"] with
        | p :: _ => VStr p
        | [] => VNone
        end /\
      n' = 1%nat) /\
     (no_char st' = false ->
      ((char_name st' = VNone /\ ["c1"; "c2"; "c3"] = []) \/
       (exists s, char_name st' = VStr s /\ In s ["c1"; "c2"; "c3"]) \/
       (exists k w, char_name st' = of_key k /\
                    In (k, w) [(KStr "c1", VInt 150); (KStr "c2", VInt 50)] /\ 0 < qv w)) /\
      exists nk,
        to_key (char_name st') = Ok nk /\
        char_path st' = get_now char_catalog_state [KStr "CharFileDics"; nk] VNone)).
Proof.
  split; [|split].
  - apply (char_change_selects (fun _ => 1 # 4)
             ltac:(intro n; split; [discriminate | reflexivity])
             char_catalog_state ["c1"; "c2"; "c3"]
             ["X/char/c1.safetensors"; "X/char/c2.safetensors"; "X/char/c3.safetensors"]
             [(KStr "c1", VInt 150); (KStr "c2", VInt 50)] 0%nat);
      try reflexivity.
    right. reflexivity.
  - apply (char_change_selects high_then_low
             ltac:(intros [|n]; split; [discriminate | reflexivity
                                       | discriminate | reflexivity])
             char_catalog_state ["c1"; "c2"; "c3"]
             ["X/char/c1.safetensors"; "X/char/c2.safetensors"; "X/char/c3.safetensors"]
             [(KStr "c1", VInt 150); (KStr "c2", VInt 50)] 0%nat);
      try reflexivity.
    right. reflexivity.
  - apply (char_change_selects (fun _ => 3 # 4)
             ltac:(intro n; split; [discriminate | reflexivity])
             char_catalog_state ["c1"; "c2"; "c3"]
             ["X/char/c1.safetensors"; "X/char/c2.safetensors"; "X/char/c3.safetensors"]
             [(KStr "c1", VInt 150); (KStr "c2", VInt 50)] 0%nat);
      try reflexivity.
    right. reflexivity.
Defined.

(** ** Instances *)

Section Instances.

Lemma get_nested_refines_spec_witness :
  get_nested [(KStr "KSampler", VDict [(KStr "inputs", VDict [(KStr "cfg", VInt 7)])])]
    [KStr "KSampler"; KStr "inputs"; KStr "cfg"] VNone
  = get_nested_spec [(KStr "KSampler", VDict [(KStr "inputs", VDict [(KStr "cfg", VInt 7)])])]
      [KStr "KSampler"; KStr "inputs"; KStr "cfg"] VNone.
Proof.
  apply (get_nested_refines_spec [KStr "KSampler"; KStr "inputs"; KStr "cfg"]
           [(KStr "KSampler", VDict [(KStr "inputs", VDict [(KStr "cfg", VInt 7)])])] VNone).
  discriminate.
Defined.

Lemma update_keeps_index_consistent_witness :
  exists st',
    update_safetensors ["X"; "char"; "foo.safetensors"] Modified Char
      (sample_state sample_store (KStr "X")) = Ok st' /\
    index_consistent (dics_of Char (category st')) (names_of_view Char (category st')).
Proof.
  apply (update_keeps_index_consistent ["X"; "char"; "foo.safetensors"] Modified Char
           (sample_state sample_store (KStr "X"))).
  - reflexivity.
  - vm_compute. repeat split; try constructor; intros; contradiction.
Defined.

Lemma weight_checkpoint_layers_witness :
  exists td',
    _get_weight_checkpoint [] [(KStr "m2", VInt 7)] (KStr "X")
      [(KStr "X",
         VDict [(KStr "CheckpointFileNames", VList [VStr "m1"; VStr "m2"; VStr "m3"]);
                (KStr "dicCheckpointYml",
                  VDict [(KStr "m1", VDict [(KStr "weight", VInt 5)]);
                         (KStr "m2", VDict [(KStr "weight", VInt 0)])])])] = Ok td' /\
    forall k, In k [KStr "m1"; KStr "m2"; KStr "m3"] ->
      let record_weight :=
        get_nested
          [(KStr "X",
             VDict [(KStr "CheckpointFileNames", VList [VStr "m1"; VStr "m2"; VStr "m3"]);
                    (KStr "dicCheckpointYml",
                      VDict [(KStr "m1", VDict [(KStr "weight", VInt 5)]);
                             (KStr "m2", VDict [(KStr "weight", VInt 0)])])])]
          [KStr "X"; KStr "dicCheckpointYml"; k; KStr "weight"] VNone in
      let entry := get_nested td' [KStr "X"; KStr "WeightCheckpoint"; k] VNone in
      (truthy record_weight = true -> entry = record_weight) /\
      (truthy record_weight = false ->
       forall w, dict_get [(KStr "m2", VInt 7)] k = Some w -> entry = w) /\
      (truthy record_weight = false -> dict_get [(KStr "m2", VInt 7)] k = None ->
       entry = dict_get_default [] (KStr "CheckpointWeightDefault") (VInt 150)).
Proof.
  apply (weight_checkpoint_layers []
           [(KStr "X",
              VDict [(KStr "CheckpointFileNames", VList [VStr "m1"; VStr "m2"; VStr "m3"]);
                     (KStr "dicCheckpointYml",
                       VDict [(KStr "m1", VDict [(KStr "weight", VInt 5)]);
                              (KStr "m2", VDict [(KStr "weight", VInt 0)])])])]
           [(KStr "CheckpointFileNames", VList [VStr "m1"; VStr "m2"; VStr "m3"]);
            (KStr "dicCheckpointYml",
              VDict [(KStr "m1", VDict [(KStr "weight", VInt 5)]);
                     (KStr "m2", VDict [(KStr "weight", VInt 0)])])]
           (KStr "X") [(KStr "m2", VInt 7)] [VStr "m1"; VStr "m2"; VStr "m3"]
           [KStr "m1"; KStr "m2"; KStr "m3"]).
  - reflexivity.
  - reflexivity.
  - reflexivity.
Defined.

End Instances.
